(** * Pickleball Analytics API: a shallow embedding of [main.py] and [schemas.py]

    The service is a thin FastAPI layer over MongoDB.  The handlers of
    [main.py] are embedded as functions on an explicit database state; the
    parts of the Python runtime, of [bson] and of the MongoDB query engine
    that the handlers call are embedded next to them, each with the
    behaviour the handler relies on. *)

From Stdlib Require Import ZArith NArith QArith List Ascii String Bool Lia.
From Stdlib Require Import DecimalString Sorting.Sorted Sorting.Permutation.
From stdpp Require Import base option gmap strings list.

Open Scope string_scope.
Open Scope Z_scope.

#[local] Set Warnings "-register-all".

(* ===================================================================== *)
(** ** Exceptions and results *)
(* ===================================================================== *)

(** The exceptions a handler can end with.  [HTTPException] is the one the
    handlers raise themselves; the others come from the Python runtime
    ([KeyError], [TypeError]), from the BSON encoder ([OverflowError]) and
    from the database ([OperationFailure], [DuplicateKeyError]) and reach
    the client untranslated, as a 500 response.  [RequestValidationError]
    is what FastAPI answers, with status 422, when the body does not
    validate against the handler's model; it names the offending fields. *)
Inductive exn : Type :=
  | HTTPException (status_code : Z) (detail : string)
  | KeyError (key : string)
  | TypeError (msg : string)
  | OverflowError (msg : string)
  | OperationFailure (errmsg : string)
  | DuplicateKeyError
  | RequestValidationError (fields : list string).

Inductive result (A : Type) : Type :=
  | Ok (a : A)
  | Raise (e : exn).
Arguments Ok {A} a.
Arguments Raise {A} e.

Definition bind {A B : Type} (r : result A) (k : A -> result B) : result B :=
  match r with
  | Ok a => k a
  | Raise e => Raise e
  end.

Notation "'let*' x ':=' c1 'in' c2" := (bind c1 (fun x => c2))
  (at level 10, x name, c1 at level 100, c2 at level 200).

Definition is_Ok {A : Type} (r : result A) : bool :=
  match r with Ok _ => true | Raise _ => false end.

(** What FastAPI can make a response of.  No handler declares a response
    model, so what a handler returns goes through [jsonable_encoder];
    [encodes a] says that the encoder accepts [a].  The instances, one for
    each type a handler returns, come with these types below. *)
Class Encodable (A : Type) : Type := encodes : A -> bool.

(** The status class of the response FastAPI builds from a handler's
    outcome: 200 for a returned value that it can encode and 500 for one
    that it cannot, the encoder's exception reaching the client like any
    other; the status of an [HTTPException], 422 for a validation error,
    500 for any other exception. *)
Definition status_of {A : Type} `{Encodable A} (r : result A) : Z :=
  match r with
  | Ok a => if encodes a then 200 else 500
  | Raise (HTTPException c _) => c
  | Raise (RequestValidationError _) => 422
  | Raise _ => 500
  end.

(* ===================================================================== *)
(** ** bson.ObjectId and the identifier codec [oid] *)
(* ===================================================================== *)

(** An [ObjectId] holds the bytes that [bytes.fromhex] produced. *)
Definition ObjectId : Type := list N.

(** CPython's digit table: the value of a character as a digit, 37 when it
    is none. *)
Definition digit_value (c : ascii) : N :=
  let n := N_of_ascii c in
  if ((48 <=? n) && (n <=? 57))%N then (n - 48)%N
  else if ((97 <=? n) && (n <=? 122))%N then (n - 87)%N
  else if ((65 <=? n) && (n <=? 90))%N then (n - 55)%N
  else 37%N.

Definition is_hex_digit (c : ascii) : bool := (digit_value c <? 16)%N.

(** ASCII whitespace (space, tab, newline, vertical tab, form feed,
    carriage return), which [bytes.fromhex] skips between bytes. *)
Definition is_space (c : ascii) : bool :=
  let n := N_of_ascii c in
  ((n =? 32) || ((9 <=? n) && (n <=? 13)))%N.

(** [bytes.fromhex]: two hexadecimal digits per byte, whitespace allowed
    before a byte; [None] stands for its [ValueError]. *)
Fixpoint fromhex (s : string) : option (list N) :=
  match s with
  | EmptyString => Some []
  | String c s' =>
      if is_space c then fromhex s'
      else
        match s' with
        | EmptyString => None
        | String d s'' =>
            if is_hex_digit c && is_hex_digit d
            then cons (16 * digit_value c + digit_value d)%N <$> fromhex s''
            else None
        end
  end.

(** [ObjectId(oid_str)] on a [str]: the length must be 24 and the text must
    go through [bytes.fromhex]; [None] stands for [bson.errors.InvalidId]. *)
Definition ObjectId_of_str (oid_str : string) : option ObjectId :=
  if Nat.eqb (String.length oid_str) 24 then fromhex oid_str else None.

Definition hex_char (n : N) : ascii :=
  if (n <? 10)%N then ascii_of_N (48 + n) else ascii_of_N (87 + n).

(** [str(ObjectId)]: [binascii.hexlify] of the bytes, in lower case. *)
Fixpoint hexlify (bs : list N) : string :=
  match bs with
  | [] => EmptyString
  | b :: bs' => String (hex_char (b / 16)) (String (hex_char (b mod 16)) (hexlify bs'))
  end.

Definition str_ObjectId (o : ObjectId) : string := hexlify o.

(** [main.oid] *)
Definition oid (oid_str : string) : result ObjectId :=
  match ObjectId_of_str oid_str with
  | Some o => Ok o
  | None => Raise (HTTPException 400 "Invalid ObjectId format")
  end.

(** [str.lower] on one character. *)
Definition ascii_lower (c : ascii) : ascii :=
  let n := N_of_ascii c in
  if ((65 <=? n) && (n <=? 90))%N then ascii_of_N (n + 32) else c.

Fixpoint string_lower (s : string) : string :=
  match s with
  | EmptyString => EmptyString
  | String c s' => String (ascii_lower c) (string_lower s')
  end.

Fixpoint string_forallb (p : ascii -> bool) (s : string) : bool :=
  match s with
  | EmptyString => true
  | String c s' => p c && string_forallb p s'
  end.

Fixpoint string_existsb (p : ascii -> bool) (s : string) : bool :=
  match s with
  | EmptyString => false
  | String c s' => p c || string_existsb p s'
  end.

(** A string of hexadecimal digits only, and one of lower-case digits only. *)
Definition all_hex (s : string) : bool := string_forallb is_hex_digit s.
Definition all_lower_hex (s : string) : bool :=
  string_forallb (fun c => is_hex_digit c && Ascii.eqb c (ascii_lower c)) s.


(** Lexicographic comparison of byte strings ([memcmp] on equal lengths). *)
Fixpoint bytes_compare (a b : list N) : comparison :=
  match a, b with
  | [], [] => Eq
  | [], _ :: _ => Lt
  | _ :: _, [] => Gt
  | x :: a', y :: b' =>
      match N.compare x y with
      | Eq => bytes_compare a' b'
      | c => c
      end
  end.

Definition bytes_eqb (a b : list N) : bool :=
  match bytes_compare a b with Eq => true | _ => false end.

(* ===================================================================== *)
(** ** Values and documents *)
(* ===================================================================== *)

(** The values a document field holds, on the Python side and in BSON:
    [None]/null, booleans, integers, floats, strings, ObjectIds, datetimes
    (milliseconds since the epoch), lists and embedded documents.  A float
    is the rational number it denotes; the rounding of float arithmetic is
    outside the model. *)
Inductive value : Type :=
  | VNull
  | VBool (b : bool)
  | VInt (z : Z)
  | VFloat (q : Q)
  | VStr (s : string)
  | VOid (o : ObjectId)
  | VDate (t : Z)
  | VArr (l : list value)
  | VDoc (d : list (string * value)).

(** A Python [dict] with string keys, and a BSON document: the fields in
    insertion order, each key once. *)
Definition document : Type := list (string * value).

(** *** Python dictionaries, insertion ordered *)

Section Dict.
Context {K V : Type} (keq : K -> K -> bool).

(** [d[k]] / [d.get(k)]: [None] when the key is absent. *)
Fixpoint dict_lookup (k : K) (d : list (K * V)) : option V :=
  match d with
  | [] => None
  | (k', v) :: d' => if keq k k' then Some v else dict_lookup k d'
  end.

(** [d[k] = v]: an existing key keeps its place, a new one goes last. *)
Fixpoint dict_set (k : K) (v : V) (d : list (K * V)) : list (K * V) :=
  match d with
  | [] => [(k, v)]
  | (k', v') :: d' => if keq k k' then (k', v) :: d' else (k', v') :: dict_set k v d'
  end.

(** [d.pop(k, None)] as far as the dictionary goes: the key is removed. *)
Fixpoint dict_remove (k : K) (d : list (K * V)) : list (K * V) :=
  match d with
  | [] => []
  | (k', v') :: d' => if keq k k' then d' else (k', v') :: dict_remove k d'
  end.

Definition dict_keys (d : list (K * V)) : list K := map fst d.
End Dict.

Definition doc_lookup : string -> document -> option value := dict_lookup String.eqb.
Definition doc_set : string -> value -> document -> document := dict_set String.eqb.
Definition doc_remove : string -> document -> document := dict_remove String.eqb.

(** [doc.get(k)]: Python's [None] is [VNull]. *)
Definition doc_get (k : string) (d : document) : value :=
  default VNull (doc_lookup k d).

(** [isinstance(v, ObjectId)] *)
Definition is_ObjectId (v : value) : bool :=
  match v with VOid _ => true | _ => false end.

(** [jsonable_encoder] on a value: it knows the types of JSON and
    datetimes, goes through lists and dictionaries, and has no encoding
    for an [ObjectId], at any depth. *)
Fixpoint jsonable (v : value) : bool :=
  match v with
  | VOid _ => false
  | VArr l => forallb jsonable l
  | VDoc d => forallb (fun kv => jsonable (snd kv)) d
  | _ => true
  end.

Definition jsonable_doc (d : document) : bool :=
  forallb (fun kv => jsonable (snd kv)) d.

(** A dictionary; a list of dictionaries; the answer of a handler that
    writes, which comes with the new state of the database. *)
#[export] Instance document_encodes : Encodable document := jsonable_doc.

#[export] Instance rows_encode : Encodable (list document) := forallb jsonable_doc.

#[export] Instance written_encodes {S : Type} : Encodable (document * S) :=
  fun r => jsonable_doc (fst r).

(** *** What the model takes from its environment

    Three library behaviours are inputs of the model rather than parts of
    it: the text Python's [str] gives for a float, a datetime, a list or a
    dict; the text MongoDB's [$toString] gives for a double or a date; and
    pydantic's lax-mode coercion to [float] of an input that is neither a
    number nor null. *)
Record Runtime : Type := {
  py_str_other : value -> string;
  mongo_toString_other : value -> string;
  lax_float : value -> option Q;
}.

Definition decimal (z : Z) : string :=
  DecimalString.NilZero.string_of_int (Z.to_int z).

Section WithRuntime.
Context (rt : Runtime).

(** [str(v)] *)
Definition py_str (v : value) : string :=
  match v with
  | VOid o => str_ObjectId o
  | VStr s => s
  | VNull => "None"
  | VBool true => "True"
  | VBool false => "False"
  | VInt z => decimal z
  | _ => py_str_other rt v
  end.
End WithRuntime.

(* ===================================================================== *)
(** ** The document serializer [to_serializable] *)
(* ===================================================================== *)

(** Python dictionaries are mutable objects: the store maps the address of
    each [dict] to its contents, and a function that receives a [dict]
    receives its address. *)
Abbreviation loc := positive.
Abbreviation heap := (gmap positive document).

(** Computations on the store; [None] when an address holds no [dict]. *)
Definition Py (A : Type) : Type := heap -> option (A * heap).

Definition py_ret {A : Type} (a : A) : Py A := fun h => Some (a, h).

Definition py_bind {A B : Type} (c : Py A) (k : A -> Py B) : Py B :=
  fun h => match c h with
           | Some (a, h') => k a h'
           | None => None
           end.

Notation "'let!' x ':=' c1 'in' c2" := (py_bind c1 (fun x => c2))
  (at level 10, x name, c1 at level 100, c2 at level 200).
Notation "c1 ';;' c2" := (py_bind c1 (fun _ => c2))
  (at level 100, c2 at level 200, right associativity).

(** [dict(doc)]: a new dictionary with the same items. *)
Definition py_dict_copy (l : loc) : Py loc :=
  fun h => match h !! l with
           | Some d => let l' := fresh (dom h) in Some (l', <[l' := d]> h)
           | None => None
           end.

(** [doc.get(k)] *)
Definition py_dict_get (l : loc) (k : string) : Py value :=
  fun h => match h !! l with
           | Some d => Some (doc_get k d, h)
           | None => None
           end.

(** [doc.pop(k)] for a key that [doc.get] has just found. *)
Definition py_dict_pop (l : loc) (k : string) : Py value :=
  fun h => match h !! l with
           | Some d => Some (doc_get k d, <[l := doc_remove k d]> h)
           | None => None
           end.

(** [doc[k] = v] *)
Definition py_dict_setitem (l : loc) (k : string) (v : value) : Py unit :=
  fun h => match h !! l with
           | Some d => Some (tt, <[l := doc_set k v d]> h)
           | None => None
           end.

(** [list(doc.items())]: the items at the time of the call. *)
Definition py_dict_items (l : loc) : Py (list (string * value)) :=
  fun h => match h !! l with
           | Some d => Some (d, h)
           | None => None
           end.

(** [for x in xs: body(x)] *)
Fixpoint py_for {A : Type} (xs : list A) (body : A -> Py unit) : Py unit :=
  match xs with
  | [] => py_ret tt
  | x :: xs' => body x ;; py_for xs' body
  end.

Definition is_None (v : value) : bool :=
  match v with VNull => true | _ => false end.

Section Serializer.
Context (rt : Runtime).

(** [main.to_serializable]: the argument and the result are addresses. *)
Definition to_serializable (doc : loc) : Py loc :=
  let! doc := py_dict_copy doc in
  let! _id := py_dict_get doc "_id" in
  (if negb (is_None _id)
   then let! v := py_dict_pop doc "_id" in
        py_dict_setitem doc "id" (VStr (py_str rt v))
   else py_ret tt) ;;
  let! items := py_dict_items doc in
  py_for items (fun '(k, v) =>
    if is_ObjectId v then py_dict_setitem doc k (VStr (py_str rt v))
    else py_ret tt) ;;
  py_ret doc.

(** [to_serializable] applied to a document that nothing else refers to,
    as the handlers do with the rows of a cursor: the contents of the
    dictionary it returns. *)
Definition to_serializable_doc (d : document) : document :=
  match to_serializable 1%positive {[ 1%positive := d ]} with
  | Some (l', h') => default d (h' !! l')
  | None => d
  end.
End Serializer.

(** What [to_serializable] does to one field value. *)
Definition stringify (rt : Runtime) (v : value) : value :=
  if is_ObjectId v then VStr (py_str rt v) else v.

Definition map_values (f : value -> value) (d : document) : document :=
  map (fun kv => (fst kv, f (snd kv))) d.

(** The loop body of [to_serializable], on the contents of the dictionary. *)
Definition stringify_item (rt : Runtime) (acc : document) (kv : string * value) : document :=
  if is_ObjectId (snd kv) then doc_set (fst kv) (VStr (py_str rt (snd kv))) acc else acc.

(** The dictionary after the [_id] field has been renamed. *)
Definition rename_id (rt : Runtime) (d : document) : document :=
  if negb (is_None (doc_get "_id" d))
  then doc_set "id" (VStr (py_str rt (doc_get "_id" d))) (doc_remove "_id" d)
  else d.

(** The fields other than [_id] and [id]. *)
Definition other_field (k : string) : bool :=
  negb (String.eqb k "_id") && negb (String.eqb k "id").

(* ===================================================================== *)
(** ** The database: collections, queries and aggregation *)
(* ===================================================================== *)

(** *** Equality and order of BSON values *)

(** Equality as the query engine sees it: numbers are compared by value,
    whatever their type; other values within their type. *)
Fixpoint mongo_eqb (a b : value) : bool :=
  match a, b with
  | VNull, VNull => true
  | VBool x, VBool y => Bool.eqb x y
  | VInt x, VInt y => x =? y
  | VInt x, VFloat y => Qeq_bool (inject_Z x) y
  | VFloat x, VInt y => Qeq_bool x (inject_Z y)
  | VFloat x, VFloat y => Qeq_bool x y
  | VStr x, VStr y => String.eqb x y
  | VOid x, VOid y => bytes_eqb x y
  | VDate x, VDate y => x =? y
  | VArr x, VArr y =>
      (fix go (l1 l2 : list value) : bool :=
         match l1, l2 with
         | [], [] => true
         | u :: l1', w :: l2' => mongo_eqb u w && go l1' l2'
         | _, _ => false
         end) x y
  | VDoc x, VDoc y =>
      (fix go (l1 l2 : list (string * value)) : bool :=
         match l1, l2 with
         | [], [] => true
         | (j, u) :: l1', (k, w) :: l2' => String.eqb j k && mongo_eqb u w && go l1' l2'
         | _, _ => false
         end) x y
  | _, _ => false
  end.

(** The rank of a value's type in the BSON comparison order. *)
Definition type_rank (v : value) : Z :=
  match v with
  | VNull => 1
  | VInt _ | VFloat _ => 2
  | VStr _ => 3
  | VDoc _ => 4
  | VArr _ => 5
  | VOid _ => 7
  | VBool _ => 8
  | VDate _ => 9
  end.

Definition lex (c : comparison) (rest : comparison) : comparison :=
  match c with Eq => rest | _ => c end.

(** The BSON comparison order that [$sort] uses: by type rank, then within
    the type (numbers by value, ObjectIds bytewise, embedded documents and
    lists item by item). *)
Fixpoint bson_compare (a b : value) : comparison :=
  match a, b with
  | VNull, VNull => Eq
  | VBool x, VBool y => Bool.compare x y
  | VInt x, VInt y => Z.compare x y
  | VInt x, VFloat y => Qcompare (inject_Z x) y
  | VFloat x, VInt y => Qcompare x (inject_Z y)
  | VFloat x, VFloat y => Qcompare x y
  | VStr x, VStr y => String.compare x y
  | VOid x, VOid y => bytes_compare x y
  | VDate x, VDate y => Z.compare x y
  | VArr x, VArr y =>
      (fix go (l1 l2 : list value) : comparison :=
         match l1, l2 with
         | [], [] => Eq
         | [], _ :: _ => Lt
         | _ :: _, [] => Gt
         | u :: l1', w :: l2' => lex (bson_compare u w) (go l1' l2')
         end) x y
  | VDoc x, VDoc y =>
      (fix go (l1 l2 : list (string * value)) : comparison :=
         match l1, l2 with
         | [], [] => Eq
         | [], _ :: _ => Lt
         | _ :: _, [] => Gt
         | (j, u) :: l1', (k, w) :: l2' =>
             lex (Z.compare (type_rank u) (type_rank w))
               (lex (String.compare j k) (lex (bson_compare u w) (go l1' l2')))
         end) x y
  | _, _ => Z.compare (type_rank a) (type_rank b)
  end.

(** *** Collections *)

(** A database: its collections by name, each the list of its documents in
    insertion order.  A collection that was never written to is empty. *)
Abbreviation Database := (gmap string (list document)).

Definition collection (db : Database) (name : string) : list document :=
  default [] (db !! name).

(** [db[name].insert_one(data)]: the driver gives the document a fresh
    [_id], [new_id], which the collection's unique index checks. *)
Definition insert_one (db : Database) (name : string) (new_id : ObjectId)
    (data : document) : result (ObjectId * Database) :=
  if existsb (fun d => mongo_eqb (doc_get "_id" d) (VOid new_id)) (collection db name)
  then Raise DuplicateKeyError
  else Ok (new_id, <[name := (collection db name ++ [("_id", VOid new_id) :: data])%list]> db).

(** *** Queries *)

Inductive cond : Type :=
  | C_eq (v : value)               (* {field: v} *)
  | C_in (vs : list value)         (* {field: {"$in": vs}} *)
  | C_ne (v : value)               (* {field: {"$ne": v}} *)
  | C_exists (b : bool).           (* {field: {"$exists": b}} *)

(** A query document: the conjunction of its clauses. *)
Inductive clause : Type :=
  | Q_field (field : string) (c : cond)
  | Q_or (alternatives : list (list clause)).   (* {"$or": [...]} *)

Abbreviation query := (list clause).

(** A field matches a value when it equals it or is a list holding it; an
    absent field matches null. *)
Definition field_equals (fv : option value) (v : value) : bool :=
  match fv with
  | None => mongo_eqb VNull v
  | Some (VArr l) => mongo_eqb (VArr l) v || existsb (fun x => mongo_eqb x v) l
  | Some x => mongo_eqb x v
  end.

Definition cond_holds (fv : option value) (c : cond) : bool :=
  match c with
  | C_eq v => field_equals fv v
  | C_in vs => existsb (field_equals fv) vs
  | C_ne v => negb (field_equals fv v)
  | C_exists b => Bool.eqb (bool_decide (is_Some fv)) b
  end.

Fixpoint clause_holds (d : document) (c : clause) : bool :=
  match c with
  | Q_field f c => cond_holds (doc_lookup f d) c
  | Q_or alts => existsb (fun q => forallb (clause_holds d) q) alts
  end.

Definition matches_query (q : query) (d : document) : bool :=
  forallb (clause_holds d) q.

(** [db[name].find(q)], [find_one(q)], [count_documents(q)] *)
Definition find (db : Database) (name : string) (q : query) : list document :=
  List.filter (matches_query q) (collection db name).

Definition find_one (db : Database) (name : string) (q : query) : option document :=
  head (find db name q).

Definition count_documents (db : Database) (name : string) (q : query) : Z :=
  Z.of_nat (List.length (find db name q)).

(** *** Aggregation pipelines *)

Inductive expr : Type :=
  | E_field (path : list string)       (* "$a.b" is [E_field ["a"; "b"]] *)
  | E_const (v : value)                (* a literal, such as [1] or [None] *)
  | E_toString (e : expr).             (* {"$toString": e} *)

Inductive accumulator : Type :=
  | A_sum (e : expr)                   (* {"$sum": e} *)
  | A_avg (e : expr).                  (* {"$avg": e} *)

Inductive projection : Type :=
  | P_include                          (* field: 1 *)
  | P_expr (e : expr).                 (* field: expression *)

Inductive stage : Type :=
  | S_match (q : query)
  | S_group (_id : expr) (accumulators : list (string * accumulator))
  | S_lookup (from localField foreignField as_ : string)
  | S_unwind (path : string) (preserveNullAndEmptyArrays : bool)
  | S_project (spec : list (string * projection))
  | S_sort (keys : list (string * Z))
  | S_limit (n : Z).

Fixpoint mapM {A B : Type} (f : A -> result B) (l : list A) : result (list B) :=
  match l with
  | [] => Ok []
  | x :: l' => let* y := f x in let* ys := mapM f l' in Ok (y :: ys)
  end.

(** The value at a field path; the path goes through embedded documents. *)
Fixpoint get_path (p : list string) (v : value) : option value :=
  match p with
  | [] => Some v
  | k :: p' =>
      match v with
      | VDoc d =>
          match doc_lookup k d with
          | Some x => get_path p' x
          | None => None
          end
      | _ => None
      end
  end.

Definition num_of (v : value) : option Q :=
  match v with
  | VInt z => Some (inject_Z z)
  | VFloat q => Some q
  | _ => None
  end.

(** [$sum] adds the numbers among the values (an integer while all of them
    are integers) and skips everything else. *)
Definition add_value (acc v : value) : value :=
  match acc, v with
  | VInt a, VInt z => VInt (a + z)
  | VInt a, VFloat q => VFloat (inject_Z a + q)
  | VFloat a, VInt z => VFloat (a + inject_Z z)
  | VFloat a, VFloat q => VFloat (a + q)
  | _, _ => acc
  end.

Definition sum_values (vs : list value) : value := fold_left add_value vs (VInt 0).

Definition Qsum (qs : list Q) : Q := fold_right Qplus 0%Q qs.

(** The mean of a non-empty list of numbers, in lowest terms. *)
Definition mean (qs : list Q) : Q :=
  Qred (Qsum qs / inject_Z (Z.of_nat (List.length qs))).

(** [$avg] is the mean of the numbers among the values, null when there is
    none. *)
Definition avg_values (vs : list value) : value :=
  match omap num_of vs with
  | [] => VNull
  | qs => VFloat (mean qs)
  end.

(** The distinct elements, each at its first occurrence. *)
Fixpoint nub_by {A : Type} (eqb : A -> A -> bool) (l : list A) : list A :=
  match l with
  | [] => []
  | x :: l' => x :: List.filter (fun y => negb (eqb x y)) (nub_by eqb l')
  end.

(** A stable sort: elements that [le] does not separate keep their order. *)
Fixpoint insert_by {A : Type} (le : A -> A -> bool) (x : A) (l : list A) : list A :=
  match l with
  | [] => [x]
  | y :: l' => if le x y then x :: y :: l' else y :: insert_by le x l'
  end.

Definition sort_by {A : Type} (le : A -> A -> bool) (l : list A) : list A :=
  fold_right (insert_by le) [] l.

(** Documents compared on the keys of a [$sort], 1 ascending and -1
    descending; an absent field counts as null. *)
Fixpoint compare_docs (keys : list (string * Z)) (d1 d2 : document) : comparison :=
  match keys with
  | [] => Eq
  | (f, dir) :: keys' =>
      let c := bson_compare (doc_get f d1) (doc_get f d2) in
      lex (if dir <? 0 then CompOpp c else c) (compare_docs keys' d1 d2)
  end.

Definition doc_le (keys : list (string * Z)) (d1 d2 : document) : bool :=
  match compare_docs keys d1 d2 with Gt => false | _ => true end.

Definition int64_min : Z := - 2 ^ 63.
Definition int64_max : Z := 2 ^ 63 - 1.

Section Aggregation.
Context (rt : Runtime).

Fixpoint eval_expr (e : expr) (d : document) : result (option value) :=
  match e with
  | E_field p => Ok (get_path p (VDoc d))
  | E_const v => Ok (Some v)
  | E_toString e' =>
      let* v := eval_expr e' d in
      match v with
      | None | Some VNull => Ok (Some VNull)
      | Some (VOid o) => Ok (Some (VStr (str_ObjectId o)))
      | Some (VStr s) => Ok (Some (VStr s))
      | Some (VBool true) => Ok (Some (VStr "true"))
      | Some (VBool false) => Ok (Some (VStr "false"))
      | Some (VInt z) => Ok (Some (VStr (decimal z)))
      | Some (VFloat q) => Ok (Some (VStr (mongo_toString_other rt (VFloat q))))
      | Some (VDate t) => Ok (Some (VStr (mongo_toString_other rt (VDate t))))
      | Some (VArr _) | Some (VDoc _) =>
          Raise (OperationFailure "Unsupported conversion in $convert")
      end
  end.

(** The values of an expression over the documents of a group, absent
    ones left out. *)
Definition eval_all (e : expr) (ds : list document) : result (list value) :=
  let* vs := mapM (eval_expr e) ds in Ok (omap id vs).

Definition eval_accumulator (a : accumulator) (ds : list document) : result value :=
  match a with
  | A_sum e => let* vs := eval_all e ds in Ok (sum_values vs)
  | A_avg e => let* vs := eval_all e ds in Ok (avg_values vs)
  end.

(** The grouping key of a document: the value of the [_id] expression,
    null when it is absent. *)
Definition group_key (id : expr) (d : document) : result value :=
  let* k := eval_expr id d in Ok (default VNull k).

(** [$group]: one output document per distinct key, in the order in which
    the keys first occur (the engine promises no order). *)
Definition group_stage (id : expr) (accs : list (string * accumulator))
    (ds : list document) : result (list document) :=
  let* ks := mapM (group_key id) ds in
  let keyed := combine ks ds in
  mapM (fun k =>
          let members := map snd (List.filter (fun kd => mongo_eqb (fst kd) k) keyed) in
          let* fields := mapM (fun na => let* v := eval_accumulator (snd na) members in
                                         Ok (fst na, v)) accs in
          Ok (("_id", k) :: fields))
       (nub_by mongo_eqb ks).

(** [$lookup]: the documents of [from] whose [foreignField] equals the
    [localField] of the input document, as a list under [as]. *)
Definition lookup_stage (db : Database) (from localField foreignField as_ : string)
    (ds : list document) : list document :=
  map (fun d =>
         let joined := List.filter
                         (fun f => field_equals (doc_lookup foreignField f)
                                                (doc_get localField d))
                         (collection db from) in
         doc_set as_ (VArr (map VDoc joined)) d) ds.

(** [$unwind]: one output document per element of the list at [path]. *)
Definition unwind_stage (path : string) (preserve : bool) (ds : list document)
    : list document :=
  flat_map (fun d =>
              match doc_lookup path d with
              | Some (VArr []) => if preserve then [doc_remove path d] else []
              | Some (VArr l) => map (fun x => doc_set path x d) l
              | Some VNull | None => if preserve then [d] else []
              | Some _ => [d]
              end) ds.

Definition included (spec : list (string * projection)) (k : string) : bool :=
  String.eqb k "_id" ||
  existsb (fun kp => match snd kp with
                     | P_include => String.eqb (fst kp) k
                     | P_expr _ => false
                     end) spec.

(** [$project] with inclusions: [_id] and the included fields, in the
    order of the input document, then the computed fields that have a
    value, in the order of the specification. *)
Definition project_doc (spec : list (string * projection)) (d : document)
    : result document :=
  let kept := List.filter (fun kv => included spec (fst kv)) d in
  let* computed := mapM (fun kp => match snd kp with
                                   | P_include => Ok None
                                   | P_expr e => let* v := eval_expr e d in
                                                 Ok (pair (fst kp) <$> v)
                                   end) spec in
  Ok (fold_left (fun acc kv => doc_set (fst kv) (snd kv) acc) (omap id computed) kept).

(** [$limit]: at most the first [n] documents. *)
Definition limit_stage (n : Z) (ds : list document) : list document :=
  firstn (Z.to_nat n) ds.

Definition run_stage (db : Database) (s : stage) (ds : list document)
    : result (list document) :=
  match s with
  | S_match q => Ok (List.filter (matches_query q) ds)
  | S_group id accs => group_stage id accs ds
  | S_lookup from lf ff as_ => Ok (lookup_stage db from lf ff as_ ds)
  | S_unwind path preserve => Ok (unwind_stage path preserve ds)
  | S_project spec => mapM (project_doc spec) ds
  | S_sort keys => Ok (sort_by (doc_le keys) ds)
  | S_limit n => Ok (limit_stage n ds)
  end.

Fixpoint run_pipeline (db : Database) (pipeline : list stage) (ds : list document)
    : result (list document) :=
  match pipeline with
  | [] => Ok ds
  | s :: pipeline' => let* ds' := run_stage db s ds in run_pipeline db pipeline' ds'
  end.

(** The driver encodes the pipeline before it sends it, and BSON has no
    integer beyond 8 bytes. *)
Definition stage_encodes (s : stage) : bool :=
  match s with
  | S_limit n => (int64_min <=? n) && (n <=? int64_max)
  | _ => true
  end.

(** The server parses the pipeline before it runs it, and refuses a
    [$limit] that is not positive. *)
Definition stage_parses (s : stage) : bool :=
  match s with
  | S_limit n => 0 <? n
  | _ => true
  end.

(** [list(db[name].aggregate(pipeline))] *)
Definition aggregate (db : Database) (name : string) (pipeline : list stage)
    : result (list document) :=
  if negb (forallb stage_encodes pipeline)
  then Raise (OverflowError "MongoDB can only handle up to 8-byte ints")
  else if negb (forallb stage_parses pipeline)
  then Raise (OperationFailure "the limit must be positive")
  else run_pipeline db pipeline (collection db name).
End Aggregation.

(* ===================================================================== *)
(** ** The entity schemas of [schemas.py] *)
(* ===================================================================== *)

Inductive Handedness : Type := hand_left | hand_right.

Definition Handedness_str (h : Handedness) : string :=
  match h with hand_left => "left" | hand_right => "right" end.

Inductive Shot : Type :=
  | serve | return_ | drive | drop | dink | lob | volley | smash | other.

Definition Shot_str (s : Shot) : string :=
  match s with
  | serve => "serve" | return_ => "return" | drive => "drive" | drop => "drop"
  | dink => "dink" | lob => "lob" | volley => "volley" | smash => "smash"
  | other => "other"
  end.

Definition opt_value {A : Type} (f : A -> value) (o : option A) : value :=
  match o with Some a => f a | None => VNull end.

Definition Qle_both (lo hi q : Q) : bool := Qle_bool lo q && Qle_bool q hi.

Module Player.
(** A validated [Player]. *)
Record t : Type := {
  name : string;
  rating : option Q;
  handedness : option Handedness;
}.

Definition model_dump (p : t) : document :=
  [("name", VStr (name p));
   ("rating", opt_value VFloat (rating p));
   ("handedness", opt_value (fun h => VStr (Handedness_str h)) (handedness p))].

Section Validation.
Context (rt : Runtime).

(** [name: str = Field(...)]: required, a string; no other constraint. *)
Definition validate_name (d : document) : option string :=
  match doc_lookup "name" d with
  | Some (VStr s) => Some s
  | _ => None
  end.

(** [rating: Optional[float] = Field(None, ge=0, le=6.0)] *)
Definition validate_rating (d : document) : option (option Q) :=
  match doc_lookup "rating" d with
  | None | Some VNull => Some None
  | Some v =>
      let f := match v with
               | VFloat q => Some q
               | VInt z => Some (inject_Z z)
               | _ => lax_float rt v
               end in
      match f with
      | Some q => if Qle_both 0 6 q then Some (Some q) else None
      | None => None
      end
  end.

(** [handedness: Optional[Literal["left", "right"]] = Field(None)] *)
Definition validate_handedness (d : document) : option (option Handedness) :=
  match doc_lookup "handedness" d with
  | None | Some VNull => Some None
  | Some (VStr s) =>
      if String.eqb s "left" then Some (Some hand_left)
      else if String.eqb s "right" then Some (Some hand_right)
      else None
  | Some _ => None
  end.

Definition missing {A : Type} (field : string) (o : option A) : list string :=
  match o with Some _ => [] | None => [field] end.

(** Validation of a request body, the parsed JSON, against the model:
    every field is checked, and the fields that fail are reported
    together; fields the model does not declare are ignored. *)
Definition validate (body : value) : result t :=
  match body with
  | VDoc d =>
      match validate_name d, validate_rating d, validate_handedness d with
      | Some n, Some r, Some h => Ok {| name := n; rating := r; handedness := h |}
      | n, r, h =>
          Raise (RequestValidationError
                   (missing "name" n ++ missing "rating" r ++ missing "handedness" h)%list)
      end
  | _ => Raise (RequestValidationError ["body"])
  end.
End Validation.
End Player.

(** A validated model holds strings, numbers, booleans and datetimes. *)
#[export] Instance Player_encodes : Encodable Player.t := fun _ => true.

Module Match.
(** A validated [Match]; a datetime is its number of milliseconds since
    the epoch. *)
Record t : Type := {
  player_a_id : string;
  player_b_id : string;
  location : option string;
  level : option string;
  started_at : option Z;
  completed_at : option Z;
}.

Definition model_dump (m : t) : document :=
  [("player_a_id", VStr (player_a_id m));
   ("player_b_id", VStr (player_b_id m));
   ("location", opt_value VStr (location m));
   ("level", opt_value VStr (level m));
   ("started_at", opt_value VDate (started_at m));
   ("completed_at", opt_value VDate (completed_at m))].
End Match.

#[export] Instance Match_encodes : Encodable Match.t := fun _ => true.

Module Point.
(** A validated [Point]. *)
Record t : Type := {
  match_id : string;
  scorer_id : string;
  rally_length : Z;
  winner_shot : option Shot;
  unforced_error : bool;
  notes : option string;
}.

Definition model_dump (p : t) : document :=
  [("match_id", VStr (match_id p));
   ("scorer_id", VStr (scorer_id p));
   ("rally_length", VInt (rally_length p));
   ("winner_shot", opt_value (fun s => VStr (Shot_str s)) (winner_shot p));
   ("unforced_error", VBool (unforced_error p));
   ("notes", opt_value VStr (notes p))].
End Point.

#[export] Instance Point_encodes : Encodable Point.t := fun _ => true.

(* ===================================================================== *)
(** ** The request handlers of [main.py] *)
(* ===================================================================== *)

(** Python's truth value of an object. *)
Definition py_truthy (v : value) : bool :=
  match v with
  | VNull => false
  | VBool b => b
  | VInt z => negb (z =? 0)
  | VFloat q => negb (Qeq_bool q 0)
  | VStr s => negb (String.eqb s "")
  | VOid _ | VDate _ => true
  | VArr l => match l with [] => false | _ => true end
  | VDoc d => match d with [] => false | _ => true end
  end.

(** Lists and dicts cannot be the key of a [dict]. *)
Definition py_hashable (v : value) : bool :=
  match v with VArr _ | VDoc _ => false | _ => true end.

Definition py_number (v : value) : option Q :=
  match v with
  | VBool b => Some (if b then 1%Q else 0%Q)
  | VInt z => Some (inject_Z z)
  | VFloat q => Some q
  | _ => None
  end.

(** Python's [==] on the keys of a [dict]: booleans and numbers by value,
    other objects within their type. *)
Definition py_eqb (a b : value) : bool :=
  match py_number a, py_number b with
  | Some x, Some y => Qeq_bool x y
  | None, None => mongo_eqb a b
  | _, _ => false
  end.

(** [d[k]] *)
Definition py_getitem (d : document) (k : string) : result value :=
  match doc_lookup k d with
  | Some v => Ok v
  | None => Raise (KeyError k)
  end.

(** The [db is None] guard that opens every handler. *)
Definition require_db (db : option Database) : result Database :=
  match db with
  | None => Raise (HTTPException 500 "Database not configured")
  | Some d => Ok d
  end.

(** The analytics summary that [player_analytics] returns. *)
Record Totals : Type := {
  points_won : Z;
  points_lost : Z;
  avg_rally : value;
}.

Record Summary : Type := {
  player : value;
  totals : Totals;
  shot_distribution : list (value * value);
  matches : Z;
}.

#[export] Instance Summary_encodes : Encodable Summary :=
  fun s => jsonable (player s) && jsonable (avg_rally (totals s))
           && forallb (fun kv => jsonable (fst kv) && jsonable (snd kv))
                      (shot_distribution s).

(** [player_doc.get("name") if player_doc else None] *)
Definition name_of (player_doc : option document) : value :=
  match player_doc with
  | Some d => if py_truthy (VDoc d) then doc_get "name" d else VNull
  | None => VNull
  end.

Section Handlers.
Context (rt : Runtime).

(** Modelled from the spec: [database.create_document], which is not in
    the sources: "insert(collectionName, record) -> generatedId".  The
    record is stored as its [model_dump], and the identifier comes back
    as a string. *)
Definition create_document (db : Database) (new_id : ObjectId)
    (collection_name : string) (data : document) : result (string * Database) :=
  let* r := insert_one db collection_name new_id data in
  Ok (str_ObjectId (fst r), snd r).

(** Modelled from the spec: [database.get_documents], which is not in the
    sources: "findAll(collectionName) -> sequence of records". *)
Definition get_documents (db : Database) (collection_name : string) : list document :=
  find db collection_name [].

(** POST /api/players *)
Definition create_player (db : option Database) (new_id : ObjectId)
    (player : Player.t) : result (document * Database) :=
  let* db := require_db db in
  let* r := create_document db new_id "player" (Player.model_dump player) in
  Ok ([("id", VStr (fst r))], snd r).

(** GET /api/players *)
Definition list_players (db : option Database) : result (list document) :=
  let* db := require_db db in
  let docs := get_documents db "player" in
  Ok (map (to_serializable_doc rt) docs).

(** POST /api/matches.  [data["player_a_id"]] and [data["player_b_id"]]
    are the two strings of the validated model. *)
Definition create_match (db : option Database) (new_id : ObjectId)
    (match_ : Match.t) : result (document * Database) :=
  let* db := require_db db in
  let data := Match.model_dump match_ in
  let* a := oid (Match.player_a_id match_) in
  let data := doc_set "player_a_id" (VOid a) data in
  let* b := oid (Match.player_b_id match_) in
  let data := doc_set "player_b_id" (VOid b) data in
  let* r := insert_one db "match" new_id data in
  Ok ([("id", VStr (str_ObjectId (fst r)))], snd r).

Definition recent_matches_pipeline (limit : Z) : list stage :=
  [ S_sort [("started_at", -1); ("_id", -1)];
    S_limit limit;
    S_lookup "player" "player_a_id" "_id" "player_a";
    S_lookup "player" "player_b_id" "_id" "player_b";
    S_unwind "player_a" true;
    S_unwind "player_b" true;
    S_project [("player_a", P_expr (E_field ["player_a"; "name"]));
               ("player_b", P_expr (E_field ["player_b"; "name"]));
               ("location", P_include);
               ("level", P_include);
               ("started_at", P_include);
               ("completed_at", P_include)] ].

(** GET /api/matches/recent; [limit: int = 10], [None] when the request
    does not give it. *)
Definition recent_matches (db : option Database) (limit : option Z)
    : result (list document) :=
  let limit := default 10 limit in
  let* db := require_db db in
  let* rows := aggregate rt db "match" (recent_matches_pipeline limit) in
  Ok (map (to_serializable_doc rt) rows).

(** POST /api/points.  [data["match_id"]] and [data["scorer_id"]] are the
    two strings of the validated model. *)
Definition create_point (db : option Database) (new_id : ObjectId)
    (point : Point.t) : result (document * Database) :=
  let* db := require_db db in
  let data := Point.model_dump point in
  let* m := oid (Point.match_id point) in
  let data := doc_set "match_id" (VOid m) data in
  let* s := oid (Point.scorer_id point) in
  let data := doc_set "scorer_id" (VOid s) data in
  let data := if is_None (doc_get "winner_shot" data)
              then doc_remove "winner_shot" data
              else data in
  let* r := insert_one db "point" new_id data in
  Ok ([("id", VStr (str_ObjectId (fst r)))], snd r).

Definition leaderboard_pipeline (limit : Z) : list stage :=
  [ S_group (E_field ["scorer_id"])
      [("points_won", A_sum (E_const (VInt 1)));
       ("avg_rally", A_avg (E_field ["rally_length"]))];
    S_lookup "player" "_id" "_id" "player";
    S_unwind "player" true;
    S_project [("player_id", P_expr (E_toString (E_field ["_id"])));
               ("name", P_expr (E_field ["player"; "name"]));
               ("points_won", P_include);
               ("avg_rally", P_include)];
    S_sort [("points_won", -1)];
    S_limit limit ].

(** GET /api/analytics/leaderboard; [limit: int = 10], [None] when the
    request does not give it. *)
Definition leaderboard (db : option Database) (limit : option Z)
    : result (list document) :=
  let limit := default 10 limit in
  let* db := require_db db in
  let* rows := aggregate rt db "point" (leaderboard_pipeline limit) in
  Ok rows.

(** The dict comprehension that builds [shot_distribution]. *)
Fixpoint shot_dict (shot_rows : list document) (acc : list (value * value))
    : result (list (value * value)) :=
  match shot_rows with
  | [] => Ok acc
  | r :: rows' =>
      if py_truthy (doc_get "_id" r)
      then let* k := py_getitem r "_id" in
           let* c := py_getitem r "count" in
           if py_hashable k
           then shot_dict rows' (dict_set py_eqb k c acc)
           else Raise (TypeError "unhashable type")
      else shot_dict rows' acc
  end.

(** GET /api/analytics/player/{player_id} *)
Definition player_analytics (db : option Database) (player_id : string) : result Summary :=
  let* db := require_db db in
  let* player_oid := oid player_id in
  let matches_ := find db "match"
                    [Q_or [[Q_field "player_a_id" (C_eq (VOid player_oid))];
                           [Q_field "player_b_id" (C_eq (VOid player_oid))]]] in
  let* match_ids := mapM (fun m => py_getitem m "_id") matches_ in
  match match_ids with
  | [] =>
      let player_doc := find_one db "player" [Q_field "_id" (C_eq (VOid player_oid))] in
      Ok {| player := name_of player_doc;
            totals := {| points_won := 0; points_lost := 0; avg_rally := VNull |};
            shot_distribution := [];
            matches := 0 |}
  | _ :: _ =>
      let won_count := count_documents db "point"
                         [Q_field "match_id" (C_in match_ids);
                          Q_field "scorer_id" (C_eq (VOid player_oid))] in
      let lost_count := count_documents db "point"
                          [Q_field "match_id" (C_in match_ids);
                           Q_field "scorer_id" (C_ne (VOid player_oid))] in
      let pipeline_avg :=
        [ S_match [Q_field "match_id" (C_in match_ids)];
          S_group (E_const VNull) [("avg", A_avg (E_field ["rally_length"]))] ] in
      let* avg_cursor := aggregate rt db "point" pipeline_avg in
      let* avg_rally := match avg_cursor with
                        | r :: _ => py_getitem r "avg"
                        | [] => Ok VNull
                        end in
      let pipeline_shots :=
        [ S_match [Q_field "match_id" (C_in match_ids);
                   Q_field "scorer_id" (C_eq (VOid player_oid));
                   Q_field "winner_shot" (C_exists true)];
          S_group (E_field ["winner_shot"]) [("count", A_sum (E_const (VInt 1)))];
          S_sort [("count", -1)] ] in
      let* shot_rows := aggregate rt db "point" pipeline_shots in
      let* shot_distribution := shot_dict shot_rows [] in
      let player_doc := find_one db "player" [Q_field "_id" (C_eq (VOid player_oid))] in
      Ok {| player := name_of player_doc;
            totals := {| points_won := won_count; points_lost := lost_count;
                         avg_rally := avg_rally |};
            shot_distribution := shot_distribution;
            matches := Z.of_nat (List.length matches_) |}
  end.
End Handlers.

(* ===================================================================== *)
(** ** Stored documents *)
(* ===================================================================== *)

(** The ObjectId in a field, when the field holds one. *)
Definition oid_field (k : string) (d : document) : option ObjectId :=
  match doc_lookup k d with
  | Some (VOid o) => Some o
  | _ => None
  end.

Definition has_oid (k : string) (o : ObjectId) (d : document) : bool :=
  match oid_field k d with
  | Some o' => bytes_eqb o' o
  | None => false
  end.

(** The integer in a field, when the field holds one. *)
Definition int_field (k : string) (d : document) : option Z :=
  match doc_lookup k d with
  | Some (VInt z) => Some z
  | _ => None
  end.

(** What the handlers store.  No document has a key twice.  A player has
    an ObjectId [_id]; a match has
    an ObjectId [_id], two player references that are ObjectIds, and a
    [started_at] that is null or a datetime; a point has an ObjectId [_id],
    a match and a scorer reference that are ObjectIds, an integer
    [rally_length], and either no [winner_shot] or the name of a shot. *)
Definition wf_player (d : document) : bool :=
  bool_decide (NoDup (dict_keys d)) &&
  bool_decide (is_Some (oid_field "_id" d)).

Definition wf_match (d : document) : bool :=
  bool_decide (NoDup (dict_keys d)) &&
  bool_decide (is_Some (oid_field "_id" d)) &&
  bool_decide (is_Some (oid_field "player_a_id" d)) &&
  bool_decide (is_Some (oid_field "player_b_id" d)) &&
  match doc_lookup "started_at" d with
  | Some VNull | Some (VDate _) => true
  | _ => false
  end.

Definition is_shot_name (s : string) : bool :=
  existsb (fun w => String.eqb s (Shot_str w))
          [serve; return_; drive; drop; dink; lob; volley; smash; other].

Definition wf_point (d : document) : bool :=
  bool_decide (NoDup (dict_keys d)) &&
  bool_decide (is_Some (oid_field "_id" d)) &&
  bool_decide (is_Some (oid_field "match_id" d)) &&
  bool_decide (is_Some (oid_field "scorer_id" d)) &&
  bool_decide (is_Some (int_field "rally_length" d)) &&
  match doc_lookup "winner_shot" d with
  | None => true
  | Some (VStr s) => is_shot_name s
  | Some _ => false
  end.

(** The invariant of the database: every stored document is as above, and
    within a collection no two documents share their [_id]. *)
Record wf_db (db : Database) : Prop := {
  wf_players : Forall (fun d => wf_player d = true) (collection db "player");
  wf_player_ids : NoDup (map (oid_field "_id") (collection db "player"));
  wf_matches : Forall (fun d => wf_match d = true) (collection db "match");
  wf_match_ids : NoDup (map (oid_field "_id") (collection db "match"));
  wf_points : Forall (fun d => wf_point d = true) (collection db "point");
  wf_point_ids : NoDup (map (oid_field "_id") (collection db "point"));
}.

(** The document that [create_point] stores for a point, once its two
    references have been decoded. *)
Definition point_doc (new_id m s : ObjectId) (pt : Point.t) : document :=
  ([("_id", VOid new_id); ("match_id", VOid m); ("scorer_id", VOid s);
    ("rally_length", VInt (Point.rally_length pt))]
  ++ match Point.winner_shot pt with
     | Some w => [("winner_shot", VStr (Shot_str w))]
     | None => []
     end
  ++ [("unforced_error", VBool (Point.unforced_error pt));
      ("notes", opt_value VStr (Point.notes pt))])%list.

(** The shot distribution of a response, or the exception. *)
Definition shots_in (r : result Summary) : result (list (value * value)) :=
  match r with
  | Ok s => Ok (shot_distribution s)
  | Raise e => Raise e
  end.

(** *** The quantities the analytics are about *)

(** The player is one of the two sides of the match. *)
Definition plays_in (p : ObjectId) (m : document) : bool :=
  has_oid "player_a_id" p m || has_oid "player_b_id" p m.

Definition matches_of (db : Database) (p : ObjectId) : list document :=
  List.filter (plays_in p) (collection db "match").

(** The point belongs to one of the matches. *)
Definition point_in (ms : list document) (pt : document) : bool :=
  existsb (fun m => match oid_field "_id" m with
                    | Some i => has_oid "match_id" i pt
                    | None => false
                    end) ms.

(** The points of the matches the player took part in. *)
Definition points_of (db : Database) (p : ObjectId) : list document :=
  List.filter (point_in (matches_of db p)) (collection db "point").

Definition scored_by (p : ObjectId) (pt : document) : bool := has_oid "scorer_id" p pt.

Definition rally_of (pt : document) : Q :=
  match int_field "rally_length" pt with
  | Some z => inject_Z z
  | None => 0%Q
  end.

(** The mean rally length of a list of points, null for no point. *)
Definition avg_rally_of (pts : list document) : value :=
  match pts with
  | [] => VNull
  | _ => VFloat (mean (map rally_of pts))
  end.

(** The shot that won the point, when the point records one. *)
Definition shot_of (pt : document) : option string :=
  match doc_lookup "winner_shot" pt with
  | Some (VStr s) => Some s
  | _ => None
  end.

(** The point records a shot: a non-empty string. *)
Definition records_shot (d : document) : Prop :=
  exists s, doc_lookup "winner_shot" d = Some (VStr s) /\ s <> "".

Definition has_shot_field (pt : document) : bool :=
  bool_decide (is_Some (doc_lookup "winner_shot" pt)).

Definition won_with (w : string) (pt : document) : bool :=
  match shot_of pt with
  | Some s => String.eqb s w
  | None => false
  end.

(** The points the player won, in the matches the player took part in,
    that record a winning shot; and how many of them record the shot [w]. *)
Definition shots_of (db : Database) (p : ObjectId) : list document :=
  List.filter has_shot_field (List.filter (scored_by p) (points_of db p)).

Definition shot_count (db : Database) (p : ObjectId) (w : string) : Z :=
  Z.of_nat (List.length (List.filter (won_with w)
                           (List.filter (scored_by p) (points_of db p)))).

(** The rows of the shot pipeline, as pairs of a shot and its count. *)
Definition shot_row (wn : string * Z) : document :=
  [("_id", VStr (fst wn)); ("count", VInt (snd wn))].

Definition shot_names (pts : list document) : list string :=
  nub_by String.eqb (omap shot_of pts).

Definition shot_pairs (pts : list document) : list (string * Z) :=
  map (fun w => (w, Z.of_nat (List.length (List.filter (won_with w) pts))))
      (shot_names pts).

Definition shot_row_le (x y : string * Z) : bool :=
  doc_le [("count", -1)] (shot_row x) (shot_row y).

Definition str_key (kv : string * value) : value * value := (VStr (fst kv), snd kv).

(** The shot distribution of a player with at least one match: the shots
    of [shots_of] with their counts, entered by decreasing count. *)
Definition shot_distribution_of (db : Database) (p : ObjectId) : list (value * value) :=
  map str_key
      (fold_left (fun acc wn => doc_set (fst wn) (VInt (snd wn)) acc)
                 (sort_by shot_row_le (shot_pairs (shots_of db p))) []).

(** The count a shot distribution gives for a shot, 0 when the shot is not
    among its keys. *)
Definition dist_count (sd : list (value * value)) (w : string) : Z :=
  match dict_lookup py_eqb (VStr w) sd with
  | Some (VInt n) => n
  | _ => 0
  end.

(** The scorers of the stored points, each once, and the points each of
    them scored. *)
Definition scorers (db : Database) : list ObjectId :=
  nub_by bytes_eqb (omap (oid_field "scorer_id") (collection db "point")).

Definition points_by (db : Database) (s : ObjectId) : list document :=
  List.filter (scored_by s) (collection db "point").

(** The number of points won that a leaderboard row shows. *)
Definition won_of (row : document) : Z :=
  match int_field "points_won" row with
  | Some n => n
  | None => 0
  end.

(** The name of the player with the given identifier: the [name] field of
    the first such document of the collection, when there is one. *)
Definition player_name (db : Database) (p : ObjectId) : option value :=
  match List.filter (has_oid "_id" p) (collection db "player") with
  | d :: _ => doc_lookup "name" d
  | [] => None
  end.

(** *** The order of the recent matches *)

(** The start of a match, when it has one, and its identifier. *)
Definition started_of (m : document) : option Z :=
  match doc_lookup "started_at" m with
  | Some (VDate t) => Some t
  | _ => None
  end.

Definition id_of (m : document) : ObjectId := default [] (oid_field "_id" m).

(** [a] is a later start than [b]; a match that has a start is later than
    one that has none. *)
Definition later (a b : option Z) : Prop :=
  match a, b with
  | Some x, Some y => y < x
  | Some _, None => True
  | None, _ => False
  end.

Definition oid_ge (a b : ObjectId) : Prop := bytes_compare a b <> Lt.

(** [m1] comes before [m2] among the recent matches: it started later, or
    at the same time and its identifier is the greater one. *)
Definition recent_first (m1 m2 : document) : Prop :=
  later (started_of m1) (started_of m2) \/
  (started_of m1 = started_of m2 /\ oid_ge (id_of m1) (id_of m2)).

Definition recent_keys : list (string * Z) := [("started_at", -1); ("_id", -1)].

(** The projection of the recent-matches pipeline. *)
Definition recent_spec : list (string * projection) :=
  [("player_a", P_expr (E_field ["player_a"; "name"]));
   ("player_b", P_expr (E_field ["player_b"; "name"]));
   ("location", P_include);
   ("level", P_include);
   ("started_at", P_include);
   ("completed_at", P_include)].

(** [d[k] = v] when there is a value, nothing otherwise. *)
Definition set_opt (k : string) (o : option value) (d : document) : document :=
  match o with
  | Some v => doc_set k v d
  | None => d
  end.

(** What [$unwind] with [preserveNullAndEmptyArrays] leaves of a field
    that held the list [j] of at most one joined document. *)
Definition unwound (path : string) (j : list document) (d : document) : document :=
  match j with
  | [] => doc_remove path d
  | pd :: _ => doc_set path (VDoc pd) d
  end.

(** The players that [$lookup] joins to a match through the field [k]. *)
Definition joined_at (db : Database) (k : string) (m : document) : list document :=
  List.filter (has_oid "_id" (default [] (oid_field k m))) (collection db "player").

(** The row of a match as the pipeline of [recent_matches] leaves it. *)
Definition recent_projected (db : Database) (m : document) : document :=
  let ja := joined_at db "player_a_id" m in
  let jb := joined_at db "player_b_id" m in
  let d := unwound "player_b" jb
             (unwound "player_a" ja
                (doc_set "player_b" (VArr (map VDoc jb))
                   (doc_set "player_a" (VArr (map VDoc ja)) m))) in
  set_opt "player_b" (get_path ["player_b"; "name"] (VDoc d))
    (set_opt "player_a" (get_path ["player_a"; "name"] (VDoc d))
       (List.filter (fun kv => included recent_spec (fst kv)) d)).

(** The name of the player a field of the match refers to. *)
Definition name_at (db : Database) (k : string) (m : document) : option value :=
  match oid_field k m with
  | Some p => player_name db p
  | None => None
  end.

(** [r] is the row of the match [m] in the answer of [recent_matches]: it
    has the identifier of the match as text under [id] and no [_id], the
    names of the two players where they resolve, and the location, level
    and times of the match. *)
Record is_row_of (rt : Runtime) (db : Database) (m r : document) : Prop := {
  row_id : doc_lookup "id" r = Some (VStr (str_ObjectId (id_of m)));
  row_no_id : doc_lookup "_id" r = None;
  row_player_a : doc_lookup "player_a" r = stringify rt <$> name_at db "player_a_id" m;
  row_player_b : doc_lookup "player_b" r = stringify rt <$> name_at db "player_b_id" m;
  row_location : doc_lookup "location" r = stringify rt <$> doc_lookup "location" m;
  row_level : doc_lookup "level" r = stringify rt <$> doc_lookup "level" m;
  row_started_at : doc_lookup "started_at" r = doc_lookup "started_at" m;
  row_completed_at :
    doc_lookup "completed_at" r = stringify rt <$> doc_lookup "completed_at" m;
}.

(** The projection of the leaderboard pipeline. *)
Definition board_spec : list (string * projection) :=
  [("player_id", P_expr (E_toString (E_field ["_id"])));
   ("name", P_expr (E_field ["player"; "name"]));
   ("points_won", P_include);
   ("avg_rally", P_include)].

(** The leaderboard row of a scorer: the scorer, the number of points the
    scorer won, their mean rally length, the scorer's identifier as text,
    and the scorer's name when a player has that identifier. *)
Definition board_row (db : Database) (s : ObjectId) : document :=
  ([("_id", VOid s);
   ("points_won", VInt (Z.of_nat (List.length (points_by db s))));
   ("avg_rally", avg_rally_of (points_by db s));
   ("player_id", VStr (str_ObjectId s))]
  ++ match player_name db s with
     | Some n => [("name", n)]
     | None => []
     end)%list.

(** *** Pipelines without [$toString]

    An expression that is a field path or a literal has a value that does
    not depend on the runtime and cannot fail; so has a [$group] stage made
    of such expressions. *)
Definition is_simple (e : expr) : bool :=
  match e with E_toString _ => false | _ => true end.

Definition simple_value (e : expr) (d : document) : option value :=
  match e with
  | E_field p => get_path p (VDoc d)
  | E_const v => Some v
  | E_toString _ => None
  end.

Definition simple_key (e : expr) (d : document) : value :=
  default VNull (simple_value e d).

Definition acc_simple (a : accumulator) : bool :=
  match a with A_sum e | A_avg e => is_simple e end.

Definition acc_value (a : accumulator) (ds : list document) : value :=
  match a with
  | A_sum e => sum_values (omap (simple_value e) ds)
  | A_avg e => avg_values (omap (simple_value e) ds)
  end.

Definition group_rows (id : expr) (accs : list (string * accumulator))
    (ds : list document) : list document :=
  map (fun k =>
         ("_id", k) ::
         map (fun na => (fst na,
                         acc_value (snd na)
                           (List.filter (fun d => mongo_eqb (simple_key id d) k) ds)))
             accs)
      (nub_by mongo_eqb (map (simple_key id) ds)).

(** *** Request bodies

    What a request body gives for the two optional fields of a player:
    nothing (the field is absent or null) or a value the model accepts. *)
Inductive rating_given (d : document) : option Q -> Prop :=
  | rating_absent :
      doc_lookup "rating" d = None -> rating_given d None
  | rating_null :
      doc_lookup "rating" d = Some VNull -> rating_given d None
  | rating_float (q : Q) :
      doc_lookup "rating" d = Some (VFloat q) -> (0 <= q)%Q -> (q <= 6)%Q ->
      rating_given d (Some q)
  | rating_int (z : Z) :
      doc_lookup "rating" d = Some (VInt z) -> 0 <= z <= 6 ->
      rating_given d (Some (inject_Z z)).

Inductive handedness_given (d : document) : option Handedness -> Prop :=
  | handedness_absent :
      doc_lookup "handedness" d = None -> handedness_given d None
  | handedness_null :
      doc_lookup "handedness" d = Some VNull -> handedness_given d None
  | handedness_literal (h : Handedness) :
      doc_lookup "handedness" d = Some (VStr (Handedness_str h)) ->
      handedness_given d (Some h).

(* ===================================================================== *)
(** ** Sample data *)
(* ===================================================================== *)

(** A runtime to run the handlers with; the examples do not depend on it. *)
Definition sample_rt : Runtime :=
  {| py_str_other := fun _ => ""; mongo_toString_other := fun _ => "";
     lax_float := fun _ => None |}.

(** The 24-digit text and the twelve bytes of a small identifier. *)
Definition id_text (n : N) : string :=
  "0000000000000000000000" ++ String (hex_char (n / 16)) (String (hex_char (n mod 16)) "").
Definition id_bytes (n : N) : ObjectId := [0; 0; 0; 0; 0; 0; 0; 0; 0; 0; 0; n]%N.

(** The database after a successful write. *)
Definition after (r : result (document * Database)) : Database :=
  match r with Ok (_, db') => db' | Raise _ => ∅ end.

Definition mk_player (n : string) : Player.t :=
  {| Player.name := n; Player.rating := None; Player.handedness := None |}.

Definition mk_match (a b : N) (t : option Z) : Match.t :=
  {| Match.player_a_id := id_text a; Match.player_b_id := id_text b;
     Match.location := None; Match.level := None;
     Match.started_at := t; Match.completed_at := None |}.

Definition mk_point (m s : N) (r : Z) (w : option Shot) : Point.t :=
  {| Point.match_id := id_text m; Point.scorer_id := id_text s;
     Point.rally_length := r; Point.winner_shot := w;
     Point.unforced_error := false; Point.notes := None |}.

Fixpoint add_players (db : Database) (ps : list (N * string)) : Database :=
  match ps with
  | [] => db
  | (i, n) :: ps' => add_players (after (create_player (Some db) (id_bytes i) (mk_player n))) ps'
  end.

Fixpoint add_matches (db : Database) (ms : list (N * Match.t)) : Database :=
  match ms with
  | [] => db
  | (i, m) :: ms' => add_matches (after (create_match (Some db) (id_bytes i) m)) ms'
  end.

Fixpoint add_points (db : Database) (ps : list (N * Point.t)) : Database :=
  match ps with
  | [] => db
  | (i, p) :: ps' => add_points (after (create_point (Some db) (id_bytes i) p)) ps'
  end.

(** Three players; three matches between players 1 and 2, which started
    at times 100 < 200 < 300; player 3 has played no match. *)
Definition sample_db0 : Database :=
  add_matches (add_players ∅ [(1%N, "ann"); (2%N, "bob"); (3%N, "cy")])
    [(11%N, mk_match 1 2 (Some 100)); (12%N, mk_match 2 1 (Some 200));
     (13%N, mk_match 1 2 (Some 300))].

(** ... and eight points in match 11: three for player 1, five for player 2. *)
Definition sample_db : Database :=
  add_points sample_db0
    [(21%N, mk_point 11 1 4 (Some dink)); (22%N, mk_point 11 2 6 None);
     (23%N, mk_point 11 2 3 (Some smash)); (24%N, mk_point 11 1 9 None);
     (25%N, mk_point 11 2 5 (Some dink)); (26%N, mk_point 11 2 2 (Some lob));
     (27%N, mk_point 11 1 7 (Some drive)); (28%N, mk_point 11 2 12 None)].

(** A dictionary as [list_players] passes it to [to_serializable], with a
    second field that holds an ObjectId. *)
Definition sample_player : document :=
  [("_id", VOid (id_bytes 1)); ("name", VStr "ann"); ("friend", VOid (id_bytes 2))].

(** A point for match 11 with the shot "dink": scored by player 1, who
    plays in that match; and scored in a match that is not stored. *)
Definition dink_point : Point.t := mk_point 11 1 5 (Some dink).
Definition stray_dink_point : Point.t := mk_point 99 1 5 (Some dink).

Definition bad_match : Match.t :=
  {| Match.player_a_id := "not-an-id"; Match.player_b_id := "507f1f77bcf86cd799439011";
     Match.location := None; Match.level := None;
     Match.started_at := None; Match.completed_at := None |}.

Definition bad_point : Point.t :=
  {| Point.match_id := "507f1f77bcf86cd799439011"; Point.scorer_id := "xyz";
     Point.rally_length := 7; Point.winner_shot := None;
     Point.unforced_error := false; Point.notes := None |}.

(* ===================================================================== *)
(** ** Further definitions *)
(* ===================================================================== *)

(** The bytes of an ObjectId that the driver made: twelve of them. *)
Definition is_byte (b : N) : bool := (b <? 256)%N.

Definition twelve_bytes (o : ObjectId) : bool :=
  Nat.eqb (List.length o) 12 && forallb is_byte o.

(** A dictionary that has an [id] of its own before its [_id]. *)
Definition sample_with_id : document :=
  [("id", VInt 7); ("name", VStr "ann"); ("_id", VOid (id_bytes 1))].

(** The unique index of a collection already holds the identifier. *)
Definition id_in_use (db : Database) (name : string) (i : ObjectId) : bool :=
  existsb (fun d => mongo_eqb (doc_get "_id" d) (VOid i)) (collection db name).

(** The document that [create_match] stores for a match, once its two
    references have been decoded. *)
Definition match_doc (new_id a b : ObjectId) (m : Match.t) : document :=
  [("_id", VOid new_id); ("player_a_id", VOid a); ("player_b_id", VOid b);
   ("location", opt_value VStr (Match.location m));
   ("level", opt_value VStr (Match.level m));
   ("started_at", opt_value VDate (Match.started_at m));
   ("completed_at", opt_value VDate (Match.completed_at m))].

(** The summary of a player on a database that satisfies the invariant. *)
Definition summary_of (db : Database) (q : ObjectId) : Summary :=
  match matches_of db q with
  | [] =>
      {| player := default VNull (player_name db q);
         totals := {| points_won := 0; points_lost := 0; avg_rally := VNull |};
         shot_distribution := [];
         matches := 0 |}
  | _ =>
      {| player := default VNull (player_name db q);
         totals :=
           {| points_won :=
                Z.of_nat (List.length (List.filter (scored_by q) (points_of db q)));
              points_lost :=
                Z.of_nat (List.length (List.filter (fun pt => negb (scored_by q pt))
                                                   (points_of db q)));
              avg_rally := avg_rally_of (points_of db q) |};
         shot_distribution := shot_distribution_of db q;
         matches := Z.of_nat (List.length (matches_of db q)) |}
  end.

(** The points won that the rows of a leaderboard show, taken together. *)
Definition total_won (rows : list document) : Z :=
  fold_right Z.add 0 (map won_of rows).

(** The keys a row of [recent_matches] can have. *)
Definition recent_row_keys : list string :=
  ["id"; "player_a"; "player_b"; "location"; "level"; "started_at"; "completed_at"].

(** *** Validation of the bodies of matches and points

    What pydantic's lax mode makes of a value that does not have the type
    of the field: the library's conversions, taken as given. *)
Record Coercions : Type := {
  lax_int : value -> option Z;
  lax_bool : value -> option bool;
  lax_datetime : value -> option Z;
}.

(** [k: str = Field(...)]: required, a string. *)
Definition validate_str (k : string) (d : document) : option string :=
  match doc_lookup k d with
  | Some (VStr s) => Some s
  | _ => None
  end.

(** [k: Optional[str] = Field(None)] *)
Definition validate_opt_str (k : string) (d : document) : option (option string) :=
  match doc_lookup k d with
  | None | Some VNull => Some None
  | Some (VStr s) => Some (Some s)
  | Some _ => None
  end.

(** [k: Optional[datetime] = Field(default=None)] *)
Definition validate_opt_datetime (co : Coercions) (k : string) (d : document)
    : option (option Z) :=
  match doc_lookup k d with
  | None | Some VNull => Some None
  | Some (VDate t) => Some (Some t)
  | Some v => option_map Some (lax_datetime co v)
  end.

Definition shots : list Shot := [serve; return_; drive; drop; dink; lob; volley; smash; other].

(** The member of the [Literal] of [winner_shot] that a string names. *)
Definition Shot_of_str (s : string) : option Shot :=
  List.find (fun w => String.eqb s (Shot_str w)) shots.

Module MatchCreate.
Section Validation.
Context (co : Coercions).

Definition validate (body : value) : result Match.t :=
  match body with
  | VDoc d =>
      match validate_str "player_a_id" d, validate_str "player_b_id" d,
            validate_opt_str "location" d, validate_opt_str "level" d,
            validate_opt_datetime co "started_at" d,
            validate_opt_datetime co "completed_at" d with
      | Some a, Some b, Some lo, Some le, Some st, Some en =>
          Ok {| Match.player_a_id := a; Match.player_b_id := b;
                Match.location := lo; Match.level := le;
                Match.started_at := st; Match.completed_at := en |}
      | a, b, lo, le, st, en =>
          Raise (RequestValidationError
                   (Player.missing "player_a_id" a ++ Player.missing "player_b_id" b ++
                    Player.missing "location" lo ++ Player.missing "level" le ++
                    Player.missing "started_at" st ++ Player.missing "completed_at" en)%list)
      end
  | _ => Raise (RequestValidationError ["body"])
  end.
End Validation.
End MatchCreate.

Module PointCreate.
Section Validation.
Context (co : Coercions).

(** [rally_length: int = Field(..., ge=1, le=100)] *)
Definition validate_rally_length (d : document) : option Z :=
  match doc_lookup "rally_length" d with
  | None => None
  | Some v =>
      let n := match v with
               | VInt z => Some z
               | _ => lax_int co v
               end in
      match n with
      | Some z => if (1 <=? z) && (z <=? 100) then Some z else None
      | None => None
      end
  end.

(** [winner_shot: Optional[Literal["serve", ..., "other"]] = Field(None)] *)
Definition validate_winner_shot (d : document) : option (option Shot) :=
  match doc_lookup "winner_shot" d with
  | None | Some VNull => Some None
  | Some (VStr s) => option_map Some (Shot_of_str s)
  | Some _ => None
  end.

(** [unforced_error: bool = Field(False)] *)
Definition validate_unforced_error (d : document) : option bool :=
  match doc_lookup "unforced_error" d with
  | None => Some false
  | Some (VBool b) => Some b
  | Some v => lax_bool co v
  end.

Definition validate (body : value) : result Point.t :=
  match body with
  | VDoc d =>
      match validate_str "match_id" d, validate_str "scorer_id" d,
            validate_rally_length d, validate_winner_shot d,
            validate_unforced_error d, validate_opt_str "notes" d with
      | Some m, Some s, Some n, Some w, Some u, Some t =>
          Ok {| Point.match_id := m; Point.scorer_id := s; Point.rally_length := n;
                Point.winner_shot := w; Point.unforced_error := u; Point.notes := t |}
      | m, s, n, w, u, t =>
          Raise (RequestValidationError
                   (Player.missing "match_id" m ++ Player.missing "scorer_id" s ++
                    Player.missing "rally_length" n ++ Player.missing "winner_shot" w ++
                    Player.missing "unforced_error" u ++ Player.missing "notes" t)%list)
      end
  | _ => Raise (RequestValidationError ["body"])
  end.
End Validation.
End PointCreate.

Definition sample_co : Coercions :=
  {| lax_int := fun _ => None; lax_bool := fun _ => None; lax_datetime := fun _ => None |}.

Definition point_body (m s : string) (n : Z) : value :=
  VDoc [("match_id", VStr m); ("scorer_id", VStr s); ("rally_length", VInt n)].

(** Every stored point has a rally length from 1 to 100. *)
Definition rally_in_range (d : document) : bool :=
  match int_field "rally_length" d with
  | Some n => (1 <=? n) && (n <=? 100)
  | None => false
  end.

Definition rallies_in_range (db : Database) : Prop :=
  Forall (fun d => rally_in_range d = true) (collection db "point").

Definition match_body (a b : string) : value :=
  VDoc [("player_a_id", VStr a); ("player_b_id", VStr b)].

(** The row of the latest of the sample matches. *)
Definition sample_recent_row : document :=
  [("location", VNull); ("level", VNull); ("started_at", VDate 300);
   ("completed_at", VNull); ("player_a", VStr "ann"); ("player_b", VStr "bob");
   ("id", VStr (id_text 13))].

(* ===================================================================== *)
(** * Properties *)
(* ===================================================================== *)

Open Scope list_scope.

(** ** The identifier codec *)

Lemma hex_char_digit_value (c : ascii) :
  is_hex_digit c = true -> hex_char (digit_value c) = ascii_lower c.
Proof.
  destruct c as [[] [] [] [] [] [] [] []]; vm_compute; intros H;
    first [reflexivity | discriminate H].
Qed.

Lemma digit_value_lt (c : ascii) : is_hex_digit c = true -> (digit_value c < 16)%N.
Proof. unfold is_hex_digit. intros H. by apply N.ltb_lt. Qed.

Lemma hexlify_byte (c d : ascii) :
  is_hex_digit c = true -> is_hex_digit d = true ->
  hex_char ((16 * digit_value c + digit_value d) / 16) = ascii_lower c /\
  hex_char ((16 * digit_value c + digit_value d) mod 16) = ascii_lower d.
Proof.
  intros Hc Hd.
  pose proof (digit_value_lt _ Hc) as Lc. pose proof (digit_value_lt _ Hd) as Ld.
  assert (E1 : ((16 * digit_value c + digit_value d) / 16 = digit_value c)%N).
  { symmetry. apply (N.div_unique _ 16 _ (digit_value d)); [done | lia]. }
  assert (E2 : ((16 * digit_value c + digit_value d) mod 16 = digit_value d)%N).
  { symmetry. apply (N.mod_unique _ 16 (digit_value c)); [done | lia]. }
  rewrite E1, E2. split; by apply hex_char_digit_value.
Qed.

Lemma hex_digit_not_space (c : ascii) : is_hex_digit c = true -> is_space c = false.
Proof.
  destruct c as [[] [] [] [] [] [] [] []]; vm_compute; intros H;
    first [reflexivity | discriminate H].
Qed.

Lemma lower_hex_fixed (c : ascii) :
  Ascii.eqb c (ascii_lower c) = true -> ascii_lower c = c.
Proof. intros H. apply Ascii.eqb_eq in H. by rewrite <- H. Qed.

Lemma fromhex_all_hex (n : nat) :
  forall s, String.length s = (2 * n)%nat -> all_hex s = true ->
    exists bs, fromhex s = Some bs /\ hexlify bs = string_lower s /\ List.length bs = n.
Proof.
  induction n as [|n IH]; intros s Hlen Hhex.
  - destruct s; [|discriminate]. exists []. by repeat split.
  - destruct s as [|c [|d s]]; simpl in Hlen; try lia.
    unfold all_hex in Hhex. simpl in Hhex.
    apply andb_prop in Hhex as [Hc Hhex]. apply andb_prop in Hhex as [Hd Hhex].
    destruct (IH s ltac:(lia) Hhex) as (bs & Hbs & Hstr & Hl).
    exists ((16 * digit_value c + digit_value d)%N :: bs).
    simpl. rewrite (hex_digit_not_space _ Hc), Hc, Hd, Hbs. simpl.
    destruct (hexlify_byte c d Hc Hd) as [-> ->].
    rewrite Hstr, Hl. by repeat split.
Qed.

Lemma string_lower_fixed (s : string) : all_lower_hex s = true -> string_lower s = s.
Proof.
  induction s as [|c s IH]; [done|]. unfold all_lower_hex. simpl.
  intros H. apply andb_prop in H as [Hc Hs]. apply andb_prop in Hc as [_ Hc].
  rewrite (lower_hex_fixed _ Hc). f_equal. by apply IH.
Qed.

Lemma all_lower_hex_all_hex (s : string) : all_lower_hex s = true -> all_hex s = true.
Proof.
  induction s as [|c s IH]; [done|]. unfold all_lower_hex, all_hex. simpl.
  intros H. apply andb_prop in H as [Hc Hs]. apply andb_prop in Hc as [Hc _].
  rewrite Hc. by apply IH.
Qed.

Lemma fromhex_bad_char_upto (n : nat) :
  forall s, (String.length s <= n)%nat ->
    string_existsb (fun c => negb (is_hex_digit c) && negb (is_space c)) s = true ->
    fromhex s = None.
Proof.
  induction n as [|n IH]; intros s Hlen Hbad.
  - destruct s; [discriminate | simpl in Hlen; lia].
  - destruct s as [|c s]; [discriminate|]. simpl in Hlen, Hbad |- *.
    destruct (is_space c) eqn:Hsp.
    + rewrite andb_false_r in Hbad. simpl in Hbad. apply IH; [lia | done].
    + destruct s as [|d s]; [done|].
      destruct (is_hex_digit c) eqn:Hc; simpl; [|done].
      destruct (is_hex_digit d) eqn:Hd; simpl; [|done].
      simpl in Hbad. rewrite Hd in Hbad. simpl in Hbad.
      rewrite (IH s); [done | simpl in Hlen; lia | done].
Qed.

(** C6 (as amended).  A string of exactly 24 hexadecimal digits decodes, to
    12 bytes, and re-encodes to its lower-case form, so that decoding and
    re-encoding is the identity on the strings of 24 lower-case digits; a
    string whose length is not 24, or that holds a character that is neither
    a hexadecimal digit nor ASCII whitespace, is refused with the 400
    [HTTPException] "Invalid ObjectId format". *)
Theorem oid_decode_reencode :
  (forall s, String.length s = 24%nat -> all_hex s = true ->
     exists o, oid s = Ok o /\ List.length o = 12%nat /\
               str_ObjectId o = string_lower s) /\
  (forall s, String.length s = 24%nat -> all_lower_hex s = true ->
     exists o, oid s = Ok o /\ str_ObjectId o = s) /\
  (forall s, String.length s <> 24%nat ->
     oid s = Raise (HTTPException 400 "Invalid ObjectId format")) /\
  (forall s, string_existsb (fun c => negb (is_hex_digit c) && negb (is_space c)) s = true ->
     oid s = Raise (HTTPException 400 "Invalid ObjectId format")).
Proof.
  assert (A : forall s, String.length s = 24%nat -> all_hex s = true ->
     exists o, oid s = Ok o /\ List.length o = 12%nat /\
               str_ObjectId o = string_lower s).
  { intros s Hlen Hhex.
    destruct (fromhex_all_hex 12 s Hlen Hhex) as (bs & Hbs & Hstr & Hl).
    exists bs. unfold oid, ObjectId_of_str. rewrite Hlen. simpl. rewrite Hbs.
    by repeat split. }
  split; [exact A|]. split; [|split].
  - intros s Hlen Hlow.
    destruct (A s Hlen (all_lower_hex_all_hex _ Hlow)) as (o & Ho & _ & Hs).
    exists o. split; [done|]. by rewrite Hs, string_lower_fixed.
  - intros s Hlen. unfold oid, ObjectId_of_str.
    destruct (Nat.eqb_spec (String.length s) 24); [done|done].
  - intros s Hbad. unfold oid, ObjectId_of_str.
    destruct (Nat.eqb (String.length s) 24); [|done].
    by rewrite (fromhex_bad_char_upto (String.length s) s).
Qed.

Lemma oid_decode_reencode_witness :
  (exists o, oid "507f1f77bcf86cd799439011" = Ok o /\ List.length o = 12%nat /\
             str_ObjectId o = string_lower "507f1f77bcf86cd799439011") /\
  (exists o, oid "507f1f77bcf86cd799439011" = Ok o /\
             str_ObjectId o = "507f1f77bcf86cd799439011") /\
  oid "507f" = Raise (HTTPException 400 "Invalid ObjectId format") /\
  oid "507f1f77bcf86cd79943901z" = Raise (HTTPException 400 "Invalid ObjectId format").
Proof.
  destruct oid_decode_reencode as (H1 & H2 & H3 & H4).
  split; [apply H1; reflexivity|]. split; [apply H2; reflexivity|].
  split; [apply H3; simpl; lia | apply H4; reflexivity].
Defined.

(** C6, as the specification words it, fails: a string of 24 upper-case
    hexadecimal digits decodes, and re-encoding gives another string. *)
Lemma oid_uppercase_not_identity :
  exists o, oid "507F1F77BCF86CD799439011" = Ok o /\
            str_ObjectId o = "507f1f77bcf86cd799439011" /\
            str_ObjectId o <> "507F1F77BCF86CD799439011".
Proof.
  eexists. split; [reflexivity|]. split; [reflexivity|]. discriminate.
Qed.

(** ** The database guard *)

(** C7.  With no database configured, each of the seven handlers that use
    the database ends with the [HTTPException] of status 500 and detail
    "Database not configured", whatever its other arguments; it returns
    no response and no new state of the database. *)
Theorem no_database_is_500 (rt : Runtime) :
  let e := HTTPException 500 "Database not configured" in
  (forall new_id player, create_player None new_id player = Raise e) /\
  list_players rt None = Raise e /\
  (forall new_id match_, create_match None new_id match_ = Raise e) /\
  (forall limit : option Z, recent_matches rt None limit = Raise e) /\
  (forall new_id point, create_point None new_id point = Raise e) /\
  (forall limit : option Z, leaderboard rt None limit = Raise e) /\
  (forall player_id, player_analytics rt None player_id = Raise e).
Proof. repeat split. Qed.

(** C10.  In [create_match] and [create_point] the database guard comes
    before the identifiers are decoded: with no database configured the
    handler ends with status 500 and "Database not configured" for every
    request, also one whose identifiers do not decode, so that status 400
    cannot occur; with a database, the same request ends with status 400. *)
Theorem guard_precedes_decoding :
  (forall new_id match_,
     create_match None new_id match_ = Raise (HTTPException 500 "Database not configured") /\
     status_of (create_match None new_id match_) <> 400) /\
  (forall new_id point,
     create_point None new_id point = Raise (HTTPException 500 "Database not configured") /\
     status_of (create_point None new_id point) <> 400) /\
  (forall db new_id match_,
     is_Ok (oid (Match.player_a_id match_)) = false \/
     is_Ok (oid (Match.player_b_id match_)) = false ->
     status_of (create_match (Some db) new_id match_) = 400) /\
  (forall db new_id point,
     is_Ok (oid (Point.match_id point)) = false \/
     is_Ok (oid (Point.scorer_id point)) = false ->
     status_of (create_point (Some db) new_id point) = 400).
Proof.
  split; [by intros; split|]. split; [by intros; split|]. split.
  - intros db new_id m H. unfold create_match. simpl.
    unfold oid in *. destruct (ObjectId_of_str (Match.player_a_id m)); simpl in *.
    + destruct H as [H|H]; [done|].
      destruct (ObjectId_of_str (Match.player_b_id m)); simpl in *; done.
    + done.
  - intros db new_id p H. unfold create_point. simpl.
    unfold oid in *. destruct (ObjectId_of_str (Point.match_id p)); simpl in *.
    + destruct H as [H|H]; [done|].
      destruct (ObjectId_of_str (Point.scorer_id p)); simpl in *; done.
    + done.
Qed.

Lemma guard_precedes_decoding_witness :
  status_of (create_match None [] bad_match) <> 400 /\
  status_of (create_point None [] bad_point) <> 400 /\
  status_of (create_match (Some ∅) [] bad_match) = 400 /\
  status_of (create_point (Some ∅) [] bad_point) = 400.
Proof.
  destruct guard_precedes_decoding as (H1 & H2 & H3 & H4).
  split; [apply H1|]. split; [apply H2|].
  split; [apply H3; left; reflexivity | apply H4; right; reflexivity].
Defined.

(** ** ObjectIds in fields *)

Lemma bytes_compare_eq (a b : list N) : bytes_compare a b = Eq <-> a = b.
Proof.
  revert b. induction a as [|x a IH]; intros [|y b]; simpl; try done.
  destruct (N.compare_spec x y) as [->|H|H].
  - rewrite IH. split; [by intros -> | by intros [=]].
  - split; [done | intros [=]; lia].
  - split; [done | intros [=]; lia].
Qed.

Lemma bytes_eqb_eq (a b : list N) : bytes_eqb a b = true <-> a = b.
Proof.
  unfold bytes_eqb. rewrite <- bytes_compare_eq.
  destruct (bytes_compare a b); split; done.
Qed.

Lemma bytes_eqb_refl (a : list N) : bytes_eqb a a = true.
Proof. by apply bytes_eqb_eq. Qed.

Lemma bytes_eqb_neq (a b : list N) : bytes_eqb a b = false <-> a <> b.
Proof.
  rewrite <- bytes_eqb_eq. destruct (bytes_eqb a b); split; done.
Qed.

Lemma bytes_eqb_sym (a b : list N) : bytes_eqb a b = bytes_eqb b a.
Proof.
  destruct (bytes_eqb b a) eqn:E.
  - apply bytes_eqb_eq in E as ->. apply bytes_eqb_refl.
  - apply bytes_eqb_neq in E. apply bytes_eqb_neq. congruence.
Qed.

Lemma has_oid_true (k : string) (p : ObjectId) (d : document) :
  has_oid k p d = true <-> oid_field k d = Some p.
Proof.
  unfold has_oid. destruct (oid_field k d) as [o|]; [|split; done].
  rewrite bytes_eqb_eq. split; [by intros -> | by intros [=]].
Qed.

Lemma has_oid_false (k : string) (p : ObjectId) (d : document) :
  has_oid k p d = false <-> oid_field k d <> Some p.
Proof.
  rewrite <- has_oid_true. destruct (has_oid k p d); split; done.
Qed.

Lemma oid_field_lookup (k : string) (d : document) (o : ObjectId) :
  oid_field k d = Some o <-> doc_lookup k d = Some (VOid o).
Proof.
  unfold oid_field. destruct (doc_lookup k d) as [[]|]; split; intros [=]; by subst.
Qed.

(** On a field that holds an ObjectId, the query [{k: p}] tests equality. *)
Lemma field_equals_oid (k : string) (p : ObjectId) (d : document) :
  is_Some (oid_field k d) ->
  field_equals (doc_lookup k d) (VOid p) = has_oid k p d.
Proof.
  intros [o Ho]. unfold has_oid. rewrite Ho.
  apply oid_field_lookup in Ho. by rewrite Ho.
Qed.

Lemma filter_ext_Forall {A : Type} (f g : A -> bool) (l : list A) :
  Forall (fun x => f x = g x) l -> List.filter f l = List.filter g l.
Proof.
  induction 1 as [|x l Hx _ IH]; [done|]. simpl. by rewrite Hx, IH.
Qed.

(** In a list whose keys are pairwise distinct, at most one element has a
    given key. *)
Lemma filter_unique_key {A : Type} (key : A -> option ObjectId)
    (p : ObjectId) (l : list A) (x : A) :
  NoDup (map key l) -> x ∈ l -> key x = Some p ->
  List.filter (fun y => match key y with Some o => bytes_eqb o p | None => false end) l = [x].
Proof.
  induction l as [|y l IH]; intros Hnd Hin Hx; [by apply elem_of_nil in Hin|].
  simpl in Hnd. apply NoDup_cons in Hnd as [Hy Hnd].
  assert (Hnone : forall z, key z <> Some p ->
            (match key z with Some o => bytes_eqb o p | None => false end) = false).
  { intros z Hz. destruct (key z) as [o|]; [|done].
    apply bytes_eqb_neq. congruence. }
  apply elem_of_cons in Hin as [->|Hin]; simpl.
  - rewrite Hx, bytes_eqb_refl. f_equal.
    rewrite (filter_ext_Forall _ (fun _ => false)).
    + clear. induction l; simpl; auto.
    + apply Forall_forall. intros z Hz. apply Hnone.
      intros Hk. apply Hy. rewrite Hx, <- Hk. by apply list_elem_of_fmap_2.
  - rewrite (Hnone y); [by apply IH |].
    intros Hk. apply Hy. rewrite Hk, <- Hx. by apply list_elem_of_fmap_2.
Qed.

Lemma filter_none {A : Type} (f : A -> bool) (l : list A) :
  Forall (fun x => f x = false) l -> List.filter f l = [].
Proof. induction 1 as [|x l Hx _ IH]; [done|]. simpl. by rewrite Hx. Qed.

(** ** The collections of a well-formed database *)

Section WellFormed.
Context (db : Database) (Hwf : wf_db db).

Lemma wf_match_fields (m : document) :
  m ∈ collection db "match" ->
  is_Some (oid_field "_id" m) /\ is_Some (oid_field "player_a_id" m) /\
  is_Some (oid_field "player_b_id" m).
Proof.
  intros Hin. pose proof (wf_matches db Hwf) as H.
  rewrite Forall_forall in H. specialize (H m Hin). unfold wf_match in H.
  repeat (apply andb_prop in H as [H ?]).
  repeat split; by eapply bool_decide_eq_true_1.
Qed.

Lemma wf_point_fields (pt : document) :
  pt ∈ collection db "point" ->
  is_Some (oid_field "_id" pt) /\ is_Some (oid_field "match_id" pt) /\
  is_Some (oid_field "scorer_id" pt) /\ is_Some (int_field "rally_length" pt).
Proof.
  intros Hin. pose proof (wf_points db Hwf) as H.
  rewrite Forall_forall in H. specialize (H pt Hin). unfold wf_point in H.
  repeat (apply andb_prop in H as [H ?]).
  repeat split; by eapply bool_decide_eq_true_1.
Qed.

Lemma wf_player_fields (d : document) :
  d ∈ collection db "player" -> is_Some (oid_field "_id" d).
Proof.
  intros Hin. pose proof (wf_players db Hwf) as H.
  rewrite Forall_forall in H. specialize (H d Hin). unfold wf_player in H.
  apply andb_prop in H as [_ H]. by eapply bool_decide_eq_true_1.
Qed.

Lemma wf_match_keys (m : document) :
  m ∈ collection db "match" -> NoDup (dict_keys m).
Proof.
  intros Hin. pose proof (wf_matches db Hwf) as H.
  rewrite Forall_forall in H. specialize (H m Hin). unfold wf_match in H.
  repeat (apply andb_prop in H as [H _]). by eapply bool_decide_eq_true_1.
Qed.

Lemma wf_match_started (m : document) :
  m ∈ collection db "match" ->
  doc_lookup "started_at" m = Some VNull \/
  exists t, doc_lookup "started_at" m = Some (VDate t).
Proof.
  intros Hin. pose proof (wf_matches db Hwf) as H.
  rewrite Forall_forall in H. specialize (H m Hin). unfold wf_match in H.
  apply andb_prop in H as [_ H].
  destruct (doc_lookup "started_at" m) as [[]|]; try done; [by left | right; by eexists].
Qed.

(** The query of [player_analytics] for the matches of a player. *)
Lemma find_matches_of (p : ObjectId) :
  find db "match" [Q_or [[Q_field "player_a_id" (C_eq (VOid p))];
                         [Q_field "player_b_id" (C_eq (VOid p))]]]
  = matches_of db p.
Proof.
  unfold find, matches_of. apply filter_ext_Forall, Forall_forall.
  intros m Hm. destruct (wf_match_fields m Hm) as (_ & Ha & Hb).
  unfold matches_query, plays_in. simpl.
  rewrite (field_equals_oid _ _ _ Ha), (field_equals_oid _ _ _ Hb).
  by rewrite !andb_true_r, orb_false_r.
Qed.

(** The query for the document of a player. *)
Lemma find_player (p : ObjectId) :
  find db "player" [Q_field "_id" (C_eq (VOid p))]
  = List.filter (has_oid "_id" p) (collection db "player").
Proof.
  unfold find. apply filter_ext_Forall, Forall_forall.
  intros d Hd. pose proof (wf_player_fields d Hd) as Hi.
  unfold matches_query. simpl.
  by rewrite (field_equals_oid _ _ _ Hi), andb_true_r.
Qed.

Lemma name_of_find_one (p : ObjectId) :
  name_of (find_one db "player" [Q_field "_id" (C_eq (VOid p))])
  = default VNull (player_name db p).
Proof.
  unfold find_one, player_name. rewrite find_player.
  destruct (List.filter (has_oid "_id" p) (collection db "player")) as [|d l] eqn:E;
    [done|].
  simpl. assert (Hd : has_oid "_id" p d = true).
  { assert (Hin : In d (List.filter (has_oid "_id" p) (collection db "player")))
      by (rewrite E; by left).
    by apply filter_In in Hin as [_ ?]. }
  apply has_oid_true, oid_field_lookup in Hd.
  destruct d as [|kv d]; [done|]. done.
Qed.

(** [player_analytics] for a player who is a side of no match. *)
Lemma player_analytics_empty (rt : Runtime) (player_id : string) (p : ObjectId) :
  oid player_id = Ok p -> matches_of db p = [] ->
  player_analytics rt (Some db) player_id
  = Ok {| player := default VNull (player_name db p);
          totals := {| points_won := 0; points_lost := 0; avg_rally := VNull |};
          shot_distribution := [];
          matches := 0 |}.
Proof.
  intros Hoid Hnone. unfold player_analytics. simpl. rewrite Hoid. simpl.
  rewrite find_matches_of, Hnone. simpl. by rewrite name_of_find_one.
Qed.

(** [player_name] is the name of the one player with that identifier. *)
Lemma player_name_found (p : ObjectId) (d : document) :
  d ∈ collection db "player" -> oid_field "_id" d = Some p ->
  player_name db p = doc_lookup "name" d.
Proof.
  intros Hin Hid. unfold player_name, has_oid.
  pose proof (filter_unique_key (oid_field "_id") p _ d
                (wf_player_ids db Hwf) Hin Hid) as H.
  by rewrite H.
Qed.

Lemma player_name_absent (p : ObjectId) :
  (forall d, d ∈ collection db "player" -> oid_field "_id" d <> Some p) ->
  player_name db p = None.
Proof.
  intros H. unfold player_name. rewrite filter_none; [done|].
  apply Forall_forall. intros d Hd. apply has_oid_false. by apply H.
Qed.
End WellFormed.

(** The sample databases satisfy the invariant. *)
Ltac wf_by_computation :=
  split; apply (bool_decide_unpack _); vm_compute; exact I.

Lemma sample_db0_wf : wf_db sample_db0.
Proof. wf_by_computation. Qed.

Lemma sample_db_wf : wf_db sample_db.
Proof. wf_by_computation. Qed.

(** ** Player analytics *)

(** C1.  For a player identifier that decodes and that is a side of no
    stored match, [player_analytics] returns a summary (it raises nothing):
    0 points won, 0 points lost, a null average rally, an empty shot
    distribution and 0 matches, with the name of the player; the name is
    the [name] field of the player document with that identifier, and null
    when no player has it. *)
Theorem player_analytics_no_matches (rt : Runtime) (db : Database)
    (player_id : string) (p : ObjectId) :
  wf_db db ->
  oid player_id = Ok p ->
  matches_of db p = [] ->
  player_analytics rt (Some db) player_id
  = Ok {| player := default VNull (player_name db p);
          totals := {| points_won := 0; points_lost := 0; avg_rally := VNull |};
          shot_distribution := [];
          matches := 0 |}
  /\ (forall d, d ∈ collection db "player" -> oid_field "_id" d = Some p ->
        default VNull (player_name db p) = doc_get "name" d)
  /\ ((forall d, d ∈ collection db "player" -> oid_field "_id" d <> Some p) ->
        default VNull (player_name db p) = VNull).
Proof.
  intros Hwf Hoid Hnone. split; [|split].
  - by apply player_analytics_empty.
  - intros d Hin Hid. by rewrite (player_name_found db Hwf p d Hin Hid).
  - intros H. by rewrite (player_name_absent db p H).
Qed.

Lemma player_analytics_no_matches_witness :
  player_analytics sample_rt (Some sample_db) (id_text 3)
  = Ok {| player := VStr "cy";
          totals := {| points_won := 0; points_lost := 0; avg_rally := VNull |};
          shot_distribution := [];
          matches := 0 |}.
Proof.
  exact (proj1 (player_analytics_no_matches sample_rt sample_db (id_text 3) (id_bytes 3)
                  sample_db_wf eq_refl eq_refl)).
Defined.

(** ** Validation of a player *)

Lemma validate_rating_given (rt : Runtime) (d : document) (r : option Q) :
  rating_given d r -> Player.validate_rating rt d = Some r.
Proof.
  unfold Player.validate_rating, Qle_both.
  destruct 1 as [H|H|q H H0 H6|z H Hz]; rewrite H; try done.
  - apply Qle_bool_iff in H0, H6. by rewrite H0, H6.
  - assert (H0 : Qle_bool 0 (inject_Z z) = true).
    { apply Qle_bool_iff. change 0%Q with (inject_Z 0). rewrite <- Zle_Qle. lia. }
    assert (H6 : Qle_bool (inject_Z z) 6 = true).
    { apply Qle_bool_iff. change 6%Q with (inject_Z 6). rewrite <- Zle_Qle. lia. }
    by rewrite H0, H6.
Qed.

Lemma validate_handedness_given (d : document) (h : option Handedness) :
  handedness_given d h -> Player.validate_handedness d = Some h.
Proof.
  unfold Player.validate_handedness.
  destruct 1 as [H|H|h H]; rewrite H; try done. by destruct h.
Qed.

(** C9 (as amended).  A player body whose [name] is absent or is not a
    string fails validation with status 422, [name] being among the fields
    reported.  A body whose [name] is a string, the empty string included,
    whose [rating] is absent, null or a number from 0 to 6 and whose
    [handedness] is absent, null, "left" or "right" validates, to the
    player with these three fields. *)
Theorem player_validation (rt : Runtime) (d : document) :
  ((forall s, doc_lookup "name" d <> Some (VStr s)) ->
     exists fields,
       Player.validate rt (VDoc d) = Raise (RequestValidationError fields) /\
       In "name" fields /\
       status_of (Player.validate rt (VDoc d)) = 422) /\
  (forall n r h,
     doc_lookup "name" d = Some (VStr n) ->
     rating_given d r -> handedness_given d h ->
     Player.validate rt (VDoc d)
     = Ok {| Player.name := n; Player.rating := r; Player.handedness := h |}).
Proof.
  split.
  - intros Hname. unfold Player.validate.
    assert (E : Player.validate_name d = None).
    { unfold Player.validate_name.
      destruct (doc_lookup "name" d) as [[]|]; try done. by destruct (Hname s). }
    rewrite E. eexists. split; [reflexivity|]. split; [by left | done].
  - intros n r h Hn Hr Hh. unfold Player.validate.
    rewrite (validate_rating_given rt d r Hr), (validate_handedness_given d h Hh).
    unfold Player.validate_name. by rewrite Hn.
Qed.

Lemma player_validation_witness :
  (exists fields,
     Player.validate sample_rt (VDoc [("rating", VInt 3)])
     = Raise (RequestValidationError fields) /\ In "name" fields /\
     status_of (Player.validate sample_rt (VDoc [("rating", VInt 3)])) = 422) /\
  Player.validate sample_rt
    (VDoc [("name", VStr "ann"); ("rating", VFloat (7 # 2)); ("handedness", VStr "left")])
  = Ok {| Player.name := "ann"; Player.rating := Some (7 # 2)%Q;
          Player.handedness := Some hand_left |}.
Proof.
  split.
  - apply (player_validation sample_rt [("rating", VInt 3)]). intros s. discriminate.
  - apply (player_validation sample_rt
             [("name", VStr "ann"); ("rating", VFloat (7 # 2)); ("handedness", VStr "left")]).
    + reflexivity.
    + apply rating_float; [reflexivity | discriminate | discriminate].
    + apply (handedness_literal _ hand_left). reflexivity.
Defined.

(** C9, as the specification words it, fails: the empty string is accepted
    as the name of a player. *)
Lemma empty_name_validates :
  Player.validate sample_rt (VDoc [("name", VStr "")])
  = Ok {| Player.name := ""; Player.rating := None; Player.handedness := None |}.
Proof. reflexivity. Qed.

(** ** Dictionaries *)

Lemma doc_lookup_set (k k' : string) (v : value) (d : document) :
  doc_lookup k (doc_set k' v d) = if String.eqb k k' then Some v else doc_lookup k d.
Proof.
  induction d as [|[j w] d IH]; simpl.
  - by destruct (String.eqb k k').
  - destruct (String.eqb_spec k' j) as [->|Hne]; simpl.
    + by destruct (String.eqb k j).
    + destruct (String.eqb_spec k j) as [->|Hne'].
      * destruct (String.eqb_spec j k'); [congruence | done].
      * apply IH.
Qed.

Lemma doc_lookup_None (k : string) (d : document) :
  doc_lookup k d = None <-> ~ In k (dict_keys d).
Proof.
  induction d as [|[j w] d IH]; simpl; [tauto|].
  destruct (String.eqb_spec k j) as [->|Hne].
  - split; [done | intros H; destruct H; by left].
  - rewrite IH. split; [intros H [E|E]; congruence || done | tauto].
Qed.

Lemma doc_lookup_remove (k k' : string) (d : document) :
  List.NoDup (dict_keys d) ->
  doc_lookup k (doc_remove k' d) = if String.eqb k k' then None else doc_lookup k d.
Proof.
  induction d as [|[j w] d IH]; intros Hnd; simpl.
  - by destruct (String.eqb k k').
  - apply List.NoDup_cons_iff in Hnd as [Hj Hnd].
    destruct (String.eqb_spec k' j) as [->|Hne]; simpl.
    + destruct (String.eqb_spec k j) as [->|Hne']; [by apply doc_lookup_None | done].
    + destruct (String.eqb_spec k j) as [->|Hne'].
      * destruct (String.eqb_spec j k'); [congruence | done].
      * by apply IH.
Qed.

Lemma dict_keys_set_in (k : string) (v : value) (d : document) :
  In k (dict_keys d) -> dict_keys (doc_set k v d) = dict_keys d.
Proof.
  induction d as [|[j w] d IH]; simpl; [done|]. intros Hin.
  destruct (String.eqb_spec k j) as [->|Hne]; simpl; [done|].
  f_equal. apply IH. destruct Hin; [congruence | done].
Qed.

Lemma dict_keys_set_notin (k : string) (v : value) (d : document) :
  ~ In k (dict_keys d) -> dict_keys (doc_set k v d) = (dict_keys d ++ [k])%list.
Proof.
  induction d as [|[j w] d IH]; simpl; [done|]. intros Hin.
  destruct (String.eqb_spec k j) as [->|Hne]; simpl; [tauto|].
  f_equal. apply IH. tauto.
Qed.

Lemma filter_keys_remove (f : string -> bool) (k : string) (d : document) :
  f k = false ->
  List.filter f (dict_keys (doc_remove k d)) = List.filter f (dict_keys d).
Proof.
  intros Hk. induction d as [|[j w] d IH]; simpl; [done|].
  destruct (String.eqb_spec k j) as [->|Hne]; simpl.
  - by rewrite Hk.
  - by rewrite IH.
Qed.

Lemma filter_keys_set (f : string -> bool) (k : string) (v : value) (d : document) :
  f k = false ->
  List.filter f (dict_keys (doc_set k v d)) = List.filter f (dict_keys d).
Proof.
  intros Hk. destruct (in_dec string_dec k (dict_keys d)) as [Hin|Hin].
  - by rewrite dict_keys_set_in.
  - rewrite dict_keys_set_notin by done. rewrite List.filter_app. simpl.
    by rewrite Hk, app_nil_r.
Qed.

Lemma dict_keys_remove_incl (k j : string) (d : document) :
  In j (dict_keys (doc_remove k d)) -> In j (dict_keys d).
Proof.
  induction d as [|[i w] d IH]; simpl; [done|].
  destruct (String.eqb k i); simpl; [tauto|]. intros [H|H]; [by left | right; by apply IH].
Qed.

Lemma NoDup_keys_remove (k : string) (d : document) :
  List.NoDup (dict_keys d) -> List.NoDup (dict_keys (doc_remove k d)).
Proof.
  induction d as [|[j w] d IH]; simpl; [done|]. intros Hnd.
  apply List.NoDup_cons_iff in Hnd as [Hj Hnd].
  destruct (String.eqb k j); simpl; [done|].
  apply List.NoDup_cons; [|by apply IH].
  intros Hin. apply Hj. by eapply dict_keys_remove_incl.
Qed.

Lemma NoDup_keys_set (k : string) (v : value) (d : document) :
  List.NoDup (dict_keys d) -> List.NoDup (dict_keys (doc_set k v d)).
Proof.
  intros Hnd. destruct (in_dec string_dec k (dict_keys d)) as [Hin|Hin].
  - by rewrite dict_keys_set_in.
  - rewrite dict_keys_set_notin by done.
    apply NoDup_ListNoDup, NoDup_app. split; [by apply NoDup_ListNoDup|].
    split; [|apply NoDup_singleton].
    intros x Hx Hx'. apply list_elem_of_singleton in Hx' as ->.
    by apply list_elem_of_In in Hx.
Qed.

Lemma doc_lookup_map_values (f : value -> value) (k : string) (d : document) :
  doc_lookup k (map_values f d) = f <$> doc_lookup k d.
Proof.
  induction d as [|[j w] d IH]; simpl; [done|]. by destruct (String.eqb k j).
Qed.

Lemma dict_keys_map_values (f : value -> value) (d : document) :
  dict_keys (map_values f d) = dict_keys d.
Proof. unfold dict_keys, map_values. rewrite map_map. by apply map_ext. Qed.

Lemma doc_set_middle (k : string) (v v' : value) (pre rest : document) :
  ~ In k (dict_keys pre) ->
  doc_set k v' (pre ++ (k, v) :: rest) = (pre ++ (k, v') :: rest)%list.
Proof.
  induction pre as [|[j w] pre IH]; simpl; intros Hin.
  - by rewrite String.eqb_refl.
  - destruct (String.eqb_spec k j) as [->|Hne]; [tauto|]. f_equal. apply IH. tauto.
Qed.

(** The loop of [to_serializable] over the items of the dictionary itself
    replaces each value by its text where it is an ObjectId. *)
Lemma stringify_loop (rt : Runtime) (items pre : document) :
  List.NoDup (dict_keys (pre ++ items)) ->
  fold_left (stringify_item rt) items (pre ++ items)
  = (pre ++ map_values (stringify rt) items)%list.
Proof.
  revert pre. induction items as [|[k v] items IH]; intros pre Hnd; simpl; [done|].
  assert (Hk : ~ In k (dict_keys pre)).
  { unfold dict_keys in Hnd. rewrite map_app in Hnd. simpl in Hnd.
    apply List.NoDup_remove_2 in Hnd. intros Hin. apply Hnd, in_or_app. by left. }
  assert (E : stringify_item rt (pre ++ (k, v) :: items) (k, v)
              = ((pre ++ [(k, stringify rt v)]) ++ items)%list).
  { unfold stringify_item, stringify. simpl. rewrite <- app_assoc. simpl.
    destruct (is_ObjectId v); [by apply doc_set_middle | done]. }
  rewrite E, IH.
  - by rewrite <- app_assoc.
  - rewrite <- app_assoc. simpl. unfold dict_keys in *.
    rewrite map_app in *. simpl in *. done.
Qed.

Lemma NoDup_keys_rename_id (rt : Runtime) (d : document) :
  List.NoDup (dict_keys d) -> List.NoDup (dict_keys (rename_id rt d)).
Proof.
  intros Hnd. unfold rename_id. destruct (negb (is_None (doc_get "_id" d))); [|done].
  by apply NoDup_keys_set, NoDup_keys_remove.
Qed.

(** ** The serializer *)

Lemma py_for_stringify (rt : Runtime) (l' : loc) (items : document) :
  forall (acc : document) (h : heap),
    h !! l' = Some acc ->
    py_for items (fun '(k, v) =>
                    if is_ObjectId v then py_dict_setitem l' k (VStr (py_str rt v))
                    else py_ret tt) h
    = Some (tt, <[l' := fold_left (stringify_item rt) items acc]> h).
Proof.
  induction items as [|[k v] items IH]; intros acc h Hl; simpl.
  - unfold py_ret. by rewrite insert_id.
  - unfold py_bind, stringify_item. simpl. destruct (is_ObjectId v).
    + unfold py_dict_setitem. rewrite Hl.
      rewrite (IH (doc_set k (VStr (py_str rt v)) acc)) by apply lookup_insert_eq.
      by rewrite insert_insert_eq.
    + unfold py_ret. by apply IH.
Qed.

(** [to_serializable] allocates one dictionary, at a fresh address, and
    leaves the store as it was everywhere else. *)
Lemma to_serializable_closed (rt : Runtime) (h : heap) (l : loc) (d : document) :
  h !! l = Some d -> List.NoDup (dict_keys d) ->
  to_serializable rt l h
  = Some (fresh (dom h),
          <[fresh (dom h) := map_values (stringify rt) (rename_id rt d)]> h).
Proof.
  intros Hl Hnd. unfold to_serializable, py_bind at 1, py_dict_copy. rewrite Hl.
  set (l' := fresh (dom h)).
  unfold py_bind at 1, py_dict_get. rewrite lookup_insert_eq.
  pose proof (stringify_loop rt (rename_id rt d) [] (NoDup_keys_rename_id rt d Hnd)) as Hloop.
  simpl in Hloop. unfold rename_id in *.
  pose proof (py_for_stringify rt l') as Hfor.
  destruct (negb (is_None (doc_get "_id" d))).
  - unfold py_bind, py_dict_pop, py_dict_setitem, py_dict_items, py_ret in *.
    rewrite !lookup_insert_eq. rewrite !insert_insert_eq.
    rewrite (Hfor _ (doc_set "id" (VStr (py_str rt (doc_get "_id" d)))
                             (doc_remove "_id" d)))
      by apply lookup_insert_eq.
    by rewrite insert_insert_eq, Hloop.
  - unfold py_bind, py_dict_setitem, py_dict_items, py_ret in *. rewrite lookup_insert_eq.
    rewrite (Hfor _ d) by apply lookup_insert_eq.
    by rewrite insert_insert_eq, Hloop.
Qed.

Lemma to_serializable_doc_closed (rt : Runtime) (d : document) :
  NoDup (dict_keys d) ->
  to_serializable_doc rt d = map_values (stringify rt) (rename_id rt d).
Proof.
  intros Hnd. apply NoDup_ListNoDup in Hnd. unfold to_serializable_doc.
  rewrite (to_serializable_closed rt _ 1%positive d) by (apply lookup_singleton_eq || done).
  by rewrite lookup_insert_eq.
Qed.

Lemma stringify_not_ObjectId (rt : Runtime) (v : value) : is_ObjectId (stringify rt v) = false.
Proof. unfold stringify. by destruct v. Qed.

Lemma doc_lookup_rename_id_other (rt : Runtime) (k : string) (d : document) :
  List.NoDup (dict_keys d) -> other_field k = true ->
  doc_lookup k (rename_id rt d) = doc_lookup k d.
Proof.
  intros Hnd Hk. unfold other_field in Hk. apply andb_prop in Hk as [H1 H2].
  unfold rename_id. destruct (negb (is_None (doc_get "_id" d))); [|done].
  rewrite doc_lookup_set. destruct (String.eqb k "id"); [done|].
  rewrite doc_lookup_remove by done. by destruct (String.eqb k "_id").
Qed.

(** C8.  [to_serializable] does not change its argument: it returns a new
    dictionary, at an address that was free, and leaves every dictionary
    of the store, the argument among them, as it was.  In the new
    dictionary an [_id] that is not [None] has gone and [id] holds its
    text; without such an [_id] no field is renamed; every other field is
    there with the value of the argument, replaced by its text when it is
    an ObjectId, so that no field holds an ObjectId; and the other fields
    come in the order of the argument. *)
Theorem to_serializable_copy (rt : Runtime) (h : heap) (l : loc) (d : document) :
  h !! l = Some d -> NoDup (dict_keys d) ->
  exists (l' : loc) (h' : heap) (d' : document),
    to_serializable rt l h = Some (l', h') /\
    h !! l' = None /\ h' !! l' = Some d' /\
    (forall l0, l0 <> l' -> h' !! l0 = h !! l0) /\
    h' !! l = Some d /\
    (forall v, doc_lookup "_id" d = Some v -> v <> VNull ->
       doc_lookup "_id" d' = None /\ doc_lookup "id" d' = Some (VStr (py_str rt v))) /\
    (is_None (doc_get "_id" d) = true ->
       forall k, doc_lookup k d' = stringify rt <$> doc_lookup k d) /\
    (forall k, other_field k = true -> doc_lookup k d' = stringify rt <$> doc_lookup k d) /\
    (forall k v, doc_lookup k d' = Some v -> is_ObjectId v = false) /\
    List.filter other_field (dict_keys d') = List.filter other_field (dict_keys d).
Proof.
  intros Hl Hnd. apply NoDup_ListNoDup in Hnd.
  set (l' := fresh (dom h)).
  assert (Hfresh : h !! l' = None) by (apply not_elem_of_dom, is_fresh).
  assert (Hne : l <> l') by (intros ->; congruence).
  exists l', (<[l' := map_values (stringify rt) (rename_id rt d)]> h),
         (map_values (stringify rt) (rename_id rt d)).
  split; [by apply to_serializable_closed|].
  split; [done|]. split; [apply lookup_insert_eq|].
  split; [intros l0 H0; by apply lookup_insert_ne|].
  split; [by rewrite lookup_insert_ne|].
  split; [|split; [|split; [|split]]].
  - intros v Hv Hnn.
    assert (E : negb (is_None (doc_get "_id" d)) = true).
    { unfold doc_get. rewrite Hv. simpl. by destruct v. }
    rewrite !doc_lookup_map_values. unfold rename_id. rewrite E.
    rewrite !doc_lookup_set. simpl. rewrite doc_lookup_remove by done. simpl.
    unfold doc_get. rewrite Hv. simpl. done.
  - intros HN k. rewrite doc_lookup_map_values. unfold rename_id. by rewrite HN.
  - intros k Hk. rewrite doc_lookup_map_values.
    by rewrite doc_lookup_rename_id_other.
  - intros k v. rewrite doc_lookup_map_values.
    destruct (doc_lookup k (rename_id rt d)) as [w|]; [|done].
    intros [= <-]. apply stringify_not_ObjectId.
  - rewrite dict_keys_map_values. unfold rename_id.
    destruct (negb (is_None (doc_get "_id" d))); [|done].
    rewrite filter_keys_set by done. by rewrite filter_keys_remove.
Qed.

Lemma to_serializable_copy_witness :
  exists (l' : loc) (h' : heap) (d' : document),
    to_serializable sample_rt 5%positive {[ 5%positive := sample_player ]} = Some (l', h') /\
    h' !! l' = Some d' /\
    h' !! 5%positive = Some sample_player /\
    doc_lookup "id" d' = Some (VStr (id_text 1)) /\
    doc_lookup "friend" d' = Some (VStr (id_text 2)).
Proof.
  destruct (to_serializable_copy sample_rt {[ 5%positive := sample_player ]} 5%positive
              sample_player)
    as (l' & h' & d' & H1 & _ & H3 & _ & H5 & H6 & _ & H8 & _).
  - reflexivity.
  - apply (bool_decide_unpack _). vm_compute. exact I.
  - exists l', h', d'. split; [done|]. split; [done|]. split; [done|]. split.
    + apply (H6 (VOid (id_bytes 1))); [reflexivity | discriminate].
    + apply (H8 "friend"). reflexivity.
Defined.

(** ** Aggregation: grouping *)

Lemma mapM_Ok {A B : Type} (f : A -> result B) (g : A -> B) (l : list A) :
  (forall x, In x l -> f x = Ok (g x)) -> mapM f l = Ok (map g l).
Proof.
  induction l as [|x l IH]; intros H; simpl; [done|].
  rewrite (H x) by (by left). simpl. rewrite IH; [done|].
  intros y Hy. apply H. by right.
Qed.

Lemma eval_simple (rt : Runtime) (e : expr) (d : document) :
  is_simple e = true -> eval_expr rt e d = Ok (simple_value e d).
Proof. by destruct e. Qed.

Lemma omap_id_map {A B : Type} (f : A -> option B) (l : list A) :
  omap id (map f l) = omap f l.
Proof.
  induction l as [|x l IH]; [done|].
  change (omap id (map f (x :: l))) with
    (match f x with Some y => y :: omap id (map f l) | None => omap id (map f l) end).
  rewrite IH. reflexivity.
Qed.

Lemma eval_all_simple (rt : Runtime) (e : expr) (ds : list document) :
  is_simple e = true -> eval_all rt e ds = Ok (omap (simple_value e) ds).
Proof.
  intros He. unfold eval_all.
  rewrite (mapM_Ok _ (simple_value e)) by (intros; by apply eval_simple).
  simpl. by rewrite omap_id_map.
Qed.

Lemma eval_accumulator_simple (rt : Runtime) (a : accumulator) (ds : list document) :
  acc_simple a = true -> eval_accumulator rt a ds = Ok (acc_value a ds).
Proof.
  destruct a as [e|e]; simpl; intros He; by rewrite eval_all_simple.
Qed.

Lemma members_of_key (kf : document -> value) (k : value) (ds : list document) :
  map snd (List.filter (fun kd => mongo_eqb (fst kd) k) (combine (map kf ds) ds))
  = List.filter (fun d => mongo_eqb (kf d) k) ds.
Proof.
  induction ds as [|d ds IH]; simpl; [done|].
  destruct (mongo_eqb (kf d) k); simpl; by rewrite IH.
Qed.

(** A [$group] stage over field paths and literals never fails; its rows
    are [group_rows]. *)
Lemma group_stage_simple (rt : Runtime) (id : expr)
    (accs : list (string * accumulator)) (ds : list document) :
  is_simple id = true -> forallb (fun na => acc_simple (snd na)) accs = true ->
  group_stage rt id accs ds = Ok (group_rows id accs ds).
Proof.
  intros Hid Haccs. unfold group_stage, group_rows.
  rewrite (mapM_Ok _ (simple_key id)).
  2:{ intros d _. unfold group_key. by rewrite eval_simple. }
  simpl. apply mapM_Ok. intros k _. rewrite members_of_key.
  rewrite (mapM_Ok _ (fun na => (fst na, acc_value (snd na)
             (List.filter (fun d => mongo_eqb (simple_key id d) k) ds)))); [done|].
  intros na Hna. rewrite eval_accumulator_simple; [done|].
  rewrite forallb_forall in Haccs. by apply Haccs.
Qed.

Lemma sum_values_ones_from (n : Z) (l : list value) :
  Forall (fun v => v = VInt 1) l ->
  fold_left add_value l (VInt n) = VInt (n + Z.of_nat (List.length l)).
Proof.
  intros H. revert n. induction H as [|v l -> _ IH]; intros n; simpl.
  - f_equal. lia.
  - rewrite IH. f_equal. lia.
Qed.

Lemma omap_Some {A B : Type} (f : A -> B) (l : list A) :
  omap (fun x => Some (f x)) l = map f l.
Proof. induction l as [|x l IH]; [done|]. cbn. by rewrite IH. Qed.

(** [{"$sum": 1}] counts the documents of the group. *)
Lemma sum_ones (ds : list document) :
  acc_value (A_sum (E_const (VInt 1))) ds = VInt (Z.of_nat (List.length ds)).
Proof.
  simpl. unfold sum_values. rewrite (omap_Some (fun _ => VInt 1)).
  rewrite sum_values_ones_from.
  - by rewrite length_map.
  - apply Forall_forall. intros v Hv. apply list_elem_of_In, in_map_iff in Hv.
    by destruct Hv as (_ & <- & _).
Qed.

(** [{"$avg": "$rally_length"}] over points whose rally length is an
    integer. *)
Lemma avg_rally_length (ds : list document) :
  Forall (fun d => is_Some (int_field "rally_length" d)) ds ->
  acc_value (A_avg (E_field ["rally_length"])) ds = avg_rally_of ds.
Proof.
  intros H.
  change (acc_value (A_avg (E_field ["rally_length"])) ds)
    with (avg_values (omap (simple_value (E_field ["rally_length"])) ds)).
  assert (E : omap num_of (omap (simple_value (E_field ["rally_length"])) ds)
              = map rally_of ds).
  { induction H as [|d ds [z Hz] _ IH]; [done|].
    simpl map. unfold rally_of at 1. rewrite Hz, <- IH. unfold int_field in Hz.
    cbn. destruct (doc_lookup "rally_length" d) as [[]|]; try done.
    by injection Hz as ->. }
  unfold avg_values, avg_rally_of. rewrite E. by destruct ds.
Qed.

(** ** Sorting and first occurrences *)

Section Sorting.
Context {A : Type} (le : A -> A -> bool).

Lemma insert_by_perm (x : A) (l : list A) : Permutation (insert_by le x l) (x :: l).
Proof.
  induction l as [|y l IH]; simpl; [done|].
  destruct (le x y); [done|]. rewrite IH. apply perm_swap.
Qed.

Lemma sort_by_perm (l : list A) : Permutation (sort_by le l) l.
Proof.
  induction l as [|x l IH]; simpl; [done|].
  rewrite insert_by_perm. by constructor.
Qed.

Lemma sort_by_In (x : A) (l : list A) : In x (sort_by le l) <-> In x l.
Proof.
  split; apply Permutation_in; [apply sort_by_perm | symmetry; apply sort_by_perm].
Qed.

Lemma sort_by_length (l : list A) : List.length (sort_by le l) = List.length l.
Proof. apply Permutation_length, sort_by_perm. Qed.

(** When [le] decides a total, transitive relation on the elements of the
    list, the sorted list is ordered by it, every element before all the
    later ones. *)
Lemma insert_by_sorted (R : A -> A -> Prop) (x : A) (l : list A) :
  (forall y, In y l -> le x y = true -> R x y) ->
  (forall y, In y l -> le x y = false -> R y x) ->
  (forall a b c, R a b -> R b c -> R a c) ->
  StronglySorted R l -> StronglySorted R (insert_by le x l).
Proof.
  intros Ht Hf Htrans Hs. induction Hs as [|y l Hs IH Hy]; simpl.
  - repeat constructor.
  - destruct (le x y) eqn:E.
    + constructor; [by constructor|]. constructor; [apply Ht; [by left | done]|].
      rewrite List.Forall_forall in *. intros z Hz.
      apply (Htrans _ y); [apply Ht; [by left | done] | by apply Hy].
    + constructor.
      * apply IH; intros z Hz; [apply Ht | apply Hf]; by right.
      * rewrite List.Forall_forall in *. intros z Hz.
        apply (Permutation_in _ (insert_by_perm x l)) in Hz as [<-|Hz].
        -- apply Hf; [by left | done].
        -- by apply Hy.
Qed.

Lemma sort_by_sorted (R : A -> A -> Prop) (l : list A) :
  (forall x y, In x l -> In y l -> le x y = true -> R x y) ->
  (forall x y, In x l -> In y l -> le x y = false -> R y x) ->
  (forall a b c, R a b -> R b c -> R a c) ->
  StronglySorted R (sort_by le l).
Proof.
  intros Ht Hf Htrans. induction l as [|x l IH]; simpl; [constructor|].
  apply insert_by_sorted; [| |done|].
  - intros y Hy Hle. apply (proj1 (sort_by_In _ _)) in Hy.
    apply Ht; [by left | by right | done].
  - intros y Hy Hle. apply (proj1 (sort_by_In _ _)) in Hy.
    apply Hf; [by left | by right | done].
  - apply IH; intros a b Ha Hb Hle; [apply Ht | apply Hf]; try done; by right.
Qed.
End Sorting.

Lemma sort_by_map {A B : Type} (f : A -> B) (le : B -> B -> bool) (l : list A) :
  sort_by le (map f l) = map f (sort_by (fun x y => le (f x) (f y)) l).
Proof.
  induction l as [|x l IH]; simpl; [done|]. rewrite IH.
  generalize (sort_by (fun x y => le (f x) (f y)) l). intros s.
  induction s as [|y s IHs]; simpl; [done|].
  destruct (le (f x) (f y)); simpl; [done|]. by rewrite IHs.
Qed.

Lemma filter_map_comm {A B : Type} (f : A -> B) (p : B -> bool) (l : list A) :
  List.filter p (map f l) = map f (List.filter (fun x => p (f x)) l).
Proof.
  induction l as [|x l IH]; simpl; [done|]. destruct (p (f x)); simpl; by rewrite IH.
Qed.

Lemma filter_filter_and {A : Type} (f g : A -> bool) (l : list A) :
  List.filter f (List.filter g l) = List.filter (fun x => g x && f x) l.
Proof.
  induction l as [|x l IH]; simpl; [done|].
  destruct (g x); simpl; [destruct (f x)|]; by rewrite IH.
Qed.

Lemma nub_by_map {A B : Type} (f : A -> B) (eqa : A -> A -> bool) (eqb : B -> B -> bool)
    (l : list A) :
  (forall x y, eqb (f x) (f y) = eqa x y) ->
  nub_by eqb (map f l) = map f (nub_by eqa l).
Proof.
  intros H. induction l as [|x l IH]; simpl; [done|]. f_equal.
  rewrite IH, filter_map_comm. f_equal. apply filter_ext_Forall, Forall_forall.
  intros y _. by rewrite H.
Qed.

Section Nub.
Context {A : Type} (eqb : A -> A -> bool).
Context (eqb_eq : forall x y, eqb x y = true <-> x = y).

Lemma nub_by_In (x : A) (l : list A) : In x (nub_by eqb l) <-> In x l.
Proof.
  induction l as [|y l IH]; simpl; [done|].
  rewrite filter_In, IH. split.
  - intros [H|[H _]]; [by left | by right].
  - intros [H|H]; [by left|].
    destruct (eqb y x) eqn:E; [left; by apply eqb_eq | right].
    by split.
Qed.

Lemma nub_by_NoDup (l : list A) : List.NoDup (nub_by eqb l).
Proof.
  induction l as [|y l IH]; simpl; constructor.
  - rewrite filter_In. intros [_ H]. simpl in H.
    assert (E : eqb y y = true) by by apply eqb_eq. by rewrite E in H.
  - by apply List.NoDup_filter.
Qed.
End Nub.

(** ** The queries of [player_analytics] on a well-formed database *)

Lemma match_ids_Ok (ms : list document) :
  Forall (fun m => is_Some (oid_field "_id" m)) ms ->
  mapM (fun m => py_getitem m "_id") ms = Ok (map (doc_get "_id") ms).
Proof.
  intros H. apply mapM_Ok. intros m Hm.
  rewrite Forall_forall in H. destruct (H m) as [i Hi]; [by apply list_elem_of_In|].
  apply oid_field_lookup in Hi. unfold py_getitem, doc_get. by rewrite Hi.
Qed.

Lemma in_match_ids (pt : document) (ms : list document) :
  is_Some (oid_field "match_id" pt) ->
  Forall (fun m => is_Some (oid_field "_id" m)) ms ->
  existsb (field_equals (doc_lookup "match_id" pt)) (map (doc_get "_id") ms)
  = point_in ms pt.
Proof.
  intros Hpt. induction 1 as [|m ms [i Hi] _ IH]; simpl; [done|].
  rewrite IH, Hi. f_equal. apply oid_field_lookup in Hi as Hi'.
  unfold doc_get. rewrite Hi'. simpl. by apply field_equals_oid.
Qed.

Lemma filter_all {A : Type} (f : A -> bool) (l : list A) :
  Forall (fun x => f x = true) l -> List.filter f l = l.
Proof. induction 1 as [|x l Hx _ IH]; [done|]. simpl. by rewrite Hx, IH. Qed.

Lemma nub_by_incl {A : Type} (eqb : A -> A -> bool) (x : A) (l : list A) :
  In x (nub_by eqb l) -> In x l.
Proof.
  revert x. induction l as [|y l IH]; simpl; [done|].
  intros x [H|H]; [by left|]. apply filter_In in H as [H _]. right. by apply IH.
Qed.

Section PlayerQueries.
Context (db : Database) (Hwf : wf_db db) (p : ObjectId).

Lemma matches_of_ids : Forall (fun m => is_Some (oid_field "_id" m)) (matches_of db p).
Proof.
  apply Forall_forall. intros m Hm. apply list_elem_of_In, filter_In in Hm as [Hm _].
  by apply (wf_match_fields db Hwf), list_elem_of_In.
Qed.

Lemma match_ids_of :
  mapM (fun m => py_getitem m "_id") (matches_of db p) = Ok (map (doc_get "_id") (matches_of db p)).
Proof. apply match_ids_Ok, matches_of_ids. Qed.

Lemma find_points_won :
  find db "point" [Q_field "match_id" (C_in (map (doc_get "_id") (matches_of db p)));
                   Q_field "scorer_id" (C_eq (VOid p))]
  = List.filter (scored_by p) (points_of db p).
Proof.
  unfold find, points_of. rewrite filter_filter_and.
  apply filter_ext_Forall, Forall_forall. intros pt Hpt.
  destruct (wf_point_fields db Hwf pt Hpt) as (_ & Hm & Hs & _).
  unfold matches_query. simpl.
  rewrite (in_match_ids pt _ Hm matches_of_ids), (field_equals_oid _ _ _ Hs).
  by rewrite andb_true_r.
Qed.

Lemma find_points_lost :
  find db "point" [Q_field "match_id" (C_in (map (doc_get "_id") (matches_of db p)));
                   Q_field "scorer_id" (C_ne (VOid p))]
  = List.filter (fun pt => negb (scored_by p pt)) (points_of db p).
Proof.
  unfold find, points_of. rewrite filter_filter_and.
  apply filter_ext_Forall, Forall_forall. intros pt Hpt.
  destruct (wf_point_fields db Hwf pt Hpt) as (_ & Hm & Hs & _).
  unfold matches_query. simpl.
  rewrite (in_match_ids pt _ Hm matches_of_ids), (field_equals_oid _ _ _ Hs).
  by rewrite andb_true_r.
Qed.

Lemma match_points_of :
  List.filter (matches_query [Q_field "match_id" (C_in (map (doc_get "_id") (matches_of db p)))]) (collection db "point")
  = points_of db p.
Proof.
  unfold points_of. apply filter_ext_Forall, Forall_forall. intros pt Hpt.
  destruct (wf_point_fields db Hwf pt Hpt) as (_ & Hm & _).
  unfold matches_query. simpl.
  rewrite (in_match_ids pt _ Hm matches_of_ids). by rewrite andb_true_r.
Qed.

Lemma match_shots_of :
  List.filter (matches_query [Q_field "match_id" (C_in (map (doc_get "_id") (matches_of db p)));
                              Q_field "scorer_id" (C_eq (VOid p));
                              Q_field "winner_shot" (C_exists true)])
              (collection db "point")
  = shots_of db p.
Proof.
  unfold shots_of, points_of. rewrite !filter_filter_and.
  apply filter_ext_Forall, Forall_forall. intros pt Hpt.
  destruct (wf_point_fields db Hwf pt Hpt) as (_ & Hm & Hs & _).
  unfold matches_query. simpl.
  rewrite (in_match_ids pt _ Hm matches_of_ids), (field_equals_oid _ _ _ Hs).
  unfold has_shot_field, scored_by.
  by destruct (bool_decide (is_Some (doc_lookup "winner_shot" pt))); rewrite ?andb_true_r.
Qed.

Lemma points_of_wf : Forall (fun d => wf_point d = true) (points_of db p).
Proof.
  apply Forall_forall. intros pt Hpt. apply list_elem_of_In, filter_In in Hpt as [Hpt _].
  pose proof (wf_points db Hwf) as H. rewrite Forall_forall in H.
  by apply H, list_elem_of_In.
Qed.

(** The average of [player_analytics]: over all the points of the
    player's matches. *)
Lemma avg_pipeline (rt : Runtime) :
  aggregate rt db "point"
    [ S_match [Q_field "match_id" (C_in (map (doc_get "_id") (matches_of db p)))];
      S_group (E_const VNull) [("avg", A_avg (E_field ["rally_length"]))] ]
  = Ok (match points_of db p with
        | [] => []
        | _ => [[("_id", VNull); ("avg", avg_rally_of (points_of db p))]]
        end).
Proof.
  unfold aggregate. cbn [forallb stage_encodes stage_parses andb negb].
  cbn [run_pipeline run_stage bind]. rewrite match_points_of.
  rewrite group_stage_simple by done. cbn [bind]. f_equal.
  unfold group_rows.
  assert (Hk : map (simple_key (E_const VNull)) (points_of db p)
               = map (fun _ => VNull) (points_of db p)) by done.
  rewrite Hk. destruct (points_of db p) as [|pt pts] eqn:E; [done|].
  assert (Hnub : nub_by mongo_eqb (map (fun _ : document => VNull) (pt :: pts)) = [VNull]).
  { simpl. f_equal. rewrite filter_none; [done|].
    apply Forall_forall. intros v Hv. apply list_elem_of_In, nub_by_incl in Hv.
    apply in_map_iff in Hv. by destruct Hv as (_ & <- & _). }
  rewrite Hnub. cbn [map fst snd].
  assert (Hall : List.filter (fun d => mongo_eqb (simple_key (E_const VNull) d) VNull)
                   (pt :: pts) = pt :: pts).
  { apply filter_all, Forall_forall. by intros. }
  rewrite Hall. rewrite avg_rally_length; [done|].
  rewrite <- E. pose proof points_of_wf as Hp.
  eapply Forall_impl; [exact Hp|]. intros d Hd. unfold wf_point in Hd.
  repeat (apply andb_prop in Hd as [Hd ?]). by eapply bool_decide_eq_true_1.
Qed.
End PlayerQueries.

(** ** The shot distribution *)

Lemma dict_set_str_key (w : string) (v : value) (sd : document) :
  dict_set py_eqb (VStr w) v (map str_key sd) = map str_key (doc_set w v sd).
Proof.
  induction sd as [|[j u] sd IH]; [done|]. cbn [map str_key fst snd dict_set].
  change (py_eqb (VStr w) (VStr j)) with (String.eqb w j).
  unfold doc_set in *. cbn [dict_set]. destruct (String.eqb w j); [done|].
  cbn [map]. by rewrite IH.
Qed.

Lemma dict_lookup_str_key (w : string) (sd : document) :
  dict_lookup py_eqb (VStr w) (map str_key sd) = doc_lookup w sd.
Proof.
  induction sd as [|[j u] sd IH]; [done|]. cbn [map str_key fst snd dict_lookup].
  change (py_eqb (VStr w) (VStr j)) with (String.eqb w j).
  unfold doc_lookup in *. cbn [dict_lookup]. by destruct (String.eqb w j).
Qed.

(** The dict comprehension over rows with non-empty string keys. *)
Lemma shot_dict_rows (ps : list (string * Z)) (sd : document) :
  Forall (fun wn => fst wn <> "") ps ->
  shot_dict (map shot_row ps) (map str_key sd)
  = Ok (map str_key (fold_left (fun acc wn => doc_set (fst wn) (VInt (snd wn)) acc) ps sd)).
Proof.
  intros H. revert sd. induction H as [|[w n] ps Hw _ IH]; intros sd; [done|].
  cbn [map shot_dict]. simpl in Hw.
  assert (Ht : py_truthy (doc_get "_id" (shot_row (w, n))) = true).
  { cbn. destruct (String.eqb_spec w ""); [done | done]. }
  rewrite Ht. cbn [py_getitem shot_row doc_lookup dict_lookup String.eqb fst snd bind
                   Ascii.eqb Bool.eqb py_hashable].
  rewrite dict_set_str_key. apply IH.
Qed.

Lemma fold_set_notin (w : string) (ps : list (string * Z)) (acc : document) :
  ~ In w (map fst ps) ->
  doc_lookup w (fold_left (fun acc wn => doc_set (fst wn) (VInt (snd wn)) acc) ps acc)
  = doc_lookup w acc.
Proof.
  revert acc. induction ps as [|[w' n'] ps IH]; intros acc Hnin; [done|].
  simpl in *. rewrite IH by tauto. rewrite doc_lookup_set.
  destruct (String.eqb_spec w w'); [subst; tauto | done].
Qed.

Lemma fold_set_in (w : string) (n : Z) (ps : list (string * Z)) (acc : document) :
  List.NoDup (map fst ps) -> In (w, n) ps ->
  doc_lookup w (fold_left (fun acc wn => doc_set (fst wn) (VInt (snd wn)) acc) ps acc)
  = Some (VInt n).
Proof.
  revert acc. induction ps as [|[w' n'] ps IH]; intros acc Hnd Hin; [done|].
  simpl in *. apply List.NoDup_cons_iff in Hnd as [Hw Hnd].
  destruct Hin as [[= -> ->]|Hin].
  - rewrite fold_set_notin by done. by rewrite doc_lookup_set, String.eqb_refl.
  - by apply IH.
Qed.

(** The points that record a shot, in a well-formed database, record the
    name of a shot. *)
Lemma wf_point_shot (pt : document) :
  wf_point pt = true -> has_shot_field pt = true ->
  exists s, doc_lookup "winner_shot" pt = Some (VStr s) /\ s <> "".
Proof.
  unfold wf_point, has_shot_field. intros H Hs.
  apply andb_prop in H as [_ H]. apply bool_decide_eq_true_1 in Hs as [v Hv].
  rewrite Hv in H. destruct v; try done. exists s. split; [done|].
  intros ->. done.
Qed.

Lemma shot_keys (pts : list document) :
  Forall records_shot pts ->
  map (simple_key (E_field ["winner_shot"])) pts = map VStr (omap shot_of pts).
Proof.
  induction 1 as [|d ds (s & Hs & _) _ IH]; [done|].
  cbn [map]. rewrite IH.
  change (omap shot_of (d :: ds)) with
    (match shot_of d with Some y => y :: omap shot_of ds | None => omap shot_of ds end).
  unfold shot_of, simple_key. cbn. by rewrite Hs.
Qed.

Lemma shot_members (pts : list document) (w : string) :
  Forall records_shot pts ->
  List.filter (fun d => mongo_eqb (simple_key (E_field ["winner_shot"]) d) (VStr w)) pts
  = List.filter (won_with w) pts.
Proof.
  intros Hshots. apply filter_ext_Forall. eapply Forall_impl; [exact Hshots|].
  intros d (s & Hs & _). unfold won_with, shot_of, simple_key. cbn. by rewrite Hs.
Qed.

Lemma shot_group_rows (pts : list document) :
  Forall records_shot pts ->
  group_rows (E_field ["winner_shot"]) [("count", A_sum (E_const (VInt 1)))] pts
  = map shot_row (shot_pairs pts).
Proof.
  intros Hshots. unfold group_rows, shot_pairs, shot_names. rewrite shot_keys by done.
  rewrite (nub_by_map VStr String.eqb mongo_eqb) by done.
  rewrite !map_map. apply map_ext. intros w. cbn [map fst snd].
  by rewrite shot_members, sum_ones.
Qed.

Lemma shot_names_nonempty (pts : list document) :
  Forall records_shot pts ->
  Forall (fun wn : string * Z => fst wn <> "") (shot_pairs pts).
Proof.
  intros Hshots. apply Forall_forall. intros [w n] Hin.
  apply list_elem_of_In, in_map_iff in Hin.
  destruct Hin as (w' & [= <- _] & Hw'). apply nub_by_incl in Hw'.
  apply list_elem_of_In, list_elem_of_omap in Hw' as (d & Hd & Hsd).
  rewrite Forall_forall in Hshots. destruct (Hshots d Hd) as (s & Hs & Hne).
  unfold shot_of in Hsd. rewrite Hs in Hsd. by injection Hsd as <-.
Qed.

(** What the distribution gives for a shot is the number of points that
    record it. *)
Lemma shot_pairs_count (pts : list document) (w : string) :
  match doc_lookup w (fold_left (fun acc wn => doc_set (fst wn) (VInt (snd wn)) acc)
                        (sort_by shot_row_le (shot_pairs pts)) []) with
  | Some (VInt n) => n
  | _ => 0
  end = Z.of_nat (List.length (List.filter (won_with w) pts)).
Proof.
  destruct (in_dec string_dec w (shot_names pts)) as [Hin|Hnin].
  - rewrite (fold_set_in w (Z.of_nat (List.length (List.filter (won_with w) pts)))); [done| |].
    + eapply Permutation_NoDup.
      * apply Permutation_map. symmetry. apply sort_by_perm.
      * unfold shot_pairs. rewrite map_map. simpl. rewrite map_id.
        apply nub_by_NoDup. apply String.eqb_eq.
    + apply sort_by_In. unfold shot_pairs. apply in_map_iff. by exists w.
  - rewrite fold_set_notin.
    + simpl. rewrite filter_none; [done|].
      apply Forall_forall. intros d Hd. unfold won_with.
      destruct (shot_of d) as [s|] eqn:Es; [|done].
      destruct (String.eqb_spec s w) as [->|]; [|done].
      destruct Hnin. apply (nub_by_In String.eqb String.eqb_eq).
      apply list_elem_of_In, list_elem_of_omap. by exists d.
    + intros Hin. apply Hnin. apply in_map_iff in Hin as ([w' n] & Hw & Hin).
      simpl in Hw. subst w'. apply sort_by_In in Hin.
      unfold shot_pairs in Hin. apply in_map_iff in Hin as (w' & [= -> _] & Hin). done.
Qed.

Section PlayerShots.
Context (db : Database) (Hwf : wf_db db) (p : ObjectId).

Lemma shots_of_record : Forall records_shot (shots_of db p).
Proof.
  apply Forall_forall. intros pt Hpt.
  apply list_elem_of_In, filter_In in Hpt as [Hpt Hs].
  apply filter_In in Hpt as [Hpt _]. apply filter_In in Hpt as [Hpt _].
  pose proof (wf_points db Hwf) as H. rewrite Forall_forall in H.
  apply (wf_point_shot pt); [|done]. by apply H, list_elem_of_In.
Qed.

(** The shot pipeline of [player_analytics]. *)
Lemma shots_pipeline (rt : Runtime) :
  aggregate rt db "point"
    [ S_match [Q_field "match_id" (C_in (map (doc_get "_id") (matches_of db p)));
               Q_field "scorer_id" (C_eq (VOid p));
               Q_field "winner_shot" (C_exists true)];
      S_group (E_field ["winner_shot"]) [("count", A_sum (E_const (VInt 1)))];
      S_sort [("count", -1)] ]
  = Ok (map shot_row (sort_by shot_row_le (shot_pairs (shots_of db p)))).
Proof.
  unfold aggregate. cbn [forallb stage_encodes stage_parses andb negb].
  cbn [run_pipeline run_stage bind]. rewrite (match_shots_of db Hwf).
  rewrite group_stage_simple by done. cbn [bind].
  rewrite shot_group_rows by apply shots_of_record.
  by rewrite sort_by_map.
Qed.

Lemma dist_count_of (w : string) :
  dist_count (shot_distribution_of db p) w = shot_count db p w.
Proof.
  unfold dist_count, shot_distribution_of. rewrite dict_lookup_str_key.
  rewrite shot_pairs_count. unfold shot_count, shots_of. f_equal. f_equal.
  rewrite filter_filter_and. apply filter_ext_Forall, Forall_forall. intros pt _.
  unfold won_with, shot_of, has_shot_field.
  destruct (doc_lookup "winner_shot" pt) as [v|]; [|done].
  rewrite bool_decide_eq_true_2 by by eexists. done.
Qed.

(** [player_analytics] for a player with at least one match. *)
Lemma player_analytics_closed (rt : Runtime) (player_id : string) :
  oid player_id = Ok p -> matches_of db p <> [] ->
  player_analytics rt (Some db) player_id
  = Ok {| player := default VNull (player_name db p);
          totals :=
            {| points_won :=
                 Z.of_nat (List.length (List.filter (scored_by p) (points_of db p)));
               points_lost :=
                 Z.of_nat (List.length
                             (List.filter (fun pt => negb (scored_by p pt))
                                          (points_of db p)));
               avg_rally := avg_rally_of (points_of db p) |};
          shot_distribution := shot_distribution_of db p;
          matches := Z.of_nat (List.length (matches_of db p)) |}.
Proof.
  intros Hoid Hne. unfold player_analytics. cbn [require_db bind]. rewrite Hoid.
  cbn [bind]. rewrite (find_matches_of db Hwf), (match_ids_of db Hwf).
  cbn [bind]. destruct (matches_of db p) as [|m ms] eqn:E; [done|].
  cbn [map]. rewrite <- E.
  change (doc_get "_id" m :: map (doc_get "_id") ms)
    with (map (doc_get "_id") (m :: ms)). rewrite <- E.
  unfold count_documents.
  rewrite (find_points_won db Hwf), (find_points_lost db Hwf).
  rewrite (avg_pipeline db Hwf). cbn [bind].
  rewrite shots_pipeline. cbn [bind].
  assert (Hnames : Forall (fun wn : string * Z => fst wn <> "")
                     (sort_by shot_row_le (shot_pairs (shots_of db p)))).
  { eapply Forall_forall. intros wn Hwn. apply list_elem_of_In, sort_by_In in Hwn.
    pose proof (shot_names_nonempty _ shots_of_record) as H.
    rewrite Forall_forall in H. by apply H, list_elem_of_In. }
  pose proof (shot_dict_rows _ [] Hnames) as Hsd. cbn [map] in Hsd. rewrite Hsd.
  cbn [bind]. rewrite (name_of_find_one db Hwf).
  destruct (points_of db p) as [|pt pts]; done.
Qed.
End PlayerShots.

(** C2.  For a player with at least one match, [player_analytics] counts
    as points won the points of the player's matches that the player
    scored, as points lost the points of the same matches that anyone else
    scored, and gives as average rally the mean rally length of all the
    points of those matches, whoever scored them.  The points of the
    player's matches are the stored points whose match is a stored match
    that has the player on one of its two sides. *)
Theorem player_analytics_totals (rt : Runtime) (db : Database)
    (player_id : string) (p : ObjectId) :
  wf_db db ->
  oid player_id = Ok p ->
  matches_of db p <> [] ->
  (exists shots,
     player_analytics rt (Some db) player_id
     = Ok {| player := default VNull (player_name db p);
             totals :=
               {| points_won :=
                    Z.of_nat (List.length (List.filter (scored_by p) (points_of db p)));
                  points_lost :=
                    Z.of_nat (List.length
                                (List.filter (fun pt => negb (scored_by p pt))
                                             (points_of db p)));
                  avg_rally := avg_rally_of (points_of db p) |};
             shot_distribution := shots;
             matches := Z.of_nat (List.length (matches_of db p)) |}) /\
  (forall pt, In pt (points_of db p) <->
     In pt (collection db "point") /\
     exists m i, In m (collection db "match") /\
                 (oid_field "player_a_id" m = Some p \/ oid_field "player_b_id" m = Some p) /\
                 oid_field "_id" m = Some i /\ oid_field "match_id" pt = Some i) /\
  (forall pt, In pt (points_of db p) ->
     scored_by p pt = true <-> oid_field "scorer_id" pt = Some p) /\
  (avg_rally_of (points_of db p)
   = match points_of db p with
     | [] => VNull
     | pts => VFloat (Qred (Qsum (map rally_of pts) / inject_Z (Z.of_nat (List.length pts))))
     end).
Proof.
  intros Hwf Hoid Hne. split; [|split; [|split]].
  - eexists. by apply player_analytics_closed.
  - intros pt. unfold points_of, matches_of. rewrite filter_In. unfold point_in.
    rewrite existsb_exists. split.
    + intros (Hpt & m & Hm & Hi). apply filter_In in Hm as [Hm Hp]. split; [done|].
      destruct (oid_field "_id" m) as [i|] eqn:E; [|done].
      exists m, i. split; [done|]. split; [|split; [done | by apply has_oid_true]].
      unfold plays_in in Hp. apply orb_prop in Hp as [Hp|Hp]; apply has_oid_true in Hp; auto.
    + intros (Hpt & m & i & Hm & Hp & Hi & Hmi). split; [done|]. exists m. split.
      * apply filter_In. split; [done|]. unfold plays_in.
        destruct Hp as [Hp|Hp]; apply has_oid_true in Hp; rewrite Hp; by rewrite ?orb_true_r.
      * rewrite Hi. by apply has_oid_true.
  - intros pt _. apply has_oid_true.
  - unfold avg_rally_of, mean. rewrite length_map. by destruct (points_of db p).
Qed.

Lemma player_analytics_totals_witness :
  exists shots,
    player_analytics sample_rt (Some sample_db) (id_text 1)
    = Ok {| player := VStr "ann";
            totals := {| points_won := 3; points_lost := 5; avg_rally := VFloat 6 |};
            shot_distribution := shots;
            matches := 3 |}.
Proof.
  destruct (player_analytics_totals sample_rt sample_db (id_text 1) (id_bytes 1))
    as [[shots H] _].
  - exact sample_db_wf.
  - reflexivity.
  - vm_compute. discriminate.
  - exists shots. rewrite H. vm_compute. reflexivity.
Defined.

(** ** Writing to the database *)

Lemma collection_insert_eq (db : Database) (name : string) (l : list document) :
  collection (<[name := l]> db) name = l.
Proof. unfold collection. by rewrite lookup_insert_eq. Qed.

Lemma collection_insert_ne (db : Database) (name other : string) (l : list document) :
  name <> other -> collection (<[name := l]> db) other = collection db other.
Proof. intros H. unfold collection. by rewrite lookup_insert_ne. Qed.

Lemma insert_one_Ok (db : Database) (name : string) (new_id : ObjectId)
    (data : document) (r : ObjectId * Database) :
  insert_one db name new_id data = Ok r ->
  r = (new_id, <[name := collection db name ++ [("_id", VOid new_id) :: data]]> db) /\
  Forall (fun d => oid_field "_id" d <> Some new_id) (collection db name).
Proof.
  unfold insert_one.
  destruct (existsb _ (collection db name)) eqn:E; [done|]. intros [= <-]. split; [done|].
  apply Forall_forall. intros d Hd Hid.
  assert (Hex : existsb (fun d => mongo_eqb (doc_get "_id" d) (VOid new_id))
                        (collection db name) = true).
  { apply existsb_exists. exists d. split; [by apply list_elem_of_In|].
    apply oid_field_lookup in Hid. unfold doc_get. rewrite Hid. simpl.
    apply bytes_eqb_refl. }
  congruence.
Qed.

Lemma NoDup_ids_snoc (l : list document) (d : document) (i : ObjectId) :
  NoDup (map (oid_field "_id") l) ->
  Forall (fun d' => oid_field "_id" d' <> Some i) l ->
  oid_field "_id" d = Some i ->
  NoDup (map (oid_field "_id") (l ++ [d])).
Proof.
  intros Hnd Hnew Hd. rewrite map_app. apply NoDup_app. split; [done|].
  split; [|apply NoDup_singleton]. simpl. intros o Ho Ho'.
  apply list_elem_of_singleton in Ho'. subst o. rewrite Hd in Ho.
  apply list_elem_of_In, in_map_iff in Ho as (d' & Hd' & Hin).
  rewrite Forall_forall in Hnew. apply (Hnew d'); [by apply list_elem_of_In | done].
Qed.

Lemma point_doc_wf (new_id m s : ObjectId) (pt : Point.t) :
  wf_point (point_doc new_id m s pt) = true.
Proof. unfold point_doc. destruct (Point.winner_shot pt) as [[]|]; reflexivity. Qed.

Lemma point_doc_shot (new_id m s : ObjectId) (pt : Point.t) :
  doc_lookup "winner_shot" (point_doc new_id m s pt)
  = (fun w => VStr (Shot_str w)) <$> Point.winner_shot pt.
Proof. unfold point_doc. by destruct (Point.winner_shot pt). Qed.

(** [create_point] appends one document to the points, [point_doc], and
    touches nothing else; the invariant of the database is kept. *)
Lemma create_point_Ok (db : Database) (new_id : ObjectId) (pt : Point.t)
    (resp : document) (db' : Database) :
  create_point (Some db) new_id pt = Ok (resp, db') ->
  exists m s,
    oid (Point.match_id pt) = Ok m /\ oid (Point.scorer_id pt) = Ok s /\
    resp = [("id", VStr (str_ObjectId new_id))] /\
    db' = <["point" := collection db "point" ++ [point_doc new_id m s pt]]> db /\
    Forall (fun d => oid_field "_id" d <> Some new_id) (collection db "point").
Proof.
  unfold create_point. cbn [require_db bind].
  destruct (oid (Point.match_id pt)) as [m|] eqn:Em; [|done]. cbn [bind].
  destruct (oid (Point.scorer_id pt)) as [s|] eqn:Es; [|done]. cbn [bind].
  destruct (insert_one _ _ _ _) as [r|] eqn:Ei; [|done]. cbn [bind].
  apply insert_one_Ok in Ei as [-> Hfresh]. intros [= <- <-].
  exists m, s. repeat split; try done.
  unfold point_doc. by destruct (Point.winner_shot pt).
Qed.

Lemma create_point_wf (db : Database) (new_id : ObjectId) (pt : Point.t)
    (resp : document) (db' : Database) :
  wf_db db -> create_point (Some db) new_id pt = Ok (resp, db') -> wf_db db'.
Proof.
  intros Hwf H. apply create_point_Ok in H as (m & s & _ & _ & _ & -> & Hfresh).
  destruct Hwf as [H1 H2 H3 H4 H5 H6].
  split; rewrite ?collection_insert_eq, ?collection_insert_ne by done; try done.
  - apply Forall_app. split; [done|]. constructor; [apply point_doc_wf | constructor].
  - by apply (NoDup_ids_snoc _ _ new_id).
Qed.

Lemma create_point_matches_of (db : Database) (l : list document) (q : ObjectId) :
  matches_of (<["point" := l]> db) q = matches_of db q.
Proof. unfold matches_of. by rewrite collection_insert_ne. Qed.

Lemma create_point_points_of (db : Database) (d : document) (q : ObjectId) :
  points_of (<["point" := collection db "point" ++ [d]]> db) q
  = points_of db q ++ (if point_in (matches_of db q) d then [d] else []).
Proof.
  unfold points_of. rewrite create_point_matches_of, collection_insert_eq.
  rewrite List.filter_app. simpl. by destruct (point_in (matches_of db q) d).
Qed.

(** The shot distribution that [player_analytics] returns. *)
Lemma shots_in_closed (rt : Runtime) (db : Database) (player_id : string) :
  wf_db db ->
  shots_in (player_analytics rt (Some db) player_id)
  = match oid player_id with
    | Ok q => Ok (match matches_of db q with
                  | [] => []
                  | _ => shot_distribution_of db q
                  end)
    | Raise e => Raise e
    end.
Proof.
  intros Hwf. destruct (oid player_id) as [q|e] eqn:Hoid.
  - destruct (matches_of db q) as [|m ms] eqn:E.
    + by rewrite (player_analytics_empty db Hwf rt player_id q Hoid E).
    + rewrite (player_analytics_closed db Hwf q rt player_id Hoid); [done|].
      by rewrite E.
  - unfold player_analytics. cbn [require_db bind]. by rewrite Hoid.
Qed.

Lemma point_doc_fields (new_id m s : ObjectId) (pt : Point.t) :
  oid_field "match_id" (point_doc new_id m s pt) = Some m /\
  oid_field "scorer_id" (point_doc new_id m s pt) = Some s.
Proof. by split. Qed.

Lemma shot_count_snoc (db : Database) (d : document) (q : ObjectId) (w : string) :
  shot_count (<["point" := collection db "point" ++ [d]]> db) q w
  = shot_count db q w
    + (if point_in (matches_of db q) d && scored_by q d && won_with w d then 1 else 0).
Proof.
  unfold shot_count. rewrite create_point_points_of.
  destruct (point_in (matches_of db q) d); simpl; [|rewrite app_nil_r; lia].
  rewrite !List.filter_app. simpl.
  destruct (scored_by q d); simpl; [|rewrite app_nil_r; lia].
  destruct (won_with w d); simpl; rewrite ?app_nil_r, ?length_app; simpl; lia.
Qed.

Lemma shots_of_snoc_same (db : Database) (d : document) (q : ObjectId) :
  point_in (matches_of db q) d && scored_by q d && has_shot_field d = false ->
  shots_of (<["point" := collection db "point" ++ [d]]> db) q = shots_of db q.
Proof.
  intros H. unfold shots_of. rewrite create_point_points_of.
  destruct (point_in (matches_of db q) d); simpl in *; [|by rewrite app_nil_r].
  rewrite !List.filter_app. simpl.
  destruct (scored_by q d); simpl in *; [|by rewrite app_nil_r].
  rewrite H. by rewrite app_nil_r.
Qed.

Lemma shots_in_snoc_same (rt : Runtime) (db : Database) (d : document)
    (player_id : string) :
  wf_db db -> wf_db (<["point" := collection db "point" ++ [d]]> db) ->
  (forall q, oid player_id = Ok q ->
     point_in (matches_of db q) d && scored_by q d && has_shot_field d = false) ->
  shots_in (player_analytics rt (Some (<["point" := collection db "point" ++ [d]]> db))
              player_id)
  = shots_in (player_analytics rt (Some db) player_id).
Proof.
  intros Hwf Hwf' H. rewrite !shots_in_closed by done.
  destruct (oid player_id) as [q|]; [|done].
  rewrite create_point_matches_of. unfold shot_distribution_of.
  by rewrite (shots_of_snoc_same db d q (H q eq_refl)).
Qed.

Lemma point_in_matches_of (db : Database) (s m : ObjectId) (d : document) :
  oid_field "match_id" d = Some m ->
  point_in (matches_of db s) d = true <->
  exists mt, In mt (collection db "match") /\ oid_field "_id" mt = Some m /\
             plays_in s mt = true.
Proof.
  intros Hd. unfold point_in, matches_of. rewrite existsb_exists. split.
  - intros (mt & Hin & Hi). apply filter_In in Hin as [Hin Hp]. exists mt.
    destruct (oid_field "_id" mt) as [i|]; [|done].
    apply has_oid_true in Hi. rewrite Hd in Hi. by injection Hi as ->.
  - intros (mt & Hin & Hi & Hp). exists mt. split; [by apply filter_In|].
    rewrite Hi. by apply has_oid_true.
Qed.

(** C5 (as amended).  [create_point] stores one more point.  When the
    request has no [winner_shot], the stored document has no such field,
    and the shot distribution of every player is what it was.  When the
    request has the shot [w], the stored document records it, and, for
    the scorer: the count of [w] in the scorer's shot distribution grows
    by exactly 1, the other counts staying as they were, when the point's
    match is a stored match that has the scorer on one of its sides; when
    it is not, the distribution is what it was. *)
Theorem create_point_shot_distribution (rt : Runtime) (db : Database)
    (new_id : ObjectId) (pt : Point.t) (resp : document) (db' : Database) :
  wf_db db ->
  create_point (Some db) new_id pt = Ok (resp, db') ->
  exists (m s : ObjectId) (d : document),
    oid (Point.match_id pt) = Ok m /\ oid (Point.scorer_id pt) = Ok s /\
    collection db' "point" = collection db "point" ++ [d] /\
    (Point.winner_shot pt = None ->
       doc_lookup "winner_shot" d = None /\
       forall player_id,
         shots_in (player_analytics rt (Some db') player_id)
         = shots_in (player_analytics rt (Some db) player_id)) /\
    (forall w, Point.winner_shot pt = Some w ->
       doc_lookup "winner_shot" d = Some (VStr (Shot_str w)) /\
       forall player_id, oid player_id = Ok s ->
         ((exists mt, In mt (collection db "match") /\ oid_field "_id" mt = Some m /\
                      plays_in s mt = true) ->
          exists sd sd',
            shots_in (player_analytics rt (Some db) player_id) = Ok sd /\
            shots_in (player_analytics rt (Some db') player_id) = Ok sd' /\
            dist_count sd' (Shot_str w) = dist_count sd (Shot_str w) + 1 /\
            forall w', w' <> Shot_str w -> dist_count sd' w' = dist_count sd w') /\
         (~ (exists mt, In mt (collection db "match") /\ oid_field "_id" mt = Some m /\
                        plays_in s mt = true) ->
          shots_in (player_analytics rt (Some db') player_id)
          = shots_in (player_analytics rt (Some db) player_id))).
Proof.
  intros Hwf Hcreate. pose proof (create_point_wf _ _ _ _ _ Hwf Hcreate) as Hwf'.
  apply create_point_Ok in Hcreate as (m & s & Hm & Hs & _ & -> & _).
  set (d := point_doc new_id m s pt) in *.
  exists m, s, d. split; [done|]. split; [done|].
  split; [apply collection_insert_eq|]. split.
  - intros Hnone. assert (Hd : doc_lookup "winner_shot" d = None).
    { unfold d. by rewrite point_doc_shot, Hnone. }
    split; [done|]. intros player_id. apply shots_in_snoc_same; try done.
    intros q _. unfold has_shot_field. rewrite Hd.
    rewrite bool_decide_eq_false_2; [by rewrite andb_false_r | by intros [? ?]].
  - intros w Hw. assert (Hd : doc_lookup "winner_shot" d = Some (VStr (Shot_str w))).
    { unfold d. by rewrite point_doc_shot, Hw. }
    split; [done|]. intros player_id Hoid.
    pose proof (point_in_matches_of db s m d eq_refl) as Hin. split.
    + intros Hmt. apply Hin in Hmt.
      assert (Hne : matches_of db s <> []).
      { intros E. rewrite E in Hmt. done. }
      rewrite !shots_in_closed by done. rewrite Hoid, create_point_matches_of.
      assert (Hsome : forall X : list (value * value),
                match matches_of db s with [] => [] | _ => X end = X).
      { intros X. by destruct (matches_of db s). }
      rewrite !Hsome.
      eexists _, _. split; [reflexivity|]. split; [reflexivity|].
      assert (Hwon : won_with (Shot_str w) d = true).
      { unfold won_with, shot_of. rewrite Hd. apply String.eqb_refl. }
      assert (Hsc : scored_by s d = true) by (apply has_oid_true; reflexivity).
      split.
      * rewrite !dist_count_of by done.
        rewrite shot_count_snoc, Hmt, Hsc, Hwon. done.
      * intros w' Hw'. rewrite !dist_count_of by done.
        rewrite shot_count_snoc, Hmt, Hsc.
        unfold won_with, shot_of. rewrite Hd.
        destruct (String.eqb_spec (Shot_str w) w'); [congruence | simpl; lia].
    + intros Hno. apply shots_in_snoc_same; try done.
      intros q Hq. rewrite Hoid in Hq. injection Hq as <-.
      destruct (point_in (matches_of db s) d) eqn:E; [|done].
      destruct Hno. by apply Hin.
Qed.

Lemma create_point_shot_distribution_witness :
  exists sd sd',
    shots_in (player_analytics sample_rt (Some sample_db) (id_text 1)) = Ok sd /\
    shots_in (player_analytics sample_rt
                (Some (after (create_point (Some sample_db) (id_bytes 31) dink_point)))
                (id_text 1)) = Ok sd' /\
    dist_count sd' "dink" = dist_count sd "dink" + 1.
Proof.
  destruct (create_point_shot_distribution sample_rt sample_db (id_bytes 31) dink_point
              [("id", VStr (id_text 31))]
              (after (create_point (Some sample_db) (id_bytes 31) dink_point)))
    as (m & s & d & Hm & Hs & _ & _ & H).
  - exact sample_db_wf.
  - vm_compute. reflexivity.
  - vm_compute in Hm, Hs. injection Hm as <-. injection Hs as <-.
    destruct (H dink eq_refl) as [_ H']. destruct (H' (id_text 1) eq_refl) as [H'' _].
    destruct H'' as (sd & sd' & H1 & H2 & H3 & _).
    + exists (nth 0 (collection sample_db "match") []).
      split; [vm_compute; left; reflexivity | split; reflexivity].
    + exists sd, sd'. split; [exact H1|]. split; [exact H2 | exact H3].
Defined.

(** C5, as the specification words it, fails: a point with the shot "dink"
    whose match is not a match of its scorer (here it is not stored at
    all) is created, and the count of "dink" in the scorer's shot
    distribution stays what it was. *)
Lemma stray_dink_not_counted :
  let db' := after (create_point (Some sample_db) (id_bytes 31) stray_dink_point) in
  is_Ok (create_point (Some sample_db) (id_bytes 31) stray_dink_point) = true /\
  shots_in (player_analytics sample_rt (Some sample_db) (id_text 1))
  = Ok [(VStr "dink", VInt 1); (VStr "drive", VInt 1)] /\
  shots_in (player_analytics sample_rt (Some db') (id_text 1))
  = Ok [(VStr "dink", VInt 1); (VStr "drive", VInt 1)].
Proof. vm_compute. repeat split. Qed.

(** ** The leaderboard *)

Lemma at_most_one_key {A : Type} (key : A -> option ObjectId) (p : ObjectId) (l : list A) :
  NoDup (map key l) ->
  let found := List.filter (fun y => match key y with
                                     | Some o => bytes_eqb o p
                                     | None => false
                                     end) l in
  found = [] \/ exists x, found = [x].
Proof.
  intros Hnd found. destruct found as [|x rest] eqn:E; [by left|]. right. exists x.
  assert (Hx : In x found) by (rewrite E; by left).
  unfold found in Hx. apply filter_In in Hx as [Hin Hk].
  destruct (key x) as [o|] eqn:Ek; [|done]. apply bytes_eqb_eq in Hk as ->.
  rewrite <- E. unfold found. by apply filter_unique_key; [|apply list_elem_of_In|].
Qed.

Section Leaderboard.
Context (rt : Runtime) (db : Database) (Hwf : wf_db db).

Lemma joined_player (s : ObjectId) :
  List.filter (fun f => field_equals (doc_lookup "_id" f) (VOid s)) (collection db "player")
  = List.filter (has_oid "_id" s) (collection db "player").
Proof.
  apply filter_ext_Forall, Forall_forall. intros d Hd.
  by apply field_equals_oid, (wf_player_fields db Hwf).
Qed.

Lemma joined_player_cases (s : ObjectId) :
  List.filter (has_oid "_id" s) (collection db "player") = [] \/
  exists pd, List.filter (has_oid "_id" s) (collection db "player") = [pd].
Proof. apply (at_most_one_key (oid_field "_id") s), (wf_player_ids db Hwf). Qed.

(** The stages of the leaderboard after the grouping, on the row of one
    scorer: the row gets the identifier as text and the player's name. *)
Lemma board_stages_row (s : ObjectId) (n : Z) (a : value) :
  mapM (project_doc rt [("player_id", P_expr (E_toString (E_field ["_id"])));
                        ("name", P_expr (E_field ["player"; "name"]));
                        ("points_won", P_include);
                        ("avg_rally", P_include)])
       (unwind_stage "player" true
          (lookup_stage db "player" "_id" "_id" "player"
             [[("_id", VOid s); ("points_won", VInt n); ("avg_rally", a)]]))
  = Ok [[("_id", VOid s); ("points_won", VInt n); ("avg_rally", a);
         ("player_id", VStr (str_ObjectId s))]
        ++ match player_name db s with
           | Some nm => [("name", nm)]
           | None => []
           end].
Proof.
  unfold lookup_stage. cbn [map].
  change (doc_get "_id" [("_id", VOid s); ("points_won", VInt n); ("avg_rally", a)])
    with (VOid s).
  rewrite joined_player. unfold player_name.
  destruct (joined_player_cases s) as [E|[pd E]]; rewrite E.
  - reflexivity.
  - cbn. by destruct (doc_lookup "name" pd).
Qed.

Lemma mapM_app {A B : Type} (f : A -> result B) (u v : list A) :
  mapM f (u ++ v) = (let* a := mapM f u in let* b := mapM f v in Ok (a ++ b)).
Proof.
  induction u as [|x u IH]; simpl.
  - by destruct (mapM f v).
  - destruct (f x); simpl; [|done]. rewrite IH.
    destruct (mapM f u); simpl; [|done]. by destruct (mapM f v).
Qed.

Lemma board_stages (ss : list ObjectId) (n : ObjectId -> Z) (a : ObjectId -> value) :
  mapM (project_doc rt board_spec)
       (unwind_stage "player" true
          (lookup_stage db "player" "_id" "_id" "player"
             (map (fun s => [("_id", VOid s); ("points_won", VInt (n s));
                             ("avg_rally", a s)]) ss)))
  = Ok (map (fun s => [("_id", VOid s); ("points_won", VInt (n s)); ("avg_rally", a s);
                       ("player_id", VStr (str_ObjectId s))]
                      ++ match player_name db s with
                         | Some nm => [("name", nm)]
                         | None => []
                         end) ss).
Proof.
  induction ss as [|s ss IH]; [done|].
  pose proof (board_stages_row s (n s) (a s)) as Hrow.
  unfold lookup_stage, unwind_stage in *. cbn [map flat_map] in *.
  rewrite app_nil_r in Hrow. rewrite mapM_app. unfold board_spec in *.
  rewrite Hrow, IH. reflexivity.
Qed.

Lemma scorer_keys :
  map (simple_key (E_field ["scorer_id"])) (collection db "point")
  = map VOid (omap (oid_field "scorer_id") (collection db "point")).
Proof.
  pose proof (wf_point_fields db Hwf) as H.
  induction (collection db "point") as [|d ds IH]; [done|].
  destruct (H d) as (_ & _ & [s Hs] & _); [by left|].
  cbn [map]. rewrite IH by (intros; apply H; by right).
  change (omap (oid_field "scorer_id") (d :: ds)) with
    (match oid_field "scorer_id" d with
     | Some y => y :: omap (oid_field "scorer_id") ds
     | None => omap (oid_field "scorer_id") ds
     end).
  rewrite Hs. apply oid_field_lookup in Hs. unfold simple_key. cbn. by rewrite Hs.
Qed.

Lemma scorer_members (s : ObjectId) :
  List.filter (fun d => mongo_eqb (simple_key (E_field ["scorer_id"]) d) (VOid s))
              (collection db "point")
  = points_by db s.
Proof.
  unfold points_by. apply filter_ext_Forall, Forall_forall. intros d Hd.
  destruct (wf_point_fields db Hwf d Hd) as (_ & _ & [o Ho] & _).
  unfold scored_by, has_oid. rewrite Ho. apply oid_field_lookup in Ho.
  unfold simple_key. cbn. by rewrite Ho.
Qed.

Lemma points_by_rally (s : ObjectId) :
  Forall (fun d => is_Some (int_field "rally_length" d)) (points_by db s).
Proof.
  apply Forall_forall. intros d Hd. apply list_elem_of_In, filter_In in Hd as [Hd _].
  by apply (wf_point_fields db Hwf), list_elem_of_In.
Qed.

Lemma board_group_rows :
  group_rows (E_field ["scorer_id"])
    [("points_won", A_sum (E_const (VInt 1)));
     ("avg_rally", A_avg (E_field ["rally_length"]))]
    (collection db "point")
  = map (fun s => [("_id", VOid s);
                   ("points_won", VInt (Z.of_nat (List.length (points_by db s))));
                   ("avg_rally", avg_rally_of (points_by db s))])
        (scorers db).
Proof.
  unfold group_rows, scorers. rewrite scorer_keys.
  rewrite (nub_by_map VOid bytes_eqb mongo_eqb) by done.
  rewrite map_map. apply map_ext. intros s. cbn [map fst snd].
  rewrite scorer_members, sum_ones. by rewrite avg_rally_length by apply points_by_rally.
Qed.

(** The rows of the leaderboard before they are ranked: one per scorer. *)
Lemma board_rows :
  run_pipeline rt db
    [ S_group (E_field ["scorer_id"])
        [("points_won", A_sum (E_const (VInt 1)));
         ("avg_rally", A_avg (E_field ["rally_length"]))];
      S_lookup "player" "_id" "_id" "player";
      S_unwind "player" true;
      S_project board_spec ]
    (collection db "point")
  = Ok (map (board_row db) (scorers db)).
Proof.
  cbn [run_pipeline run_stage bind]. rewrite group_stage_simple by done.
  cbn [bind]. rewrite board_group_rows.
  rewrite (board_stages (scorers db)
             (fun s => Z.of_nat (List.length (points_by db s)))
             (fun s => avg_rally_of (points_by db s))).
  reflexivity.
Qed.
End Leaderboard.

Lemma run_pipeline_app (rt : Runtime) (db : Database) (p1 p2 : list stage)
    (ds : list document) :
  run_pipeline rt db (p1 ++ p2) ds
  = (let* x := run_pipeline rt db p1 ds in run_pipeline rt db p2 x).
Proof.
  revert ds. induction p1 as [|s p1 IH]; intros ds; simpl; [done|].
  destruct (run_stage rt db s ds); simpl; [apply IH | done].
Qed.

Lemma limit_in_range (limit : Z) :
  1 <= limit <= int64_max ->
  (int64_min <=? limit) && (limit <=? int64_max) = true /\ (0 <? limit) = true.
Proof.
  intros [H1 H2]. split; [|by apply Z.ltb_lt; lia].
  apply andb_true_intro. split; apply Z.leb_le; [|done].
  unfold int64_min. lia.
Qed.

Lemma board_row_won (db : Database) (s : ObjectId) :
  doc_get "points_won" (board_row db s) = VInt (Z.of_nat (List.length (points_by db s)))
  /\ won_of (board_row db s) = Z.of_nat (List.length (points_by db s)).
Proof. by split. Qed.

Lemma doc_le_points_won (x y : document) (n m : Z) :
  doc_get "points_won" x = VInt n -> doc_get "points_won" y = VInt m ->
  doc_le [("points_won", -1)] x y = (m <=? n).
Proof.
  intros Hx Hy. unfold doc_le, compare_docs. rewrite Hx, Hy. cbn.
  destruct (Z.compare_spec n m), (Z.leb_spec m n); simpl; try done; lia.
Qed.

Lemma ranked_by_points_won (db : Database) (ss : list ObjectId) :
  StronglySorted (fun r1 r2 => won_of r2 <= won_of r1)
    (sort_by (doc_le [("points_won", -1)]) (map (board_row db) ss)).
Proof.
  apply sort_by_sorted.
  - intros x y Hx Hy. apply in_map_iff in Hx as (s1 & <- & _).
    apply in_map_iff in Hy as (s2 & <- & _).
    rewrite (doc_le_points_won _ _ _ _ (proj1 (board_row_won db s1))
               (proj1 (board_row_won db s2))).
    rewrite !(proj2 (board_row_won db _)). by intros ?%Z.leb_le.
  - intros x y Hx Hy. apply in_map_iff in Hx as (s1 & <- & _).
    apply in_map_iff in Hy as (s2 & <- & _).
    rewrite (doc_le_points_won _ _ _ _ (proj1 (board_row_won db s1))
               (proj1 (board_row_won db s2))).
    rewrite !(proj2 (board_row_won db _)). intros ?%Z.leb_gt. lia.
  - intros a b c. lia.
Qed.

Lemma leaderboard_closed (rt : Runtime) (db : Database) (limit : Z) :
  wf_db db -> 1 <= limit <= int64_max ->
  leaderboard rt (Some db) (Some limit)
  = Ok (firstn (Z.to_nat limit)
          (sort_by (doc_le [("points_won", -1)]) (map (board_row db) (scorers db)))).
Proof.
  intros Hwf Hlimit. destruct (limit_in_range limit Hlimit) as [E1 E2].
  unfold leaderboard, aggregate, leaderboard_pipeline. cbn [require_db bind].
  change (default 10 (Some limit)) with limit.
  cbn [forallb stage_encodes stage_parses andb]. rewrite E1, E2. cbn [negb andb].
  pose proof (board_rows rt db Hwf) as Hrows. unfold board_spec in Hrows.
  match goal with
  | |- context [run_pipeline rt db (?a :: ?b :: ?c :: ?d :: ?rest) ?ds] =>
      change (run_pipeline rt db (a :: b :: c :: d :: rest) ds)
        with (run_pipeline rt db ([a; b; c; d] ++ rest) ds)
  end.
  rewrite run_pipeline_app, Hrows. reflexivity.
Qed.

(** X20.  What the handler of the leaderboard returns, before FastAPI
    encodes it.  For a limit from 1 to the largest 8-byte integer (10 when
    the request gives none), it is the list of the first [limit]
    rows of a ranking of the scorers: the ranking has one row for each
    identifier that scored a stored point, in an order in which no row has
    fewer points won than a later one; the row of a scorer holds the number
    of points the scorer won, the mean rally length of these points, the
    scorer's identifier as text, and the name of the player with that
    identifier, without a name when there is no such player.  With two
    scorers who won 3 and 5 points, limit 1 gives the row of the scorer
    with 5 points alone. *)
Theorem leaderboard_ranking (rt : Runtime) (db : Database) :
  wf_db db ->
  (forall limit, 1 <= limit <= int64_max ->
     exists ranked,
       leaderboard rt (Some db) (Some limit) = Ok (firstn (Z.to_nat limit) ranked) /\
       Permutation ranked (map (board_row db) (scorers db)) /\
       StronglySorted (fun r1 r2 => won_of r2 <= won_of r1) ranked) /\
  leaderboard rt (Some db) None = leaderboard rt (Some db) (Some 10) /\
  List.NoDup (scorers db) /\
  (forall s, In s (scorers db) <->
     exists pt, In pt (collection db "point") /\ oid_field "scorer_id" pt = Some s) /\
  (forall s pt, In pt (points_by db s) <->
     In pt (collection db "point") /\ oid_field "scorer_id" pt = Some s) /\
  (forall s,
     doc_lookup "points_won" (board_row db s)
     = Some (VInt (Z.of_nat (List.length (points_by db s)))) /\
     doc_lookup "avg_rally" (board_row db s) = Some (avg_rally_of (points_by db s)) /\
     doc_lookup "player_id" (board_row db s) = Some (VStr (str_ObjectId s)) /\
     doc_lookup "name" (board_row db s) = player_name db s) /\
  (forall a b,
     scorers db = [a; b] \/ scorers db = [b; a] ->
     List.length (points_by db a) = 3%nat -> List.length (points_by db b) = 5%nat ->
     leaderboard rt (Some db) (Some 1) = Ok [board_row db b]).
Proof.
  intros Hwf. split; [|split; [|split; [|split; [|split; [|split]]]]].
  - intros limit Hlimit. eexists. split; [by apply leaderboard_closed|].
    split; [apply sort_by_perm | apply ranked_by_points_won].
  - reflexivity.
  - apply nub_by_NoDup, bytes_eqb_eq.
  - intros s. unfold scorers. rewrite (nub_by_In bytes_eqb bytes_eqb_eq).
    rewrite <- list_elem_of_In, list_elem_of_omap. split.
    + intros (pt & Hpt & Hs). exists pt. by rewrite <- list_elem_of_In.
    + intros (pt & Hpt & Hs). exists pt. by rewrite list_elem_of_In.
  - intros s pt. unfold points_by. rewrite filter_In. unfold scored_by.
    by rewrite has_oid_true.
  - intros s. unfold board_row. cbn. by destruct (player_name db s).
  - intros a b Hab Ha Hb.
    rewrite leaderboard_closed by (done || (unfold int64_max; lia)).
    assert (Hle : forall x y, doc_le [("points_won", -1)] (board_row db x) (board_row db y)
                  = (Z.of_nat (List.length (points_by db y))
                     <=? Z.of_nat (List.length (points_by db x)))).
    { intros x y. apply doc_le_points_won; apply board_row_won. }
    destruct Hab as [-> | ->]; cbn [map sort_by fold_right insert_by];
      rewrite Hle, Ha, Hb; reflexivity.
Qed.

Lemma leaderboard_ranking_witness :
  leaderboard sample_rt (Some sample_db) (Some 1) = Ok [board_row sample_db (id_bytes 2)] /\
  doc_lookup "points_won" (board_row sample_db (id_bytes 2)) = Some (VInt 5) /\
  doc_lookup "name" (board_row sample_db (id_bytes 2)) = Some (VStr "bob").
Proof.
  destruct (leaderboard_ranking sample_rt sample_db sample_db_wf)
    as (_ & _ & _ & _ & _ & Hrow & H).
  split; [|split].
  - apply (H (id_bytes 1) (id_bytes 2)); [left|..]; reflexivity.
  - rewrite (proj1 (Hrow (id_bytes 2))). reflexivity.
  - destruct (Hrow (id_bytes 2)) as (_ & _ & _ & ->). reflexivity.
Defined.

(** C3.  The rows that [leaderboard] returns are those of the ranking,
    but the handler returns them as the database gave them: every row
    still holds the ObjectId of its scorer under [_id], which [$project]
    keeps unless told otherwise and which [recent_matches], unlike
    [leaderboard], takes out with [to_serializable].  FastAPI has no
    encoding for such a row; so, with a point stored and a limit that the
    database accepts, the request ends with status 500 and not with the
    ranking. *)
Theorem leaderboard_rows_not_encodable (rt : Runtime) (db : Database) (limit : Z) :
  wf_db db -> 1 <= limit <= int64_max -> collection db "point" <> [] ->
  exists r rows,
    leaderboard rt (Some db) (Some limit) = Ok (r :: rows) /\
    (forall r', In r' (r :: rows) ->
       exists s, In s (scorers db) /\ doc_lookup "_id" r' = Some (VOid s)) /\
    encodes (r :: rows) = false /\
    status_of (leaderboard rt (Some db) (Some limit)) = 500.
Proof.
  intros Hwf Hlimit Hpts. rewrite leaderboard_closed by done.
  set (ranked := sort_by (doc_le [("points_won", -1)]) (map (board_row db) (scorers db))).
  assert (Hin : forall r', In r' ranked -> exists s, In s (scorers db) /\ r' = board_row db s).
  { intros r' Hr'. apply sort_by_In, in_map_iff in Hr' as (s & <- & Hs). by exists s. }
  assert (Hne : ranked <> []).
  { destruct (collection db "point") as [|pt pts] eqn:E; [done|].
    destruct (wf_point_fields db Hwf pt) as (_ & _ & [s Hs] & _); [rewrite E; by left|].
    assert (Hsc : In s (scorers db)).
    { unfold scorers. apply nub_by_In; [apply bytes_eqb_eq|]. rewrite E.
      apply list_elem_of_In, list_elem_of_omap. exists pt. split; [by left | done]. }
    intros Hnil. assert (Hrow : In (board_row db s) ranked).
    { apply sort_by_In, in_map_iff. by exists s. }
    by rewrite Hnil in Hrow. }
  destruct ranked as [|r rest] eqn:Er; [done|].
  destruct (Z.to_nat limit) as [|n] eqn:En; [lia|]. cbn [firstn].
  exists r, (firstn n rest).
  assert (Hrows : forall r', In r' (r :: firstn n rest) ->
            exists s, In s (scorers db) /\ r' = board_row db s).
  { intros r' [<-|Hr']; apply Hin; [by left | right].
    rewrite <- (firstn_skipn n rest). apply in_or_app. by left. }
  assert (Henc : encodes (r :: firstn n rest) = false).
  { destruct (Hrows r (or_introl eq_refl)) as (s & _ & ->). reflexivity. }
  split; [done|]. split; [|split; [done|]].
  - intros r' Hr'. destruct (Hrows r' Hr') as (s & Hs & ->). by exists s.
  - unfold status_of. by rewrite Henc.
Qed.

Lemma leaderboard_rows_not_encodable_witness :
  leaderboard sample_rt (Some sample_db) (Some 1) = Ok [board_row sample_db (id_bytes 2)] /\
  doc_lookup "_id" (board_row sample_db (id_bytes 2)) = Some (VOid (id_bytes 2)) /\
  status_of (leaderboard sample_rt (Some sample_db) (Some 1)) = 500 /\
  status_of (recent_matches sample_rt (Some sample_db) (Some 1)) = 200.
Proof.
  destruct (leaderboard_rows_not_encodable sample_rt sample_db 1)
    as (r & rows & _ & _ & _ & Hstatus).
  - exact sample_db_wf.
  - vm_compute. split; discriminate.
  - vm_compute. discriminate.
  - split; [vm_compute; reflexivity|]. split; [reflexivity|].
    split; [exact Hstatus | vm_compute; reflexivity].
Defined.

(** ** The recent matches *)

Lemma bytes_compare_antisym (a b : list N) :
  bytes_compare a b = CompOpp (bytes_compare b a).
Proof.
  revert b. induction a as [|x a IH]; intros [|y b]; simpl; try done.
  rewrite (N.compare_antisym y x). destruct (N.compare y x); simpl; [apply IH | done | done].
Qed.

Lemma bytes_compare_Lt_trans (a b c : list N) :
  bytes_compare a b = Lt -> bytes_compare b c = Lt -> bytes_compare a c = Lt.
Proof.
  revert b c. induction a as [|x a IH]; intros [|y b] [|z c]; simpl; try done.
  destruct (N.compare_spec x y) as [->|Hxy|Hxy]; try done.
  - destruct (N.compare_spec y z); try done. apply IH.
  - intros _. destruct (N.compare_spec y z) as [->|Hyz|Hyz]; try done.
    + intros _. destruct (N.compare_spec x z); try done; lia.
    + intros _. destruct (N.compare_spec x z); try done; lia.
Qed.

Lemma oid_ge_trans (a b c : ObjectId) : oid_ge a b -> oid_ge b c -> oid_ge a c.
Proof.
  unfold oid_ge. intros Hab Hbc Hac.
  destruct (bytes_compare a b) eqn:E; [| done |].
  - apply bytes_compare_eq in E as ->. done.
  - apply Hbc. apply (bytes_compare_Lt_trans b a c); [|done].
    rewrite bytes_compare_antisym, E. done.
Qed.

Lemma later_trans (a b c : option Z) : later a b -> later b c -> later a c.
Proof. destruct a, b, c; simpl; try done. lia. Qed.

Lemma recent_first_trans (m1 m2 m3 : document) :
  recent_first m1 m2 -> recent_first m2 m3 -> recent_first m1 m3.
Proof.
  unfold recent_first. intros [H12|[E12 H12]] [H23|[E23 H23]].
  - left. by eapply later_trans.
  - left. by rewrite <- E23.
  - left. by rewrite E12.
  - right. split; [congruence | by eapply oid_ge_trans].
Qed.

Section RecentOrder.
Context (db : Database) (Hwf : wf_db db).

Lemma wf_match_keys_of (m : document) :
  In m (collection db "match") ->
  doc_get "_id" m = VOid (id_of m) /\
  (doc_get "started_at" m = VNull /\ started_of m = None \/
   exists t, doc_get "started_at" m = VDate t /\ started_of m = Some t).
Proof.
  intros Hin. apply list_elem_of_In in Hin.
  destruct (wf_match_fields db Hwf m Hin) as ([i Hi] & _). split.
  - unfold id_of, doc_get. rewrite Hi. apply oid_field_lookup in Hi. by rewrite Hi.
  - unfold doc_get, started_of.
    destruct (wf_match_started db Hwf m Hin) as [H|[t H]]; rewrite H;
      [by left | right; by exists t].
Qed.

Lemma doc_le_recent (m1 m2 : document) :
  In m1 (collection db "match") -> In m2 (collection db "match") ->
  (doc_le recent_keys m1 m2 = true -> recent_first m1 m2) /\
  (doc_le recent_keys m1 m2 = false -> recent_first m2 m1).
Proof.
  intros H1 H2.
  destruct (wf_match_keys_of m1 H1) as [Hi1 Hs1], (wf_match_keys_of m2 H2) as [Hi2 Hs2].
  unfold doc_le, recent_keys, compare_docs, recent_first. rewrite Hi1, Hi2.
  assert (Hids :
    (match lex (CompOpp (bson_compare (VOid (id_of m1)) (VOid (id_of m2)))) Eq with
     | Gt => false | _ => true end = true -> oid_ge (id_of m1) (id_of m2)) /\
    (match lex (CompOpp (bson_compare (VOid (id_of m1)) (VOid (id_of m2)))) Eq with
     | Gt => false | _ => true end = false -> oid_ge (id_of m2) (id_of m1))).
  { unfold oid_ge. cbn [bson_compare]. rewrite (bytes_compare_antisym (id_of m2)).
    destruct (bytes_compare (id_of m1) (id_of m2)); simpl; split; done. }
  destruct Hs1 as [[-> ->]|(t1 & -> & ->)], Hs2 as [[-> ->]|(t2 & -> & ->)].
  - cbn [bson_compare CompOpp lex Z.ltb Z.compare]. simpl later.
    split; intros H; right; (split; [done|]); by apply Hids.
  - split; [done|]. intros _. by left.
  - split; [|done]. intros _. by left.
  - cbn [bson_compare Z.ltb Z.compare]. simpl later.
    destruct (Z.compare_spec t1 t2) as [->|Hlt|Hgt]; cbn [CompOpp lex].
    + split; intros H; right; (split; [done|]); by apply Hids.
    + split; [done|]. intros _. by left.
    + split; [|done]. intros _. by left.
Qed.

(** The [$sort] of [recent_matches] orders the matches by [recent_first]. *)
Lemma recent_sorted :
  StronglySorted recent_first (sort_by (doc_le recent_keys) (collection db "match")).
Proof.
  apply sort_by_sorted.
  - intros x y Hx Hy. by apply doc_le_recent.
  - intros x y Hx Hy. by apply doc_le_recent.
  - apply recent_first_trans.
Qed.
End RecentOrder.

Lemma doc_lookup_filter (P : string -> bool) (k : string) (d : document) :
  doc_lookup k (List.filter (fun kv => P (fst kv)) d)
  = if P k then doc_lookup k d else None.
Proof.
  induction d as [|[j w] d IH]; simpl; [by destruct (P k)|].
  destruct (P j) eqn:Ej; simpl.
  - destruct (String.eqb_spec k j) as [->|Hne]; [by rewrite Ej | apply IH].
  - destruct (String.eqb_spec k j) as [->|Hne]; [by rewrite IH, Ej | apply IH].
Qed.

Lemma NoDup_keys_filter (f : string * value -> bool) (d : document) :
  List.NoDup (dict_keys d) -> List.NoDup (dict_keys (List.filter f d)).
Proof.
  induction d as [|[j w] d IH]; simpl; [done|]. intros Hnd.
  apply List.NoDup_cons_iff in Hnd as [Hj Hnd]. destruct (f (j, w)); [|by apply IH].
  simpl. apply List.NoDup_cons; [|by apply IH].
  intros Hin. apply Hj. unfold dict_keys in *. apply in_map_iff in Hin as (kv & <- & Hin).
  apply filter_In in Hin as [Hin _]. by apply in_map.
Qed.

Lemma doc_lookup_set_opt (k k' : string) (o : option value) (d : document) :
  doc_lookup k (set_opt k' o d)
  = if String.eqb k k' then match o with Some v => Some v | None => doc_lookup k d end
    else doc_lookup k d.
Proof.
  destruct o as [v|]; simpl; [apply doc_lookup_set | by destruct (String.eqb k k')].
Qed.

Lemma NoDup_keys_set_opt (k : string) (o : option value) (d : document) :
  List.NoDup (dict_keys d) -> List.NoDup (dict_keys (set_opt k o d)).
Proof. destruct o; simpl; [apply NoDup_keys_set | done]. Qed.

Lemma doc_lookup_unwound (k path : string) (j : list document) (d : document) :
  List.NoDup (dict_keys d) ->
  doc_lookup k (unwound path j d)
  = if String.eqb k path then VDoc <$> head j else doc_lookup k d.
Proof.
  intros Hnd. destruct j as [|pd j]; simpl.
  - rewrite doc_lookup_remove by done. by destruct (String.eqb k path).
  - rewrite doc_lookup_set. by destruct (String.eqb k path).
Qed.

Lemma NoDup_keys_unwound (path : string) (j : list document) (d : document) :
  List.NoDup (dict_keys d) -> List.NoDup (dict_keys (unwound path j d)).
Proof. destruct j; simpl; [apply NoDup_keys_remove | apply NoDup_keys_set]. Qed.

(** [$unwind] on one document whose field holds at most one joined
    document. *)
Lemma unwind_single (path : string) (j : list document) (d : document) :
  doc_lookup path d = Some (VArr (map VDoc j)) ->
  (j = [] \/ exists pd, j = [pd]) ->
  unwind_stage path true [d] = [unwound path j d].
Proof.
  intros Hd Hj. unfold unwind_stage. cbn [flat_map]. rewrite Hd.
  destruct Hj as [->|[pd ->]]; reflexivity.
Qed.

(** The projection of [recent_matches] on one document. *)
Lemma project_recent (rt : Runtime) (d : document) :
  project_doc rt recent_spec d
  = Ok (set_opt "player_b" (get_path ["player_b"; "name"] (VDoc d))
          (set_opt "player_a" (get_path ["player_a"; "name"] (VDoc d))
             (List.filter (fun kv => included recent_spec (fst kv)) d))).
Proof.
  unfold project_doc, recent_spec. cbn [mapM snd fst eval_expr bind].
  destruct (get_path ["player_a"; "name"] (VDoc d)),
           (get_path ["player_b"; "name"] (VDoc d)); reflexivity.
Qed.

(** The serialized document, field by field. *)
Lemma serialized_id (rt : Runtime) (d : document) (i : ObjectId) :
  NoDup (dict_keys d) -> doc_lookup "_id" d = Some (VOid i) ->
  doc_lookup "id" (to_serializable_doc rt d) = Some (VStr (str_ObjectId i)) /\
  doc_lookup "_id" (to_serializable_doc rt d) = None.
Proof.
  intros Hnd Hid. rewrite to_serializable_doc_closed by done.
  apply NoDup_ListNoDup in Hnd.
  assert (E : rename_id rt d = doc_set "id" (VStr (str_ObjectId i)) (doc_remove "_id" d)).
  { unfold rename_id, doc_get. by rewrite Hid. }
  rewrite !doc_lookup_map_values, E, !doc_lookup_set.
  rewrite !doc_lookup_remove by done. split; reflexivity.
Qed.

Lemma serialized_other (rt : Runtime) (d : document) (k : string) :
  NoDup (dict_keys d) -> other_field k = true ->
  doc_lookup k (to_serializable_doc rt d) = stringify rt <$> doc_lookup k d.
Proof.
  intros Hnd Hk. rewrite to_serializable_doc_closed by done.
  apply NoDup_ListNoDup in Hnd.
  by rewrite doc_lookup_map_values, doc_lookup_rename_id_other.
Qed.

Section RecentRows.
Context (rt : Runtime) (db : Database) (Hwf : wf_db db).

Lemma joined_at_cases (k : string) (m : document) :
  joined_at db k m = [] \/ exists pd, joined_at db k m = [pd].
Proof. apply (joined_player_cases db Hwf). Qed.

(** The stages of [recent_matches] after the limit, on one match. *)
Lemma recent_stages_single (m : document) :
  In m (collection db "match") ->
  mapM (project_doc rt recent_spec)
    (unwind_stage "player_b" true
       (unwind_stage "player_a" true
          (lookup_stage db "player" "player_b_id" "_id" "player_b"
             (lookup_stage db "player" "player_a_id" "_id" "player_a" [m]))))
  = Ok [recent_projected db m].
Proof.
  intros Hin. apply list_elem_of_In in Hin.
  destruct (wf_match_fields db Hwf m Hin) as (_ & [a Ha] & [b Hb]).
  pose proof (wf_match_keys db Hwf m Hin) as Hnd. apply NoDup_ListNoDup in Hnd.
  apply oid_field_lookup in Ha as Ha', Hb as Hb'.
  unfold recent_projected.
  set (ja := joined_at db "player_a_id" m). set (jb := joined_at db "player_b_id" m).
  assert (Eja : List.filter (fun f => field_equals (doc_lookup "_id" f)
                                        (doc_get "player_a_id" m))
                  (collection db "player") = ja).
  { unfold doc_get. rewrite Ha'. simpl default. rewrite (joined_player db Hwf).
    unfold ja, joined_at. by rewrite Ha. }
  set (d1 := doc_set "player_a" (VArr (map VDoc ja)) m).
  assert (Ejb : List.filter (fun f => field_equals (doc_lookup "_id" f)
                                        (doc_get "player_b_id" d1))
                  (collection db "player") = jb).
  { unfold doc_get, d1. rewrite doc_lookup_set. cbn [String.eqb Ascii.eqb Bool.eqb].
    rewrite Hb'. simpl default. rewrite (joined_player db Hwf).
    unfold jb, joined_at. by rewrite Hb. }
  unfold lookup_stage. cbn [map]. rewrite Eja. fold d1. rewrite Ejb.
  set (d2 := doc_set "player_b" (VArr (map VDoc jb)) d1).
  assert (Hnd2 : List.NoDup (dict_keys d2)) by by apply NoDup_keys_set, NoDup_keys_set.
  rewrite (unwind_single "player_a" ja d2).
  2:{ unfold d2, d1. rewrite !doc_lookup_set. reflexivity. }
  2:{ apply joined_at_cases. }
  rewrite (unwind_single "player_b" jb (unwound "player_a" ja d2)).
  2:{ rewrite doc_lookup_unwound by done. cbn [String.eqb Ascii.eqb Bool.eqb].
      unfold d2. rewrite doc_lookup_set. reflexivity. }
  2:{ apply joined_at_cases. }
  cbn [mapM]. rewrite project_recent. reflexivity.
Qed.
End RecentRows.

Section RecentRowFacts.
Context (rt : Runtime) (db : Database) (Hwf : wf_db db).
Context (m : document) (Hin : In m (collection db "match")).

Lemma recent_unwound_keys :
  List.NoDup (dict_keys
    (unwound "player_b" (joined_at db "player_b_id" m)
       (unwound "player_a" (joined_at db "player_a_id" m)
          (doc_set "player_b" (VArr (map VDoc (joined_at db "player_b_id" m)))
             (doc_set "player_a" (VArr (map VDoc (joined_at db "player_a_id" m))) m))))).
Proof.
  pose proof (wf_match_keys db Hwf m (proj2 (list_elem_of_In _ _) Hin)) as Hnd.
  apply NoDup_ListNoDup in Hnd.
  by apply NoDup_keys_unwound, NoDup_keys_unwound, NoDup_keys_set, NoDup_keys_set.
Qed.

Lemma recent_projected_keys : NoDup (dict_keys (recent_projected db m)).
Proof.
  apply NoDup_ListNoDup. unfold recent_projected.
  apply NoDup_keys_set_opt, NoDup_keys_set_opt, NoDup_keys_filter, recent_unwound_keys.
Qed.

Lemma recent_projected_kept (k : string) :
  k <> "player_a" -> k <> "player_b" ->
  doc_lookup k (recent_projected db m)
  = if included recent_spec k then doc_lookup k m else None.
Proof.
  intros Ha Hb. apply String.eqb_neq in Ha, Hb.
  pose proof (wf_match_keys db Hwf m (proj2 (list_elem_of_In _ _) Hin)) as Hnd.
  apply NoDup_ListNoDup in Hnd.
  unfold recent_projected. rewrite !doc_lookup_set_opt, Ha, Hb.
  rewrite (doc_lookup_filter (included recent_spec)).
  destruct (included recent_spec k); [|done].
  rewrite !doc_lookup_unwound, Ha, Hb, !doc_lookup_set, Ha, Hb;
    [done | by apply NoDup_keys_set, NoDup_keys_set
          | by apply NoDup_keys_unwound, NoDup_keys_set, NoDup_keys_set].
Qed.

Lemma joined_name (k : string) :
  is_Some (oid_field k m) ->
  (match VDoc <$> head (joined_at db k m) with
   | Some (VDoc d) =>
       match doc_lookup "name" d with
       | Some x => Some x
       | None => None
       end
   | _ => None
   end) = name_at db k m.
Proof.
  intros [p Hp]. unfold name_at, joined_at, player_name. rewrite Hp. simpl default.
  destruct (List.filter (has_oid "_id" p) (collection db "player")) as [|pd j]; [done|].
  simpl. by destruct (doc_lookup "name" pd).
Qed.

Lemma recent_projected_player_a :
  doc_lookup "player_a" (recent_projected db m) = name_at db "player_a_id" m.
Proof.
  destruct (wf_match_fields db Hwf m (proj2 (list_elem_of_In _ _) Hin)) as (_ & Ha & Hb).
  pose proof (wf_match_keys db Hwf m (proj2 (list_elem_of_In _ _) Hin)) as Hnd.
  apply NoDup_ListNoDup in Hnd.
  unfold recent_projected. rewrite !doc_lookup_set_opt.
  cbn [String.eqb Ascii.eqb Bool.eqb].
  rewrite (doc_lookup_filter (included recent_spec)).
  cbn [get_path]. rewrite !doc_lookup_unwound;
    [| by apply NoDup_keys_set, NoDup_keys_set
     | by apply NoDup_keys_unwound, NoDup_keys_set, NoDup_keys_set].
  cbn [String.eqb Ascii.eqb Bool.eqb]. rewrite (joined_name _ Ha).
  change (included recent_spec "player_a") with false.
  by destruct (name_at db "player_a_id" m).
Qed.

Lemma recent_projected_player_b :
  doc_lookup "player_b" (recent_projected db m) = name_at db "player_b_id" m.
Proof.
  destruct (wf_match_fields db Hwf m (proj2 (list_elem_of_In _ _) Hin)) as (_ & Ha & Hb).
  pose proof (wf_match_keys db Hwf m (proj2 (list_elem_of_In _ _) Hin)) as Hnd.
  apply NoDup_ListNoDup in Hnd.
  unfold recent_projected. rewrite !doc_lookup_set_opt.
  cbn [String.eqb Ascii.eqb Bool.eqb].
  rewrite (doc_lookup_filter (included recent_spec)).
  cbn [get_path]. rewrite !doc_lookup_unwound;
    [| by apply NoDup_keys_set, NoDup_keys_set
     | by apply NoDup_keys_unwound, NoDup_keys_set, NoDup_keys_set].
  cbn [String.eqb Ascii.eqb Bool.eqb]. rewrite (joined_name _ Hb).
  change (included recent_spec "player_b") with false.
  by destruct (name_at db "player_b_id" m).
Qed.

(** What [recent_matches] returns for one match. *)
Lemma recent_row_of :
  is_row_of rt db m (to_serializable_doc rt (recent_projected db m)).
Proof.
  pose proof recent_projected_keys as Hnd.
  destruct (wf_match_fields db Hwf m (proj2 (list_elem_of_In _ _) Hin)) as ([i Hi] & _).
  assert (Hid : doc_lookup "_id" (recent_projected db m) = Some (VOid i)).
  { rewrite recent_projected_kept by done. by apply oid_field_lookup. }
  split.
  - unfold id_of. rewrite Hi. by apply serialized_id.
  - by apply (serialized_id rt _ i).
  - rewrite serialized_other by done. by rewrite recent_projected_player_a.
  - rewrite serialized_other by done. by rewrite recent_projected_player_b.
  - rewrite serialized_other by done. by rewrite recent_projected_kept.
  - rewrite serialized_other by done. by rewrite recent_projected_kept.
  - rewrite serialized_other by done. rewrite recent_projected_kept by done.
    destruct (wf_match_started db Hwf m (proj2 (list_elem_of_In _ _) Hin)) as [H|[t H]];
      by rewrite H.
  - rewrite serialized_other by done. by rewrite recent_projected_kept.
Qed.
End RecentRowFacts.

Lemma In_firstn {A : Type} (x : A) (n : nat) (l : list A) :
  In x (firstn n l) -> In x l.
Proof. intros H. rewrite <- (firstn_skipn n l). apply in_or_app. by left. Qed.

Section RecentMatches.
Context (rt : Runtime) (db : Database) (Hwf : wf_db db).

Lemma unwind_stage_app (path : string) (preserve : bool) (u v : list document) :
  unwind_stage path preserve (u ++ v)
  = unwind_stage path preserve u ++ unwind_stage path preserve v.
Proof. unfold unwind_stage. apply flat_map_app. Qed.

Lemma lookup_stage_app (from lf ff as_ : string) (u v : list document) :
  lookup_stage db from lf ff as_ (u ++ v)
  = lookup_stage db from lf ff as_ u ++ lookup_stage db from lf ff as_ v.
Proof. unfold lookup_stage. apply map_app. Qed.

(** The stages of [recent_matches] after the limit: one row per match. *)
Lemma recent_stages (l : list document) :
  (forall m, In m l -> In m (collection db "match")) ->
  mapM (project_doc rt recent_spec)
    (unwind_stage "player_b" true
       (unwind_stage "player_a" true
          (lookup_stage db "player" "player_b_id" "_id" "player_b"
             (lookup_stage db "player" "player_a_id" "_id" "player_a" l))))
  = Ok (map (recent_projected db) l).
Proof.
  induction l as [|m l IH]; intros Hl; [done|].
  change (m :: l) with ([m] ++ l).
  rewrite !lookup_stage_app, !unwind_stage_app, mapM_app.
  rewrite (recent_stages_single rt db Hwf m) by (apply Hl; by left).
  rewrite IH by (intros; apply Hl; by right). reflexivity.
Qed.

Lemma recent_matches_closed (limit : Z) :
  1 <= limit <= int64_max ->
  recent_matches rt (Some db) (Some limit)
  = Ok (map (fun m => to_serializable_doc rt (recent_projected db m))
            (firstn (Z.to_nat limit)
               (sort_by (doc_le recent_keys) (collection db "match")))).
Proof.
  intros Hlimit. destruct (limit_in_range limit Hlimit) as [E1 E2].
  unfold recent_matches, aggregate, recent_matches_pipeline. cbn [require_db bind].
  change (default 10 (Some limit)) with limit.
  cbn [forallb stage_encodes stage_parses andb]. rewrite E1, E2. cbn [negb andb].
  cbn [run_pipeline run_stage bind limit_stage].
  pose proof (recent_stages
                (firstn (Z.to_nat limit)
                   (sort_by (doc_le recent_keys) (collection db "match")))) as H.
  unfold recent_spec, recent_keys, limit_stage in *. rewrite H.
  - cbn [bind]. by rewrite map_map.
  - intros m Hm. apply In_firstn in Hm. by apply sort_by_In in Hm.
Qed.
End RecentMatches.

Lemma Forall2_map_r {A B : Type} (R : A -> B -> Prop) (f : A -> B) (l : list A) :
  (forall x, In x l -> R x (f x)) -> Forall2 R l (map f l).
Proof.
  induction l as [|x l IH]; intros H; simpl; constructor.
  - apply H. by left.
  - apply IH. intros y Hy. apply H. by right.
Qed.

Lemma recent_first_starts (a b : document) (ta tb : Z) :
  started_of a = Some ta -> started_of b = Some tb -> recent_first a b -> tb <= ta.
Proof.
  intros Ha Hb [H|[H _]]; rewrite Ha, Hb in H; simpl in H; [lia | injection H; lia].
Qed.

(** Three matches that started at three different times are ranked from
    the latest to the earliest. *)
Lemma three_matches_ranked (ranked : list document) (m1 m2 m3 : document) (t1 t2 t3 : Z) :
  Permutation ranked [m1; m2; m3] -> StronglySorted recent_first ranked ->
  started_of m1 = Some t1 -> started_of m2 = Some t2 -> started_of m3 = Some t3 ->
  t1 < t2 < t3 ->
  ranked = [m3; m2; m1].
Proof.
  intros Hperm Hsorted H1 H2 H3 Ht.
  assert (Hnd : List.NoDup [m1; m2; m3]).
  { repeat constructor; simpl; intros H; repeat destruct H as [H|H]; try done;
      subst; rewrite ?H1, ?H2, ?H3 in *; simplify_eq; lia. }
  apply (Permutation_NoDup (Permutation_sym Hperm)) in Hnd.
  pose proof (Permutation_length Hperm) as Hlen.
  destruct ranked as [|x [|y [|z [|]]]]; try done. clear Hlen.
  assert (Hx : In x [m1; m2; m3]) by (apply (Permutation_in _ Hperm); simpl; auto).
  assert (Hy : In y [m1; m2; m3]) by (apply (Permutation_in _ Hperm); simpl; auto).
  assert (Hz : In z [m1; m2; m3]) by (apply (Permutation_in _ Hperm); simpl; auto).
  apply StronglySorted_inv in Hsorted as [Hsorted Hxy].
  apply StronglySorted_inv in Hsorted as [_ Hyz].
  apply List.Forall_cons_iff in Hxy as [Hxy Hxz].
  apply List.Forall_cons_iff in Hxz as [Hxz _].
  apply List.Forall_cons_iff in Hyz as [Hyz _].
  apply List.NoDup_cons_iff in Hnd as [Nx Hnd].
  apply List.NoDup_cons_iff in Hnd as [Ny _].
  simpl in Hx, Hy, Hz, Nx, Ny.
  destruct Hx as [<-|[<-|[<-|[]]]], Hy as [<-|[<-|[<-|[]]]], Hz as [<-|[<-|[<-|[]]]];
    try reflexivity; exfalso;
    try (apply Nx; auto; fail); try (apply Ny; auto; fail);
    repeat match goal with
           | H : recent_first ?a ?b |- _ =>
               eapply recent_first_starts in H; [|eassumption|eassumption]
           end; lia.
Qed.

(** C4 (as amended).  For a limit from 1 to the largest 8-byte integer (10
    when the request gives none), [recent_matches] returns one row for
    each of the first [limit] matches of the ranking of all stored matches
    by start, latest first, a match without a start after those that have
    one, and by identifier, greatest first, among matches with the same
    start; the rows come in the order of the ranking, so the limit applies
    after the sort, and there are [limit] of them or, when fewer matches
    are stored, as many as there are matches.  With three stored matches
    that started at t1 < t2 < t3, limit 2 gives the row of the third and
    then the row of the second. *)
Theorem recent_matches_ranking (rt : Runtime) (db : Database) :
  wf_db db ->
  (forall limit, 1 <= limit <= int64_max ->
     exists ranked rows,
       recent_matches rt (Some db) (Some limit) = Ok rows /\
       Permutation ranked (collection db "match") /\
       StronglySorted recent_first ranked /\
       Forall2 (is_row_of rt db) (firstn (Z.to_nat limit) ranked) rows /\
       List.length rows
       = Nat.min (Z.to_nat limit) (List.length (collection db "match"))) /\
  recent_matches rt (Some db) None = recent_matches rt (Some db) (Some 10) /\
  (forall m1 m2 m3 t1 t2 t3,
     Permutation (collection db "match") [m1; m2; m3] ->
     started_of m1 = Some t1 -> started_of m2 = Some t2 -> started_of m3 = Some t3 ->
     t1 < t2 < t3 ->
     exists r3 r2,
       recent_matches rt (Some db) (Some 2) = Ok [r3; r2] /\
       is_row_of rt db m3 r3 /\ is_row_of rt db m2 r2).
Proof.
  intros Hwf. split; [|split; [reflexivity|]].
  2:{ intros m1 m2 m3 t1 t2 t3 Hperm H1 H2 H3 Ht.
      assert (Hranked : sort_by (doc_le recent_keys) (collection db "match") = [m3; m2; m1]).
      { apply (three_matches_ranked _ m1 m2 m3 t1 t2 t3); try done.
        - by rewrite sort_by_perm.
        - by apply recent_sorted. }
      rewrite recent_matches_closed by (done || (unfold int64_max; lia)).
      rewrite Hranked. eexists _, _. split; [reflexivity|].
      split; apply recent_row_of; try done; apply (Permutation_in _ (Permutation_sym Hperm));
        simpl; auto. }
  intros limit Hlimit.
  exists (sort_by (doc_le recent_keys) (collection db "match")). eexists.
  split; [by apply recent_matches_closed|].
  split; [apply sort_by_perm|]. split; [by apply recent_sorted|]. split.
  - apply Forall2_map_r. intros m Hm. apply In_firstn in Hm.
    apply sort_by_In in Hm. by apply recent_row_of.
  - by rewrite length_map, length_firstn, sort_by_length.
Qed.

Lemma recent_matches_ranking_witness :
  exists r3 r2,
    recent_matches sample_rt (Some sample_db) (Some 2) = Ok [r3; r2] /\
    doc_lookup "id" r3 = Some (VStr (id_text 13)) /\
    doc_lookup "id" r2 = Some (VStr (id_text 12)).
Proof.
  destruct (recent_matches_ranking sample_rt sample_db sample_db_wf) as (_ & _ & H).
  destruct (H (nth 0 (collection sample_db "match") [])
              (nth 1 (collection sample_db "match") [])
              (nth 2 (collection sample_db "match") []) 100 200 300)
    as (r3 & r2 & Hrows & H3 & H2).
  - vm_compute. apply Permutation_refl.
  - reflexivity.
  - reflexivity.
  - reflexivity.
  - lia.
  - exists r3, r2. split; [exact Hrows|]. split.
    + rewrite (row_id _ _ _ _ H3). reflexivity.
    + rewrite (row_id _ _ _ _ H2). reflexivity.
Defined.

(** C4, as the specification words it, fails: for the limit 0
    [recent_matches] does not return the empty list of the 0 most recent
    matches; the database refuses the pipeline and the handler ends with an
    exception, a 500 response. *)
Lemma recent_matches_limit_zero :
  recent_matches sample_rt (Some sample_db) (Some 0)
  = Raise (OperationFailure "the limit must be positive") /\
  status_of (recent_matches sample_rt (Some sample_db) (Some 0)) = 500.
Proof. split; reflexivity. Qed.

(** ** The invariant of the database *)

Lemma wf_db_empty : wf_db ∅.
Proof. split; unfold collection; rewrite lookup_empty; simpl; constructor. Qed.

Lemma create_player_wf (db : Database) (new_id : ObjectId) (player : Player.t)
    (resp : document) (db' : Database) :
  wf_db db -> create_player (Some db) new_id player = Ok (resp, db') -> wf_db db'.
Proof.
  intros Hwf. unfold create_player, create_document. cbn [require_db bind].
  destruct (insert_one _ _ _ _) as [r|] eqn:Ei; [|done]. cbn [bind].
  apply insert_one_Ok in Ei as [-> Hfresh]. intros [= _ <-].
  destruct Hwf as [H1 H2 H3 H4 H5 H6].
  split; rewrite ?collection_insert_eq, ?collection_insert_ne by done; try done.
  - apply Forall_app. split; [done|]. constructor; [|constructor].
    unfold wf_player. apply andb_true_intro. split; [|done].
    apply bool_decide_eq_true_2. apply (bool_decide_unpack _). reflexivity.
  - by apply (NoDup_ids_snoc _ _ new_id).
Qed.

Lemma create_match_wf (db : Database) (new_id : ObjectId) (match_ : Match.t)
    (resp : document) (db' : Database) :
  wf_db db -> create_match (Some db) new_id match_ = Ok (resp, db') -> wf_db db'.
Proof.
  intros Hwf. unfold create_match. cbn [require_db bind].
  destruct (oid (Match.player_a_id match_)) as [a|]; [|done]. cbn [bind].
  destruct (oid (Match.player_b_id match_)) as [b|]; [|done]. cbn [bind].
  destruct (insert_one _ _ _ _) as [r|] eqn:Ei; [|done]. cbn [bind].
  apply insert_one_Ok in Ei as [-> Hfresh]. intros [= _ <-].
  destruct Hwf as [H1 H2 H3 H4 H5 H6].
  split; rewrite ?collection_insert_eq, ?collection_insert_ne by done; try done.
  - apply Forall_app. split; [done|]. constructor; [|constructor].
    unfold wf_match. repeat (apply andb_true_intro; split); try done;
      try (apply bool_decide_eq_true_2, (bool_decide_unpack _); reflexivity).
    cbn. by destruct (Match.started_at match_).
  - by apply (NoDup_ids_snoc _ _ new_id).
Qed.

(** ** More on the identifier codec *)

Lemma hex_char_props (n : N) :
  (n < 16)%N ->
  digit_value (hex_char n) = n /\ is_hex_digit (hex_char n) = true /\
  is_space (hex_char n) = false /\ ascii_lower (hex_char n) = hex_char n.
Proof.
  intros H.
  assert (Hall : forallb (fun k => N.eqb (digit_value (hex_char k)) k
                                   && is_hex_digit (hex_char k)
                                   && negb (is_space (hex_char k))
                                   && Ascii.eqb (ascii_lower (hex_char k)) (hex_char k))
                         (map N.of_nat (seq 0 16)) = true) by reflexivity.
  rewrite forallb_forall in Hall. specialize (Hall n).
  rewrite !andb_true_iff, N.eqb_eq, negb_true_iff, Ascii.eqb_eq in Hall.
  destruct Hall as [[[H1 H2] H3] H4]; [|done].
  apply in_map_iff. exists (N.to_nat n). split; [lia|]. apply in_seq. lia.
Qed.

Lemma fromhex_hexlify (o : list N) :
  forallb is_byte o = true -> fromhex (hexlify o) = Some o.
Proof.
  induction o as [|b o IH]; [done|]. simpl forallb. intros H.
  apply andb_prop in H as [Hb Ho]. unfold is_byte in Hb. apply N.ltb_lt in Hb.
  assert (H1 : (b / 16 < 16)%N) by (apply N.Div0.div_lt_upper_bound; lia).
  assert (H2 : (b mod 16 < 16)%N) by (apply N.mod_lt; lia).
  destruct (hex_char_props _ H1) as (D1 & X1 & S1 & _).
  destruct (hex_char_props _ H2) as (D2 & X2 & _ & _).
  cbn [hexlify fromhex]. rewrite S1, X1, X2, D1, D2, (IH Ho). cbn.
  f_equal. f_equal. symmetry. apply N.div_mod. lia.
Qed.

Lemma length_hexlify (o : list N) : String.length (hexlify o) = (2 * List.length o)%nat.
Proof. induction o as [|b o IH]; [done|]. simpl. rewrite IH. lia. Qed.

Lemma oid_hexlify (o : ObjectId) :
  List.length o = 12%nat -> forallb is_byte o = true -> oid (hexlify o) = Ok o.
Proof.
  intros Hlen Hb. unfold oid, ObjectId_of_str.
  rewrite length_hexlify, Hlen. simpl. by rewrite fromhex_hexlify.
Qed.

(** X1.  The text of an ObjectId of twelve bytes decodes to that ObjectId:
    [oid(str(o))] is [o]. *)
Theorem oid_of_str (o : ObjectId) :
  twelve_bytes o = true -> oid (str_ObjectId o) = Ok o.
Proof.
  unfold twelve_bytes. intros H. apply andb_prop in H as [Hlen Hb].
  apply Nat.eqb_eq in Hlen. by apply oid_hexlify.
Qed.

Lemma oid_of_str_witness : oid (str_ObjectId (id_bytes 171)) = Ok (id_bytes 171).
Proof. apply oid_of_str. reflexivity. Defined.

Lemma fromhex_bytes (n : nat) :
  forall s bs, String.length s = (2 * n)%nat -> all_hex s = true ->
    fromhex s = Some bs -> forallb is_byte bs = true.
Proof.
  induction n as [|n IH]; intros s bs Hlen Hhex Hbs.
  - destruct s; [|discriminate]. by injection Hbs as <-.
  - destruct s as [|c [|d s]]; simpl in Hlen; try lia.
    unfold all_hex in Hhex. simpl in Hhex.
    apply andb_prop in Hhex as [Hc Hhex]. apply andb_prop in Hhex as [Hd Hhex].
    simpl in Hbs. rewrite (hex_digit_not_space _ Hc), Hc, Hd in Hbs. simpl in Hbs.
    destruct (fromhex s) as [bs'|] eqn:E; [|done]. injection Hbs as <-.
    simpl. rewrite (IH s bs'); [|lia|done|done]. rewrite andb_true_r.
    pose proof (digit_value_lt _ Hc). pose proof (digit_value_lt _ Hd).
    unfold is_byte. apply N.ltb_lt. lia.
Qed.

(** X2.  Decoding does not see the case of the digits: two strings of 24
    hexadecimal digits decode to the same ObjectId exactly when they are
    equal up to case, and each decodes to what its lower-case form does. *)
Theorem oid_ignores_case (s t : string) :
  String.length s = 24%nat -> all_hex s = true ->
  String.length t = 24%nat -> all_hex t = true ->
  (oid s = oid t <-> string_lower s = string_lower t) /\
  oid s = oid (string_lower s).
Proof.
  intros Ls Hs Lt Ht.
  assert (A : forall u, String.length u = 24%nat -> all_hex u = true ->
            exists o, oid u = Ok o /\ str_ObjectId o = string_lower u /\
                      oid (string_lower u) = Ok o).
  { intros u Lu Hu. destruct (fromhex_all_hex 12 u Lu Hu) as (bs & Hbs & Hstr & Hl).
    exists bs. assert (Ho : oid u = Ok bs).
    { unfold oid, ObjectId_of_str. rewrite Lu. simpl. by rewrite Hbs. }
    split; [done|]. split; [done|]. unfold str_ObjectId in *. rewrite <- Hstr.
    apply oid_hexlify; [done|]. by apply (fromhex_bytes 12 u). }
  destruct (A s Ls Hs) as (os & Hos & Hss & Hls), (A t Lt Ht) as (ot & Hot & Hst & Hlt).
  split; [|by rewrite Hos, Hls]. split.
  - rewrite Hos, Hot. intros [= ->]. by rewrite <- Hss, <- Hst.
  - intros E. rewrite Hos, Hot. rewrite E in Hls. rewrite Hls in Hlt. by injection Hlt as ->.
Qed.

Lemma oid_ignores_case_witness :
  oid "507F1F77BCF86CD799439011" = oid "507f1f77bcf86cd799439011".
Proof.
  apply (oid_ignores_case "507F1F77BCF86CD799439011" "507f1f77bcf86cd799439011");
    reflexivity.
Defined.

(** ** More on the serializer *)

Lemma stringify_idem (rt : Runtime) (v : value) :
  stringify rt (stringify rt v) = stringify rt v.
Proof. unfold stringify. by destruct v. Qed.

Lemma map_values_idem (rt : Runtime) (d : document) :
  map_values (stringify rt) (map_values (stringify rt) d) = map_values (stringify rt) d.
Proof.
  unfold map_values. rewrite map_map. apply map_ext. intros [k v]. simpl.
  by rewrite stringify_idem.
Qed.

Lemma serialized_no_id (rt : Runtime) (d : document) :
  List.NoDup (dict_keys d) ->
  is_None (doc_get "_id" (map_values (stringify rt) (rename_id rt d))) = true.
Proof.
  intros Hnd. unfold doc_get. rewrite doc_lookup_map_values. unfold rename_id.
  destruct (is_None (doc_get "_id" d)) eqn:E; simpl.
  - unfold doc_get in E. destruct (doc_lookup "_id" d) as [[]|]; done.
  - rewrite doc_lookup_set. simpl. by rewrite doc_lookup_remove.
Qed.

(** X3.  Serializing is idempotent: a document that [to_serializable]
    returned comes back from [to_serializable] with the same fields, the
    same values and the same order. *)
Theorem to_serializable_idempotent (rt : Runtime) (d : document) :
  NoDup (dict_keys d) ->
  to_serializable_doc rt (to_serializable_doc rt d) = to_serializable_doc rt d.
Proof.
  intros Hnd. rewrite (to_serializable_doc_closed rt d Hnd).
  apply NoDup_ListNoDup in Hnd.
  assert (Hnd' : NoDup (dict_keys (map_values (stringify rt) (rename_id rt d)))).
  { apply NoDup_ListNoDup. rewrite dict_keys_map_values. by apply NoDup_keys_rename_id. }
  rewrite to_serializable_doc_closed by done.
  unfold rename_id at 1. rewrite serialized_no_id by done. simpl.
  apply map_values_idem.
Qed.

Lemma to_serializable_idempotent_witness :
  to_serializable_doc sample_rt (to_serializable_doc sample_rt sample_player)
  = to_serializable_doc sample_rt sample_player.
Proof.
  apply to_serializable_idempotent. apply (bool_decide_unpack _). vm_compute. exact I.
Defined.

Lemma dict_keys_remove_NoDup (k : string) (d : document) :
  List.NoDup (dict_keys d) ->
  dict_keys (doc_remove k d) = List.filter (fun j => negb (String.eqb j k)) (dict_keys d).
Proof.
  induction d as [|[j w] d IH]; simpl; [done|]. intros Hnd.
  apply List.NoDup_cons_iff in Hnd as [Hj Hnd].
  rewrite (String.eqb_sym j k). destruct (String.eqb_spec k j) as [->|Hne]; simpl.
  - symmetry. apply filter_all, Forall_forall. intros i Hi.
    apply list_elem_of_In in Hi. destruct (String.eqb_spec i j); [by subst | done].
  - by rewrite IH.
Qed.

(** X4.  Where the [id] lands.  Without an [_id] that is not [None] the
    result has the keys of the argument, in their order.  With one, the
    [_id] key goes; an [id] key that the argument already had keeps its
    place, and its old value is lost to the text of the [_id]; otherwise
    [id] becomes the last key. *)
Theorem to_serializable_keys (rt : Runtime) (d : document) :
  NoDup (dict_keys d) ->
  dict_keys (to_serializable_doc rt d)
  = (if is_None (doc_get "_id" d) then dict_keys d
     else List.filter (fun j => negb (String.eqb j "_id")) (dict_keys d)
          ++ (match doc_lookup "id" d with Some _ => [] | None => ["id"] end)) /\
  (forall v w, doc_lookup "_id" d = Some v -> v <> VNull -> doc_lookup "id" d = Some w ->
     doc_lookup "id" (to_serializable_doc rt d) = Some (VStr (py_str rt v)) /\
     List.length (to_serializable_doc rt d) = (List.length d - 1)%nat).
Proof.
  intros Hnd. rewrite (to_serializable_doc_closed rt d Hnd).
  apply NoDup_ListNoDup in Hnd.
  assert (Hkeys : is_None (doc_get "_id" d) = false ->
            dict_keys (rename_id rt d)
            = List.filter (fun j => negb (String.eqb j "_id")) (dict_keys d)
              ++ (match doc_lookup "id" d with Some _ => [] | None => ["id"] end)).
  { intros E. unfold rename_id. rewrite E. simpl.
    assert (Hin : In "id" (dict_keys (doc_remove "_id" d)) <-> In "id" (dict_keys d)).
    { rewrite dict_keys_remove_NoDup by done. rewrite filter_In. split; [tauto|]. by split. }
    destruct (doc_lookup "id" d) as [u|] eqn:B.
    - assert (B' : In "id" (dict_keys d)).
      { destruct (in_dec string_dec "id" (dict_keys d)) as [H|H]; [done|].
        apply doc_lookup_None in H. congruence. }
      rewrite dict_keys_set_in by by apply Hin.
      by rewrite dict_keys_remove_NoDup, app_nil_r.
    - apply doc_lookup_None in B.
      rewrite dict_keys_set_notin by (by rewrite Hin).
      by rewrite dict_keys_remove_NoDup. }
  split.
  - rewrite dict_keys_map_values.
    destruct (is_None (doc_get "_id" d)) eqn:E; [|by apply Hkeys].
    unfold rename_id. by rewrite E.
  - intros v w Hv Hnn Hw.
    assert (E : is_None (doc_get "_id" d) = false).
    { unfold doc_get. rewrite Hv. by destruct v. }
    split.
    + rewrite doc_lookup_map_values. unfold rename_id. rewrite E. simpl.
      rewrite doc_lookup_set. simpl. unfold doc_get. by rewrite Hv.
    + unfold map_values. rewrite length_map.
      rewrite <- (length_map fst (rename_id rt d)). fold (dict_keys (rename_id rt d)).
      rewrite (Hkeys E), Hw, app_nil_r.
      rewrite <- dict_keys_remove_NoDup by done.
      clear -Hv. unfold dict_keys. rewrite length_map.
      induction d as [|[j u] d IH]; [done|].
      unfold doc_remove, doc_lookup in *. cbn [dict_remove dict_lookup] in *.
      destruct (String.eqb "_id" j); cbn [List.length]; [lia|]. rewrite IH by done.
      destruct d; [done | cbn [List.length]; lia].
Qed.

Lemma to_serializable_keys_witness :
  dict_keys (to_serializable_doc sample_rt sample_with_id) = ["id"; "name"] /\
  doc_lookup "id" (to_serializable_doc sample_rt sample_with_id)
  = Some (VStr (id_text 1)).
Proof.
  destruct (to_serializable_keys sample_rt sample_with_id) as [H1 H2].
  - apply (bool_decide_unpack _). vm_compute. exact I.
  - split; [rewrite H1; reflexivity|].
    destruct (H2 (VOid (id_bytes 1)) (VInt 7)) as [H _]; [reflexivity | discriminate
      | reflexivity | exact H].
Defined.

(** ** Creating a match *)

Lemma analytics_summary (rt : Runtime) (db : Database) (player_id : string) (q : ObjectId) :
  wf_db db -> oid player_id = Ok q ->
  player_analytics rt (Some db) player_id = Ok (summary_of db q).
Proof.
  intros Hwf Hoid. unfold summary_of.
  destruct (matches_of db q) as [|m ms] eqn:E.
  - by apply player_analytics_empty.
  - rewrite (player_analytics_closed db Hwf q rt player_id Hoid); [by rewrite E|].
    by rewrite E.
Qed.

(** X5.  [create_match] succeeds exactly when its two identifiers decode
    and the new [_id] is not in use; it then answers the new identifier as
    text and appends one match, which holds the two references as
    ObjectIds.  Whether players with these identifiers exist plays no
    part, and the players and the points are left as they were. *)
Theorem create_match_stores (db : Database) (new_id : ObjectId) (m : Match.t)
    (resp : document) (db' : Database) :
  create_match (Some db) new_id m = Ok (resp, db') <->
  exists a b,
    oid (Match.player_a_id m) = Ok a /\ oid (Match.player_b_id m) = Ok b /\
    id_in_use db "match" new_id = false /\
    resp = [("id", VStr (str_ObjectId new_id))] /\
    collection db' "match" = collection db "match" ++ [match_doc new_id a b m] /\
    collection db' "player" = collection db "player" /\
    collection db' "point" = collection db "point" /\
    db' = <["match" := collection db "match" ++ [match_doc new_id a b m]]> db.
Proof.
  unfold create_match, insert_one, id_in_use. cbn [require_db bind]. split.
  - destruct (oid (Match.player_a_id m)) as [a|]; [|done]. cbn [bind].
    destruct (oid (Match.player_b_id m)) as [b|]; [|done]. cbn [bind].
    destruct (existsb _ (collection db "match")) eqn:E; [done|]. cbn [bind fst snd].
    intros [= <- <-]. exists a, b. repeat split; try done.
    + apply collection_insert_eq.
    + by apply collection_insert_ne.
    + by apply collection_insert_ne.
  - intros (a & b & -> & -> & E & -> & _ & _ & _ & ->). cbn [bind]. by rewrite E.
Qed.

Lemma create_match_stores_witness :
  create_match (Some ∅) (id_bytes 11) (mk_match 1 2 None)
  = Ok ([("id", VStr (id_text 11))],
        <["match" := [match_doc (id_bytes 11) (id_bytes 1) (id_bytes 2)
                        (mk_match 1 2 None)]]> ∅).
Proof.
  apply create_match_stores. exists (id_bytes 1), (id_bytes 2).
  repeat split; reflexivity.
Defined.

Lemma create_match_Ok (db : Database) (new_id : ObjectId) (m : Match.t)
    (resp : document) (db' : Database) :
  create_match (Some db) new_id m = Ok (resp, db') ->
  exists a b,
    oid (Match.player_a_id m) = Ok a /\ oid (Match.player_b_id m) = Ok b /\
    db' = <["match" := collection db "match" ++ [match_doc new_id a b m]]> db.
Proof.
  unfold create_match, insert_one. cbn [require_db bind].
  destruct (oid (Match.player_a_id m)) as [a|]; [|done]. cbn [bind].
  destruct (oid (Match.player_b_id m)) as [b|]; [|done]. cbn [bind].
  destruct (existsb _ (collection db "match")) eqn:E; [done|]. cbn [bind fst snd].
  intros [= <- <-]. by exists a, b.
Qed.

(** X6.  The two write handlers keep the invariant of the database: after
    [create_match] or [create_point] every stored match and point still
    holds its references as ObjectIds, not as the strings of the request,
    a point has an integer rally length and no [winner_shot] or the name
    of a shot, no document has a key twice, and no two documents of a
    collection share their [_id].  The empty database satisfies it. *)
Theorem writes_keep_invariant (db : Database) (new_id : ObjectId)
    (resp : document) (db' : Database) :
  wf_db db ->
  (forall m, create_match (Some db) new_id m = Ok (resp, db') -> wf_db db') /\
  (forall pt, create_point (Some db) new_id pt = Ok (resp, db') -> wf_db db') /\
  wf_db ∅.
Proof.
  intros Hwf. split; [|split].
  - intros m H. by eapply create_match_wf.
  - intros pt H. by eapply create_point_wf.
  - apply wf_db_empty.
Qed.

Lemma writes_keep_invariant_witness :
  wf_db (after (create_point (Some sample_db) (id_bytes 31) dink_point)).
Proof.
  destruct (writes_keep_invariant sample_db (id_bytes 31) [("id", VStr (id_text 31))]
              (after (create_point (Some sample_db) (id_bytes 31) dink_point))
              sample_db_wf) as (_ & H & _).
  apply (H dink_point). vm_compute. reflexivity.
Defined.
(** ** A new match in the analytics *)

Lemma create_match_matches_of (db : Database) (d : document) (q : ObjectId) :
  matches_of (<["match" := collection db "match" ++ [d]]> db) q
  = matches_of db q ++ (if plays_in q d then [d] else []).
Proof.
  unfold matches_of. rewrite collection_insert_eq, List.filter_app. simpl.
  by destruct (plays_in q d).
Qed.

Lemma player_name_insert (db : Database) (k : string) (l : list document) (q : ObjectId) :
  k <> "player" -> player_name (<[k := l]> db) q = player_name db q.
Proof. intros H. unfold player_name. by rewrite collection_insert_ne. Qed.

Lemma points_of_no_match (db : Database) (q : ObjectId) :
  matches_of db q = [] -> points_of db q = [].
Proof.
  intros E. unfold points_of. rewrite E. apply filter_none, Forall_forall. done.
Qed.

Lemma point_in_app (ms ms' : list document) (pt : document) :
  point_in (ms ++ ms') pt = point_in ms pt || point_in ms' pt.
Proof. unfold point_in. by rewrite existsb_app. Qed.

(** The summary depends on the database through the name of the player,
    the player's matches and their points. *)
Lemma summary_of_points (db db' : Database) (q : ObjectId) :
  player_name db' q = player_name db q ->
  points_of db' q = points_of db q ->
  player (summary_of db' q) = player (summary_of db q) /\
  totals (summary_of db' q) = totals (summary_of db q) /\
  shot_distribution (summary_of db' q) = shot_distribution (summary_of db q).
Proof.
  intros Hn Hp. unfold summary_of.
  assert (Hs : shot_distribution_of db' q = shot_distribution_of db q).
  { unfold shot_distribution_of, shots_of. by rewrite Hp. }
  destruct (matches_of db' q) as [|m' ms'] eqn:E', (matches_of db q) as [|m ms] eqn:E;
    cbn [player totals shot_distribution]; rewrite ?Hn, ?Hp, ?Hs; try done.
  - apply points_of_no_match in E'. rewrite E' in Hp. split; [done|].
    unfold shot_distribution_of, shots_of. by rewrite <- Hp.
  - apply points_of_no_match in E. split; [done|].
    unfold shot_distribution_of, shots_of. by rewrite E.
Qed.

(** X7.  After [create_match] the analytics of a player who is on neither
    side of the new match are what they were.  For a player on one of its
    sides the number of matches has grown by 1, the name is what it was,
    and, when no stored point refers to the new match, so are the totals
    and the shot distribution: playing a first match with no point yet
    leaves the zero totals and the null average of a player without
    matches. *)
Theorem create_match_analytics (rt : Runtime) (db : Database) (new_id : ObjectId)
    (m : Match.t) (resp : document) (db' : Database) :
  wf_db db ->
  create_match (Some db) new_id m = Ok (resp, db') ->
  exists a b,
    oid (Match.player_a_id m) = Ok a /\ oid (Match.player_b_id m) = Ok b /\
    forall player_id q, oid player_id = Ok q ->
      exists s s',
        player_analytics rt (Some db) player_id = Ok s /\
        player_analytics rt (Some db') player_id = Ok s' /\
        player s' = player s /\
        (q <> a -> q <> b -> s' = s) /\
        (q = a \/ q = b ->
           matches s' = matches s + 1 /\
           (Forall (fun pt => oid_field "match_id" pt <> Some new_id) (collection db "point") ->
            totals s' = totals s /\ shot_distribution s' = shot_distribution s)).
Proof.
  intros Hwf H. pose proof (create_match_wf _ _ _ _ _ Hwf H) as Hwf'.
  apply create_match_Ok in H as (a & b & Ha & Hb & ->).
  exists a, b. split; [done|]. split; [done|]. intros player_id q Hq.
  set (d := match_doc new_id a b m) in *.
  set (db' := <["match" := collection db "match" ++ [d]]> db) in *.
  exists (summary_of db q), (summary_of db' q).
  split; [by apply analytics_summary|]. split; [by apply analytics_summary|].
  assert (Hn : player_name db' q = player_name db q) by by apply player_name_insert.
  assert (Hms : matches_of db' q = matches_of db q ++ (if plays_in q d then [d] else []))
    by apply create_match_matches_of.
  assert (Hplays : plays_in q d = true <-> q = a \/ q = b).
  { unfold plays_in. rewrite orb_true_iff, !has_oid_true. unfold d, match_doc, oid_field.
    cbn. split; (intros [E|E]; [left|right]); congruence. }
  assert (Hpts : collection db' "point" = collection db "point")
    by by apply collection_insert_ne.
  split; [|split].
  - unfold summary_of.
    by destruct (matches_of db' q), (matches_of db q); cbn [player]; rewrite Hn.
  - intros Hna Hnb. destruct (plays_in q d) eqn:E.
    { destruct (proj1 Hplays eq_refl); contradiction. }
    rewrite app_nil_r in Hms. unfold summary_of, shot_distribution_of, shots_of, points_of.
    by rewrite Hms, Hn, Hpts.
  - intros Hside. apply (proj2 Hplays) in Hside. rewrite Hside in Hms. split.
    + unfold summary_of. rewrite Hms.
      destruct (matches_of db q) as [|m0 ms]; cbn [matches app]; [done|].
      rewrite !length_cons, length_app. simpl. lia.
    + intros Hstray.
      assert (Hp : points_of db' q = points_of db q).
      { unfold points_of. rewrite Hms, Hpts. apply filter_ext_Forall.
        eapply Forall_impl; [exact Hstray|]. intros pt Hpt. simpl in Hpt.
        rewrite point_in_app. unfold point_in at 2. cbn.
        apply has_oid_false in Hpt. rewrite Hpt. by rewrite !orb_false_r. }
      by destruct (summary_of_points db db' q Hn Hp) as (_ & Ht & Hs).
Qed.

Lemma create_match_analytics_witness :
  exists s s',
    player_analytics sample_rt (Some sample_db) (id_text 3) = Ok s /\
    player_analytics sample_rt
      (Some (after (create_match (Some sample_db) (id_bytes 14) (mk_match 3 1 None))))
      (id_text 3) = Ok s' /\
    matches s = 0 /\ matches s' = 1 /\ totals s' = totals s.
Proof.
  destruct (create_match_analytics sample_rt sample_db (id_bytes 14) (mk_match 3 1 None)
              [("id", VStr (id_text 14))]
              (after (create_match (Some sample_db) (id_bytes 14) (mk_match 3 1 None))))
    as (a & b & Ha & Hb & H).
  - exact sample_db_wf.
  - vm_compute. reflexivity.
  - vm_compute in Ha. injection Ha as <-.
    destruct (H (id_text 3) _ eq_refl) as (s & s' & Hs & Hs' & _ & _ & Hside).
    exists s, s'. split; [exact Hs|]. split; [exact Hs'|].
    destruct Hside as [Hm Hrest]; [left; vm_compute; reflexivity|].
    assert (E0 : matches s = 0) by (vm_compute in Hs; injection Hs as <-; reflexivity).
    split; [exact E0|]. split; [lia|].
    apply Hrest. apply (bool_decide_unpack _). vm_compute. exact I.
Defined.
(** ** A new point in the analytics *)

Lemma length_filter_snoc {A : Type} (f : A -> bool) (l : list A) (x : A) :
  Z.of_nat (List.length (List.filter f (l ++ [x])))
  = Z.of_nat (List.length (List.filter f l)) + (if f x then 1 else 0).
Proof.
  rewrite List.filter_app, length_app. simpl. destruct (f x); simpl; lia.
Qed.

(** X8.  After [create_point] the analytics of a player keep the name and
    the number of matches.  When the point's match is a stored match that
    has the player on one of its sides, the point counts: as one more
    point won and no more lost for the scorer, as one more point lost and
    no more won for anyone else, and the average rally is the mean over
    the points of before and the new rally length.  When it is not, the
    whole summary is what it was; so a point scored by a player in a match
    of two others is a point lost for both of them and won by nobody. *)
Theorem create_point_totals (rt : Runtime) (db : Database) (new_id : ObjectId)
    (pt : Point.t) (resp : document) (db' : Database) :
  wf_db db ->
  create_point (Some db) new_id pt = Ok (resp, db') ->
  exists m s,
    oid (Point.match_id pt) = Ok m /\ oid (Point.scorer_id pt) = Ok s /\
    forall player_id q, oid player_id = Ok q ->
      exists t t',
        player_analytics rt (Some db) player_id = Ok t /\
        player_analytics rt (Some db') player_id = Ok t' /\
        player t' = player t /\ matches t' = matches t /\
        ((exists mt, In mt (collection db "match") /\ oid_field "_id" mt = Some m /\
                     plays_in q mt = true) ->
         (q = s -> points_won (totals t') = points_won (totals t) + 1 /\
                   points_lost (totals t') = points_lost (totals t)) /\
         (q <> s -> points_won (totals t') = points_won (totals t) /\
                    points_lost (totals t') = points_lost (totals t) + 1) /\
         avg_rally (totals t')
         = VFloat (mean (map rally_of (points_of db q) ++ [inject_Z (Point.rally_length pt)]))) /\
        (~ (exists mt, In mt (collection db "match") /\ oid_field "_id" mt = Some m /\
                       plays_in q mt = true) ->
         t' = t).
Proof.
  intros Hwf H. pose proof (create_point_wf _ _ _ _ _ Hwf H) as Hwf'.
  apply create_point_Ok in H as (m & s & Hm & Hs & _ & -> & _).
  exists m, s. split; [done|]. split; [done|]. intros player_id q Hq.
  set (d := point_doc new_id m s pt) in *.
  set (db' := <["point" := collection db "point" ++ [d]]> db) in *.
  exists (summary_of db q), (summary_of db' q).
  split; [by apply analytics_summary|]. split; [by apply analytics_summary|].
  assert (Hn : player_name db' q = player_name db q) by by apply player_name_insert.
  assert (Hms : matches_of db' q = matches_of db q) by apply create_point_matches_of.
  assert (Hps : points_of db' q
                = points_of db q ++ (if point_in (matches_of db q) d then [d] else []))
    by apply create_point_points_of.
  pose proof (point_in_matches_of db q m d (proj1 (point_doc_fields new_id m s pt))) as Hin.
  assert (Hsc : scored_by q d = true <-> q = s).
  { unfold scored_by, d. rewrite has_oid_true, (proj2 (point_doc_fields new_id m s pt)).
    split; congruence. }
  split; [|split; [|split]].
  - unfold summary_of. rewrite Hms, Hn. by destruct (matches_of db q).
  - unfold summary_of. rewrite Hms. by destruct (matches_of db q).
  - intros Hex. apply (proj2 Hin) in Hex. rewrite Hex in Hps.
    unfold summary_of. rewrite Hms, Hps.
    destruct (matches_of db q) as [|m0 ms] eqn:E; [done|]. cbn [totals points_won points_lost avg_rally].
    rewrite !length_filter_snoc. split; [|split].
    + intros Heq. apply (proj2 Hsc) in Heq. rewrite Heq. simpl. lia.
    + intros Hne. destruct (scored_by q d) eqn:Ed.
      { by destruct Hne, (proj1 Hsc). }
      simpl. lia.
    + unfold avg_rally_of. rewrite map_app.
      destruct (points_of db q ++ [d]) eqn:El; [by destruct (points_of db q)|].
      done.
  - intros Hnex. destruct (point_in (matches_of db q) d) eqn:Ed.
    { destruct Hnex. by apply Hin. }
    rewrite app_nil_r in Hps. unfold summary_of, shot_distribution_of, shots_of.
    by rewrite Hms, Hn, Hps.
Qed.

Lemma create_point_totals_witness :
  exists t t',
    player_analytics sample_rt (Some sample_db) (id_text 2) = Ok t /\
    player_analytics sample_rt
      (Some (after (create_point (Some sample_db) (id_bytes 31) dink_point)))
      (id_text 2) = Ok t' /\
    points_won (totals t') = points_won (totals t) /\
    points_lost (totals t') = points_lost (totals t) + 1.
Proof.
  destruct (create_point_totals sample_rt sample_db (id_bytes 31) dink_point
              [("id", VStr (id_text 31))]
              (after (create_point (Some sample_db) (id_bytes 31) dink_point)))
    as (m & s & Hm & Hs & H).
  - exact sample_db_wf.
  - vm_compute. reflexivity.
  - vm_compute in Hm, Hs. injection Hm as <-. injection Hs as <-.
    destruct (H (id_text 2) _ eq_refl) as (t & t' & Ht & Ht' & _ & _ & Hin & _).
    exists t, t'. split; [exact Ht|]. split; [exact Ht'|].
    destruct Hin as (_ & Hother & _).
    + exists (nth 0 (collection sample_db "match") []).
      split; [vm_compute; left; reflexivity | split; reflexivity].
    + apply Hother. vm_compute. discriminate.
Defined.
(** ** The leaderboard accounts for the points *)

Lemma total_won_perm (l l' : list document) :
  Permutation l l' -> total_won l = total_won l'.
Proof.
  unfold total_won. induction 1; simpl; lia.
Qed.

Lemma count_without {A : Type} (has : ObjectId -> A -> bool) (ks : list ObjectId)
    (x : A) (l : list A) :
  (forall k, In k ks -> has k x = false) ->
  fold_right Z.add 0 (map (fun k => Z.of_nat (List.length (List.filter (has k) (x :: l)))) ks)
  = fold_right Z.add 0 (map (fun k => Z.of_nat (List.length (List.filter (has k) l))) ks).
Proof.
  induction ks as [|k ks IH]; intros H; [done|].
  cbn [map fold_right]. rewrite IH by (intros; apply H; by right).
  cbn [List.filter]. by rewrite (H k) by by left.
Qed.

Lemma count_with {A : Type} (has : ObjectId -> A -> bool) (key : A -> option ObjectId)
    (ks : list ObjectId) (x : A) (l : list A) (k0 : ObjectId) :
  (forall k y, has k y = true <-> key y = Some k) ->
  List.NoDup ks -> In k0 ks -> key x = Some k0 ->
  fold_right Z.add 0 (map (fun k => Z.of_nat (List.length (List.filter (has k) (x :: l)))) ks)
  = fold_right Z.add 0 (map (fun k => Z.of_nat (List.length (List.filter (has k) l))) ks) + 1.
Proof.
  intros Hhas Hnd Hin Hx. induction Hnd as [|k ks Hk Hnd IH]; [done|].
  cbn [map fold_right]. destruct (has k x) eqn:E.
  - apply Hhas in E. assert (k = k0) by congruence. subst k0.
    rewrite count_without.
    + cbn [List.filter]. apply Hhas in E. rewrite E. cbn [List.length]. lia.
    + intros k' Hk'. destruct (has k' x) eqn:E'; [|done].
      apply Hhas in E'. congruence.
  - destruct Hin as [->|Hin].
    + apply Hhas in Hx. congruence.
    + rewrite IH by done. cbn [List.filter]. rewrite E. lia.
Qed.

(** Over keys that are pairwise distinct and that include the key of every
    element, the numbers of elements with each key add up to the number
    of elements. *)
Lemma count_by_key {A : Type} (has : ObjectId -> A -> bool) (key : A -> option ObjectId)
    (ks : list ObjectId) (l : list A) :
  (forall k y, has k y = true <-> key y = Some k) ->
  List.NoDup ks -> (forall x, In x l -> exists k, key x = Some k /\ In k ks) ->
  fold_right Z.add 0 (map (fun k => Z.of_nat (List.length (List.filter (has k) l))) ks)
  = Z.of_nat (List.length l).
Proof.
  intros Hhas Hnd. induction l as [|x l IH]; intros Hin.
  - simpl. clear. induction ks; simpl; lia.
  - destruct (Hin x) as (k0 & Hk0 & Hin0); [by left|].
    rewrite (count_with has key ks x l k0) by done.
    rewrite IH by (intros; apply Hin; by right).
    cbn [List.length]. lia.
Qed.

Lemma StronglySorted_app_inv {A : Type} (R : A -> A -> Prop) (l1 l2 : list A) :
  StronglySorted R (l1 ++ l2) -> forall x y, In x l1 -> In y l2 -> R x y.
Proof.
  induction l1 as [|a l1 IH]; [done|]. simpl. intros H x y Hx Hy.
  apply StronglySorted_inv in H as [H1 H2]. destruct Hx as [<-|Hx].
  - rewrite List.Forall_forall in H2. apply H2, in_or_app. by right.
  - by apply IH.
Qed.

Lemma total_won_board (db : Database) :
  wf_db db ->
  total_won (map (board_row db) (scorers db))
  = Z.of_nat (List.length (collection db "point")).
Proof.
  intros Hwf. unfold total_won. rewrite map_map.
  rewrite (map_ext _ (fun s => Z.of_nat (List.length (points_by db s))))
    by (intros s; apply board_row_won).
  unfold points_by, scored_by.
  apply (count_by_key _ (oid_field "scorer_id")).
  - intros k x. apply has_oid_true.
  - apply nub_by_NoDup. apply bytes_eqb_eq.
  - intros x Hx. destruct (wf_point_fields db Hwf x) as (_ & _ & [s Hs] & _).
    { by apply list_elem_of_In. }
    exists s. split; [done|]. unfold scorers. apply nub_by_In; [apply bytes_eqb_eq|].
    apply list_elem_of_In, list_elem_of_omap. exists x. split; [by apply list_elem_of_In | done].
Qed.

(** X9.  For a limit from 1 to the largest 8-byte integer the leaderboard
    has as many rows as there are scorers, or [limit] when there are more.
    Every row shows at least one point won.  A scorer who is left out won
    no more points than any scorer who is listed.  When the limit leaves
    nobody out, the points won of the rows add up to the number of stored
    points: every point is counted once, for its scorer, whether or not
    the scorer is a stored player or a side of the point's match. *)
Theorem leaderboard_accounts (rt : Runtime) (db : Database) (limit : Z) :
  wf_db db -> 1 <= limit <= int64_max ->
  exists rows,
    leaderboard rt (Some db) (Some limit) = Ok rows /\
    List.length rows = Nat.min (Z.to_nat limit) (List.length (scorers db)) /\
    (forall r, In r rows -> 1 <= won_of r) /\
    (forall s, In s (scorers db) ->
       In (board_row db s) rows \/
       forall r, In r rows -> Z.of_nat (List.length (points_by db s)) <= won_of r) /\
    (Z.of_nat (List.length (scorers db)) <= limit ->
       total_won rows = Z.of_nat (List.length (collection db "point"))).
Proof.
  intros Hwf Hlimit. rewrite leaderboard_closed by done.
  set (ranked := sort_by (doc_le [("points_won", -1)]) (map (board_row db) (scorers db))).
  assert (Hperm : Permutation ranked (map (board_row db) (scorers db)))
    by apply sort_by_perm.
  exists (firstn (Z.to_nat limit) ranked). split; [done|]. split; [|split; [|split]].
  - rewrite length_firstn, (Permutation_length Hperm), length_map. done.
  - intros r Hr. apply In_firstn in Hr. apply (Permutation_in _ Hperm) in Hr.
    apply in_map_iff in Hr as (s & <- & Hs). rewrite (proj2 (board_row_won db s)).
    unfold scorers in Hs. apply nub_by_incl in Hs.
    apply list_elem_of_In, list_elem_of_omap in Hs as (pt & Hpt & Hs).
    assert (Hin : In pt (points_by db s)).
    { apply filter_In. split; [by apply list_elem_of_In | by apply has_oid_true]. }
    destruct (points_by db s); [done|]. simpl length. lia.
  - intros s Hs.
    assert (Hin : In (board_row db s) ranked).
    { apply (Permutation_in _ (Permutation_sym Hperm)), in_map_iff. by exists s. }
    rewrite <- (firstn_skipn (Z.to_nat limit) ranked) in Hin.
    apply in_app_or in Hin as [Hin|Hin]; [by left | right].
    intros r Hr. rewrite <- (proj2 (board_row_won db s)).
    pose proof (ranked_by_points_won db (scorers db)) as Hsorted. fold ranked in Hsorted.
    rewrite <- (firstn_skipn (Z.to_nat limit) ranked) in Hsorted.
    apply (StronglySorted_app_inv _ _ _ Hsorted r (board_row db s) Hr Hin).
  - intros Hall. rewrite firstn_all2.
    + rewrite (total_won_perm _ _ Hperm). by apply total_won_board.
    + rewrite (Permutation_length Hperm), length_map. lia.
Qed.

Lemma leaderboard_accounts_witness :
  exists rows,
    leaderboard sample_rt (Some sample_db) (Some 5) = Ok rows /\
    List.length rows = 2%nat /\ total_won rows = 8.
Proof.
  destruct (leaderboard_accounts sample_rt sample_db 5) as (rows & H & Hlen & _ & _ & Hsum).
  - exact sample_db_wf.
  - vm_compute. split; discriminate.
  - exists rows. split; [exact H|]. split; [exact Hlen|].
    rewrite Hsum; [reflexivity | vm_compute; discriminate].
Defined.
(** ** The rows of the recent matches *)

Lemma included_recent (k : string) :
  included recent_spec k = true ->
  k = "_id" \/ In k ["location"; "level"; "started_at"; "completed_at"].
Proof.
  unfold included, recent_spec. cbn [existsb snd fst].
  rewrite !orb_true_iff, !String.eqb_eq. cbn [In]. intuition (try discriminate; auto).
Qed.

(** X10.  A row of [recent_matches] has no field besides [id], the two
    player names, [location], [level] and the two times: the [_id] and the
    two player references of the stored match do not appear in it, and no
    field of a row holds an ObjectId. *)
Theorem recent_matches_row_fields (rt : Runtime) (db : Database) (limit : Z)
    (rows : list document) :
  wf_db db -> 1 <= limit <= int64_max ->
  recent_matches rt (Some db) (Some limit) = Ok rows ->
  forall r, In r rows ->
    (forall k v, doc_lookup k r = Some v -> In k recent_row_keys /\ is_ObjectId v = false) /\
    doc_lookup "_id" r = None /\
    doc_lookup "player_a_id" r = None /\ doc_lookup "player_b_id" r = None.
Proof.
  intros Hwf Hlimit H r Hr. rewrite recent_matches_closed in H by done.
  injection H as <-. apply in_map_iff in Hr as (m & <- & Hm).
  apply In_firstn, sort_by_In in Hm.
  pose proof (recent_projected_keys db Hwf m Hm) as Hnd.
  destruct (recent_row_of rt db Hwf m Hm) as [Hid Hnoid Ha Hb _ _ _ _].
  set (r := to_serializable_doc rt (recent_projected db m)) in *.
  assert (Hother : forall k, other_field k = true -> k <> "player_a" -> k <> "player_b" ->
            doc_lookup k r
            = stringify rt <$> (if included recent_spec k then doc_lookup k m else None)).
  { intros k Hk H1 H2. unfold r. rewrite serialized_other by done.
    by rewrite recent_projected_kept. }
  split; [|split; [done|split]].
  - intros k v Hv.
    destruct (String.eqb_spec k "id") as [->|Hk1].
    { split; [by left|]. rewrite Hid in Hv. by injection Hv as <-. }
    destruct (String.eqb_spec k "_id") as [->|Hk2]; [congruence|].
    destruct (String.eqb_spec k "player_a") as [->|Hk3].
    { split; [right; by left|]. rewrite Ha in Hv.
      destruct (name_at db "player_a_id" m); [|done].
      injection Hv as <-. apply stringify_not_ObjectId. }
    destruct (String.eqb_spec k "player_b") as [->|Hk4].
    { split; [right; right; by left|]. rewrite Hb in Hv.
      destruct (name_at db "player_b_id" m); [|done].
      injection Hv as <-. apply stringify_not_ObjectId. }
    assert (Hk : other_field k = true).
    { unfold other_field. apply String.eqb_neq in Hk1, Hk2. by rewrite Hk1, Hk2. }
    rewrite (Hother k Hk Hk3 Hk4) in Hv.
    destruct (included recent_spec k) eqn:E; [|done].
    apply included_recent in E as [->|E]; [done|]. split.
    + unfold recent_row_keys. cbn [In] in *. intuition.
    + destruct (doc_lookup k m); [|done]. injection Hv as <-. apply stringify_not_ObjectId.
  - by rewrite Hother.
  - by rewrite Hother.
Qed.

Lemma recent_matches_row_fields_witness :
  recent_matches sample_rt (Some sample_db) (Some 1) = Ok [sample_recent_row] /\
  doc_lookup "_id" sample_recent_row = None /\
  doc_lookup "player_a_id" sample_recent_row = None.
Proof.
  assert (H : recent_matches sample_rt (Some sample_db) (Some 1) = Ok [sample_recent_row])
    by (vm_compute; reflexivity).
  split; [exact H|].
  destruct (recent_matches_row_fields sample_rt sample_db 1 [sample_recent_row])
    with (r := sample_recent_row) as (_ & H1 & H2 & _).
  - exact sample_db_wf.
  - vm_compute. split; discriminate.
  - exact H.
  - left. reflexivity.
  - split; [exact H1 | exact H2].
Defined.

Lemma create_match_resp (db : Database) (new_id : ObjectId) (m : Match.t)
    (resp : document) (db' : Database) :
  create_match (Some db) new_id m = Ok (resp, db') ->
  resp = [("id", VStr (str_ObjectId new_id))].
Proof.
  unfold create_match, insert_one. cbn [require_db bind].
  destruct (oid (Match.player_a_id m)) as [a|]; [|done]. cbn [bind].
  destruct (oid (Match.player_b_id m)) as [b|]; [|done]. cbn [bind].
  destruct (existsb _ (collection db "match")) eqn:E; [done|]. cbn [bind fst snd].
  by intros [= <- <-].
Qed.

(** ** A new match among the recent matches *)

(** X11.  A match created with a start later than the start of every
    stored match is the first of the recent matches, whatever the limit:
    the first row has the identifier that [create_match] answered, the
    start of the request, and the names of the players its two references
    resolve to. *)
Theorem recent_matches_newest_first (rt : Runtime) (db : Database) (new_id : ObjectId)
    (m : Match.t) (resp : document) (db' : Database) (t limit : Z) :
  wf_db db ->
  create_match (Some db) new_id m = Ok (resp, db') ->
  Match.started_at m = Some t ->
  (forall m0 t0, In m0 (collection db "match") -> started_of m0 = Some t0 -> t0 < t) ->
  1 <= limit <= int64_max ->
  exists a b row rows,
    oid (Match.player_a_id m) = Ok a /\ oid (Match.player_b_id m) = Ok b /\
    recent_matches rt (Some db') (Some limit) = Ok (row :: rows) /\
    doc_lookup "id" row = doc_lookup "id" resp /\
    doc_lookup "id" row = Some (VStr (str_ObjectId new_id)) /\
    doc_lookup "started_at" row = Some (VDate t) /\
    doc_lookup "player_a" row = stringify rt <$> player_name db a /\
    doc_lookup "player_b" row = stringify rt <$> player_name db b.
Proof.
  intros Hwf H Ht Hlater Hlimit. pose proof (create_match_wf _ _ _ _ _ Hwf H) as Hwf'.
  pose proof (create_match_resp _ _ _ _ _ H) as ->.
  apply create_match_Ok in H as (a & b & Ha & Hb & ->).
  exists a, b.
  set (d := match_doc new_id a b m) in *.
  set (db' := <["match" := collection db "match" ++ [d]]> db) in *.
  assert (Hcoll : collection db' "match" = collection db "match" ++ [d])
    by apply collection_insert_eq.
  assert (Hd : In d (collection db' "match")) by (rewrite Hcoll; apply in_or_app; right; by left).
  assert (Hsd : started_of d = Some t).
  { unfold started_of, d, match_doc. cbn. by rewrite Ht. }
  rewrite recent_matches_closed by done.
  pose proof (recent_sorted db' Hwf') as Hsorted.
  pose proof (sort_by_In (doc_le recent_keys) d (collection db' "match")) as Hin.
  apply proj2 in Hin. specialize (Hin Hd).
  assert (Hall : forall x, In x (sort_by (doc_le recent_keys) (collection db' "match")) ->
                           In x (collection db' "match")) by (intros x; apply sort_by_In).
  destruct (sort_by (doc_le recent_keys) (collection db' "match")) as [|h l]; [done|].
  assert (Hh : h = d).
  { destruct Hin as [Hin|Hin]; [done|].
    apply StronglySorted_inv in Hsorted as [_ Hhd]. rewrite List.Forall_forall in Hhd.
    specialize (Hhd d Hin). specialize (Hall h (or_introl eq_refl)).
    rewrite Hcoll in Hall. apply in_app_or in Hall as [Hold|[Heq|[]]]; [|done].
    unfold recent_first in Hhd. rewrite Hsd in Hhd.
    destruct (started_of h) as [t0|] eqn:E.
    - specialize (Hlater h t0 Hold E). destruct Hhd as [Hl|[Hl _]].
      + simpl in Hl. lia.
      + injection Hl as ->. lia.
    - destruct Hhd as [Hl|[Hl _]]; done. }
  subst h.
  destruct (Z.to_nat limit) as [|n] eqn:En; [lia|]. cbn [firstn map].
  destruct (recent_row_of rt db' Hwf' d Hd) as [Hid _ Hpa Hpb _ _ Hst _].
  eexists _, _. split; [done|]. split; [done|]. split; [reflexivity|].
  assert (Hi : id_of d = new_id) by done.
  rewrite Hid, Hi, Hst. split; [done|]. split; [done|]. split.
  { unfold d, match_doc. cbn. by rewrite Ht. }
  rewrite Hpa, Hpb. unfold name_at, d, match_doc, oid_field. cbn.
  unfold db'. by rewrite !player_name_insert.
Qed.

Lemma recent_matches_newest_first_witness :
  exists row rows,
    recent_matches sample_rt
      (Some (after (create_match (Some sample_db) (id_bytes 14) (mk_match 3 1 (Some 400)))))
      (Some 2) = Ok (row :: rows) /\
    doc_lookup "id" row = Some (VStr (id_text 14)) /\
    doc_lookup "player_a" row = Some (VStr "cy").
Proof.
  destruct (recent_matches_newest_first sample_rt sample_db (id_bytes 14)
              (mk_match 3 1 (Some 400)) [("id", VStr (id_text 14))]
              (after (create_match (Some sample_db) (id_bytes 14) (mk_match 3 1 (Some 400))))
              400 2)
    as (a & b & row & rows & Ha & Hb & H & _ & Hid & _ & Hpa & _).
  - exact sample_db_wf.
  - vm_compute. reflexivity.
  - reflexivity.
  - intros m0 t0 Hm0 Ht0. vm_compute in Hm0.
    repeat (destruct Hm0 as [<-|Hm0]; [vm_compute in Ht0; injection Ht0 as <-; reflexivity|]).
    destruct Hm0.
  - vm_compute. split; discriminate.
  - vm_compute in Ha. injection Ha as <-.
    exists row, rows. split; [exact H|]. split; [exact Hid|]. exact Hpa.
Defined.
(** ** Validation of points *)

Lemma Shot_of_str_Some (s : string) (w : Shot) : Shot_of_str s = Some w -> s = Shot_str w.
Proof.
  unfold Shot_of_str. intros H. apply find_some in H as [_ H]. by apply String.eqb_eq.
Qed.

Lemma PointCreate_validate_Ok (co : Coercions) (d : document) (p : Point.t) :
  PointCreate.validate co (VDoc d) = Ok p <->
  validate_str "match_id" d = Some (Point.match_id p) /\
  validate_str "scorer_id" d = Some (Point.scorer_id p) /\
  PointCreate.validate_rally_length co d = Some (Point.rally_length p) /\
  PointCreate.validate_winner_shot d = Some (Point.winner_shot p) /\
  PointCreate.validate_unforced_error co d = Some (Point.unforced_error p) /\
  validate_opt_str "notes" d = Some (Point.notes p).
Proof.
  unfold PointCreate.validate.
  destruct (validate_str "match_id" d), (validate_str "scorer_id" d),
    (PointCreate.validate_rally_length co d), (PointCreate.validate_winner_shot d),
    (PointCreate.validate_unforced_error co d), (validate_opt_str "notes" d);
    (split; [intros [= <-]; done || by repeat split | try (intros (? & ? & ? & ? & ? & ?); discriminate)]).
  destruct p. cbn. intros (? & ? & ? & ? & ? & ?). repeat f_equal; congruence.
Qed.

Lemma PointCreate_validate_fails (co : Coercions) (d : document) (k : string) :
  In k (Player.missing "match_id" (validate_str "match_id" d) ++
        Player.missing "scorer_id" (validate_str "scorer_id" d) ++
        Player.missing "rally_length" (PointCreate.validate_rally_length co d) ++
        Player.missing "winner_shot" (PointCreate.validate_winner_shot d) ++
        Player.missing "unforced_error" (PointCreate.validate_unforced_error co d) ++
        Player.missing "notes" (validate_opt_str "notes" d)) ->
  exists fields,
    PointCreate.validate co (VDoc d) = Raise (RequestValidationError fields) /\
    In k fields /\ status_of (PointCreate.validate co (VDoc d)) = 422.
Proof.
  unfold PointCreate.validate.
  destruct (validate_str "match_id" d), (validate_str "scorer_id" d),
    (PointCreate.validate_rally_length co d), (PointCreate.validate_winner_shot d),
    (PointCreate.validate_unforced_error co d), (validate_opt_str "notes" d);
    intros H; try (by destruct H); eexists; (split; [reflexivity|]); by split.
Qed.

Lemma validate_rally_length_range (co : Coercions) (d : document) (n : Z) :
  PointCreate.validate_rally_length co d = Some n -> 1 <= n <= 100.
Proof.
  unfold PointCreate.validate_rally_length.
  destruct (doc_lookup "rally_length" d) as [v|]; [|done].
  destruct (match v with VInt z => Some z | _ => lax_int co v end) as [z|]; [|done].
  destruct ((1 <=? z) && (z <=? 100)) eqn:E; [|done]. intros [= <-]. lia.
Qed.

(** X12.  Validation of the body of a point.  An integer [rally_length]
    below 1 or above 100 is refused with status 422, [rally_length] being
    among the fields reported, and so is a [winner_shot] that is a string
    other than the nine names of a shot.  A body with two strings as
    [match_id] and [scorer_id], an integer from 1 to 100 as [rally_length]
    (1 and 100 included) and none of the other fields validates, to a
    point without a winning shot, without notes and with [unforced_error]
    false.  Whatever validates has a rally length from 1 to 100, and what
    [model_dump] gives for a point validates to that point exactly when
    the rally length of the point is from 1 to 100. *)
Theorem point_validation (co : Coercions) (d : document) :
  (forall n, doc_lookup "rally_length" d = Some (VInt n) -> n < 1 \/ 100 < n ->
     exists fields,
       PointCreate.validate co (VDoc d) = Raise (RequestValidationError fields) /\
       In "rally_length" fields /\ status_of (PointCreate.validate co (VDoc d)) = 422) /\
  (forall s, doc_lookup "winner_shot" d = Some (VStr s) -> (forall w, s <> Shot_str w) ->
     exists fields,
       PointCreate.validate co (VDoc d) = Raise (RequestValidationError fields) /\
       In "winner_shot" fields /\ status_of (PointCreate.validate co (VDoc d)) = 422) /\
  (forall m s n,
     doc_lookup "match_id" d = Some (VStr m) -> doc_lookup "scorer_id" d = Some (VStr s) ->
     doc_lookup "rally_length" d = Some (VInt n) -> 1 <= n <= 100 ->
     doc_lookup "winner_shot" d = None -> doc_lookup "unforced_error" d = None ->
     doc_lookup "notes" d = None ->
     PointCreate.validate co (VDoc d)
     = Ok {| Point.match_id := m; Point.scorer_id := s; Point.rally_length := n;
             Point.winner_shot := None; Point.unforced_error := false;
             Point.notes := None |}) /\
  (forall p, PointCreate.validate co (VDoc d) = Ok p -> 1 <= Point.rally_length p <= 100) /\
  (forall p, PointCreate.validate co (VDoc (Point.model_dump p)) = Ok p <->
             1 <= Point.rally_length p <= 100).
Proof.
  split; [|split; [|split; [|split]]].
  - intros n Hn Hout. apply PointCreate_validate_fails.
    assert (E : PointCreate.validate_rally_length co d = None).
    { unfold PointCreate.validate_rally_length. rewrite Hn.
      destruct ((1 <=? n) && (n <=? 100)) eqn:E; [lia | done]. }
    rewrite E, !in_app_iff. cbn. tauto.
  - intros s Hs Hno. apply PointCreate_validate_fails.
    assert (E : PointCreate.validate_winner_shot d = None).
    { unfold PointCreate.validate_winner_shot. rewrite Hs.
      destruct (Shot_of_str s) as [w|] eqn:E; [|done].
      apply Shot_of_str_Some in E. by destruct (Hno w). }
    rewrite E, !in_app_iff. cbn. tauto.
  - intros m s n Hm Hs Hn Hin Hw Hu Ht. apply PointCreate_validate_Ok. cbn.
    unfold validate_str, PointCreate.validate_rally_length, PointCreate.validate_winner_shot,
      PointCreate.validate_unforced_error, validate_opt_str.
    rewrite Hm, Hs, Hn, Hw, Hu, Ht.
    replace ((1 <=? n) && (n <=? 100)) with true by lia. done.
  - intros p Hp. apply PointCreate_validate_Ok in Hp as (_ & _ & Hn & _).
    by apply validate_rally_length_range in Hn.
  - intros p. rewrite PointCreate_validate_Ok. split.
    + intros (_ & _ & Hn & _). by apply validate_rally_length_range in Hn.
    + intros Hin. destruct p as [m s n w u t]. cbn in *.
      unfold validate_str, PointCreate.validate_rally_length, PointCreate.validate_winner_shot,
        PointCreate.validate_unforced_error, validate_opt_str. cbn.
      replace ((1 <=? n) && (n <=? 100)) with true by lia.
      repeat split.
      * destruct w as [w|]; [|done]. by destruct w.
      * by destruct t.
Qed.

Lemma point_validation_witness :
  status_of (PointCreate.validate sample_co (point_body (id_text 11) (id_text 1) 101)) = 422 /\
  is_Ok (PointCreate.validate sample_co (point_body (id_text 11) (id_text 1) 100)) = true /\
  PointCreate.validate sample_co (VDoc (Point.model_dump dink_point)) = Ok dink_point.
Proof.
  split; [|split].
  - destruct (point_validation sample_co
                [("match_id", VStr (id_text 11)); ("scorer_id", VStr (id_text 1));
                 ("rally_length", VInt 101)]) as (H & _).
    destruct (H 101) as (fields & _ & _ & E); [reflexivity | right; lia | exact E].
  - destruct (point_validation sample_co
                [("match_id", VStr (id_text 11)); ("scorer_id", VStr (id_text 1));
                 ("rally_length", VInt 100)]) as (_ & _ & H & _).
    unfold point_body.
    rewrite (H (id_text 11) (id_text 1) 100); [reflexivity | reflexivity .. | lia | | | ];
      reflexivity.
  - apply (point_validation sample_co []). vm_compute. split; discriminate.
Defined.
(** ** Rally lengths from validation to the analytics *)

Lemma Qsum_bounds (lo hi : Q) (qs : list Q) :
  List.Forall (fun q => (lo <= q <= hi)%Q) qs ->
  (inject_Z (Z.of_nat (List.length qs)) * lo <= Qsum qs
   /\ Qsum qs <= inject_Z (Z.of_nat (List.length qs)) * hi)%Q.
Proof.
  induction 1 as [|q qs [Hlo Hhi] _ [IH1 IH2]].
  - cbn. split; rewrite Qmult_0_l; apply Qle_refl.
  - cbn [List.length Qsum fold_right]. rewrite Nat2Z.inj_succ, <- Z.add_1_r.
    rewrite inject_Z_plus. change (Qsum qs) with (fold_right Qplus 0%Q qs) in *.
    split.
    + rewrite Qmult_plus_distr_l, Qmult_1_l, Qplus_comm. by apply Qplus_le_compat.
    + rewrite Qmult_plus_distr_l, Qmult_1_l, Qplus_comm. by apply Qplus_le_compat.
Qed.

Lemma mean_bounds (lo hi : Q) (qs : list Q) :
  qs <> [] -> List.Forall (fun q => (lo <= q <= hi)%Q) qs ->
  (lo <= mean qs <= hi)%Q.
Proof.
  intros Hne H. destruct (Qsum_bounds lo hi qs H) as [H1 H2].
  assert (Hpos : (0 < inject_Z (Z.of_nat (List.length qs)))%Q).
  { change 0%Q with (inject_Z 0). rewrite <- Zlt_Qlt. destruct qs; [done|]. simpl length. lia. }
  unfold mean. rewrite Qred_correct. split.
  - apply Qle_shift_div_l; [done|]. by rewrite Qmult_comm.
  - apply Qle_shift_div_r; [done|]. by rewrite Qmult_comm.
Qed.

Lemma avg_rally_of_range (pts : list document) :
  List.Forall (fun d => rally_in_range d = true) pts ->
  avg_rally_of pts = VNull \/
  exists q, avg_rally_of pts = VFloat q /\ (1 <= q <= 100)%Q.
Proof.
  intros H. destruct pts as [|pt pts]; [by left | right].
  eexists. split; [reflexivity|]. apply mean_bounds; [done|].
  apply List.Forall_map. eapply List.Forall_impl; [|exact H].
  intros d Hd. unfold rally_in_range, rally_of in *.
  destruct (int_field "rally_length" d) as [n|]; [|done].
  change 1%Q with (inject_Z 1). change 100%Q with (inject_Z 100).
  rewrite <- !Zle_Qle. lia.
Qed.

Lemma point_doc_rally (new_id m s : ObjectId) (pt : Point.t) :
  int_field "rally_length" (point_doc new_id m s pt) = Some (Point.rally_length pt).
Proof. done. Qed.

(** X13.  The rally lengths that validation admits are the rally lengths
    of the database: when every stored point has a rally length from 1 to
    100, so has every point after [create_point] has stored a point whose
    body validated; the stored document has the rally length of the body,
    and its two references are the ObjectIds that the two strings of the
    body decode to.  No point is stored with a rally length out of range
    unless it bypasses validation. *)
Theorem validated_point_stored (co : Coercions) (db : Database) (new_id : ObjectId)
    (body : document) (p : Point.t) (resp : document) (db' : Database) :
  rallies_in_range db ->
  PointCreate.validate co (VDoc body) = Ok p ->
  create_point (Some db) new_id p = Ok (resp, db') ->
  rallies_in_range db' /\
  exists d m s,
    collection db' "point" = collection db "point" ++ [d] /\
    doc_lookup "match_id" body = Some (VStr (Point.match_id p)) /\
    doc_lookup "scorer_id" body = Some (VStr (Point.scorer_id p)) /\
    oid (Point.match_id p) = Ok m /\ oid (Point.scorer_id p) = Ok s /\
    doc_lookup "_id" d = Some (VOid new_id) /\
    doc_lookup "match_id" d = Some (VOid m) /\ doc_lookup "scorer_id" d = Some (VOid s) /\
    doc_lookup "rally_length" d = Some (VInt (Point.rally_length p)) /\
    1 <= Point.rally_length p <= 100.
Proof.
  intros Hdb Hv H. apply create_point_Ok in H as (m & s & Hm & Hs & _ & -> & _).
  apply PointCreate_validate_Ok in Hv as (Hbm & Hbs & Hn & _).
  apply validate_rally_length_range in Hn.
  assert (Hr : rally_in_range (point_doc new_id m s p) = true).
  { unfold rally_in_range. rewrite point_doc_rally. lia. }
  split.
  - unfold rallies_in_range. rewrite collection_insert_eq. apply Forall_app. split; [done|].
    by constructor.
  - exists (point_doc new_id m s p), m, s. rewrite collection_insert_eq.
    unfold validate_str in Hbm, Hbs.
    destruct (doc_lookup "match_id" body) as [[]|]; try done.
    destruct (doc_lookup "scorer_id" body) as [[]|]; try done.
    injection Hbm as ->. injection Hbs as ->. repeat split; try done; lia.
Qed.

Lemma validated_point_stored_witness :
  rallies_in_range (after (create_point (Some sample_db) (id_bytes 31) dink_point)).
Proof.
  destruct (validated_point_stored sample_co sample_db (id_bytes 31)
              (Point.model_dump dink_point) dink_point [("id", VStr (id_text 31))]
              (after (create_point (Some sample_db) (id_bytes 31) dink_point)))
    as [H _].
  - apply (bool_decide_unpack _). vm_compute. exact I.
  - vm_compute. reflexivity.
  - vm_compute. reflexivity.
  - exact H.
Defined.

(** X14.  In a database whose points all have a rally length from 1 to
    100, an average rally is never out of that range: the [avg_rally] of
    [player_analytics] is null or a number from 1 to 100, and the
    [avg_rally] of every row of the leaderboard is a number from 1 to
    100. *)
Theorem avg_rally_in_range (rt : Runtime) (db : Database) :
  wf_db db -> rallies_in_range db ->
  (forall player_id t,
     player_analytics rt (Some db) player_id = Ok t ->
     avg_rally (totals t) = VNull \/
     exists q, avg_rally (totals t) = VFloat q /\ (1 <= q <= 100)%Q) /\
  (forall limit rows r,
     1 <= limit <= int64_max ->
     leaderboard rt (Some db) (Some limit) = Ok rows -> In r rows ->
     exists q, doc_lookup "avg_rally" r = Some (VFloat q) /\ (1 <= q <= 100)%Q).
Proof.
  intros Hwf Hdb. split.
  - intros player_id t Ht. destruct (oid player_id) as [q|] eqn:Hq.
    2:{ unfold player_analytics in Ht. cbn [require_db bind] in Ht. by rewrite Hq in Ht. }
    rewrite (analytics_summary rt db player_id q Hwf Hq) in Ht. injection Ht as <-.
    unfold summary_of. destruct (matches_of db q); [by left|]. cbn [totals avg_rally].
    apply avg_rally_of_range. unfold points_of. rewrite List.Forall_forall.
    intros pt Hd. apply filter_In in Hd as [Hd _].
    unfold rallies_in_range in Hdb. rewrite Forall_forall in Hdb.
    by apply Hdb, list_elem_of_In.
  - intros limit rows r Hlimit H Hr. rewrite leaderboard_closed in H by done.
    injection H as <-. apply In_firstn, sort_by_In, in_map_iff in Hr as (s & <- & Hs).
    assert (Hpts : List.Forall (fun d => rally_in_range d = true) (points_by db s)).
    { unfold points_by. rewrite List.Forall_forall. intros d Hd.
      apply filter_In in Hd as [Hd _].
      unfold rallies_in_range in Hdb. rewrite Forall_forall in Hdb.
      by apply Hdb, list_elem_of_In. }
    assert (Hne : points_by db s <> []).
    { unfold scorers in Hs. apply nub_by_incl in Hs.
      apply list_elem_of_In, list_elem_of_omap in Hs as (pt & Hpt & Hs).
      assert (Hin : In pt (points_by db s)).
      { apply filter_In. split; [by apply list_elem_of_In | by apply has_oid_true]. }
      by destruct (points_by db s). }
    assert (E : doc_lookup "avg_rally" (board_row db s) = Some (avg_rally_of (points_by db s)))
      by done.
    rewrite E. destruct (avg_rally_of_range _ Hpts) as [Hnull|(q & Hq & Hin)].
    + by destruct (points_by db s).
    + exists q. by rewrite Hq.
Qed.

Lemma avg_rally_in_range_witness :
  exists t q,
    player_analytics sample_rt (Some sample_db) (id_text 1) = Ok t /\
    avg_rally (totals t) = VFloat q /\ (1 <= q <= 100)%Q.
Proof.
  destruct (avg_rally_in_range sample_rt sample_db) as [H _].
  - exact sample_db_wf.
  - apply (bool_decide_unpack _). vm_compute. exact I.
  - assert (Ht : exists t, player_analytics sample_rt (Some sample_db) (id_text 1) = Ok t
                           /\ avg_rally (totals t) <> VNull).
    { eexists. split; [vm_compute; reflexivity | discriminate]. }
    destruct Ht as (t & Ht & Hnn). destruct (H (id_text 1) t Ht) as [Hn|(q & Hq & Hin)].
    + destruct (Hnn Hn).
    + exists t, q. split; [exact Ht|]. split; [exact Hq | exact Hin].
Defined.
(** ** Validation of matches *)

Lemma validate_opt_datetime_dump (co : Coercions) (k : string) (d : document) (o : option Z) :
  doc_lookup k d = Some (opt_value VDate o) -> validate_opt_datetime co k d = Some o.
Proof. unfold validate_opt_datetime. intros ->. by destruct o. Qed.

Lemma validate_opt_str_dump (k : string) (d : document) (o : option string) :
  doc_lookup k d = Some (opt_value VStr o) -> validate_opt_str k d = Some o.
Proof. unfold validate_opt_str. intros ->. by destruct o. Qed.

(** X15.  Validation of the body of a match asks for two strings as
    [player_a_id] and [player_b_id] and looks at nothing else in them: a
    body with any two strings and no other field validates, to a match
    with these two strings and none of the optional fields, so a string
    that is not an ObjectId is refused by [create_match], with status 400,
    and not by validation.  A body without a string as [player_a_id] is
    refused with status 422, [player_a_id] being among the fields
    reported.  What [model_dump] gives for a match validates to that
    match. *)
Theorem match_validation (co : Coercions) :
  (forall d a b,
     doc_lookup "player_a_id" d = Some (VStr a) ->
     doc_lookup "player_b_id" d = Some (VStr b) ->
     doc_lookup "location" d = None -> doc_lookup "level" d = None ->
     doc_lookup "started_at" d = None -> doc_lookup "completed_at" d = None ->
     MatchCreate.validate co (VDoc d)
     = Ok {| Match.player_a_id := a; Match.player_b_id := b;
             Match.location := None; Match.level := None;
             Match.started_at := None; Match.completed_at := None |}) /\
  (forall d, (forall s, doc_lookup "player_a_id" d <> Some (VStr s)) ->
     exists fields,
       MatchCreate.validate co (VDoc d) = Raise (RequestValidationError fields) /\
       In "player_a_id" fields /\ status_of (MatchCreate.validate co (VDoc d)) = 422) /\
  (forall m, MatchCreate.validate co (VDoc (Match.model_dump m)) = Ok m) /\
  (forall a b m db new_id,
     MatchCreate.validate co (match_body a b) = Ok m ->
     is_Ok (oid a) = false \/ is_Ok (oid b) = false ->
     create_match (Some db) new_id m = Raise (HTTPException 400 "Invalid ObjectId format")).
Proof.
  split; [|split; [|split]].
  - intros d a b Ha Hb H1 H2 H3 H4. unfold MatchCreate.validate, validate_str,
      validate_opt_str, validate_opt_datetime. by rewrite Ha, Hb, H1, H2, H3, H4.
  - intros d Hno. unfold MatchCreate.validate.
    assert (E : validate_str "player_a_id" d = None).
    { unfold validate_str. destruct (doc_lookup "player_a_id" d) as [[]|]; try done.
      by destruct (Hno s). }
    rewrite E.
    destruct (validate_str "player_b_id" d), (validate_opt_str "location" d),
      (validate_opt_str "level" d), (validate_opt_datetime co "started_at" d),
      (validate_opt_datetime co "completed_at" d);
      eexists; (split; [reflexivity|]); split; (by left) || done.
  - intros [a b lo le st en]. unfold MatchCreate.validate.
    rewrite (validate_opt_str_dump "location" _ lo) by done.
    rewrite (validate_opt_str_dump "level" _ le) by done.
    rewrite (validate_opt_datetime_dump co "started_at" _ st) by done.
    rewrite (validate_opt_datetime_dump co "completed_at" _ en) by done.
    done.
  - intros a b m db new_id Hv Hbad. cbn in Hv. injection Hv as <-.
    unfold create_match. cbn [require_db bind Match.player_a_id Match.player_b_id].
    unfold oid in *. destruct (ObjectId_of_str a); cbn in *.
    + destruct Hbad as [Hbad|Hbad]; [done|].
      destruct (ObjectId_of_str b); cbn in *; done.
    + done.
Qed.

Lemma match_validation_witness :
  is_Ok (MatchCreate.validate sample_co (match_body "not-an-id" (id_text 2))) = true /\
  create_match (Some sample_db) (id_bytes 14) bad_match
  = Raise (HTTPException 400 "Invalid ObjectId format").
Proof.
  split; [reflexivity|].
  destruct (match_validation sample_co) as (_ & _ & _ & H).
  apply (H "not-an-id" "507f1f77bcf86cd799439011"); [reflexivity | left; reflexivity].
Defined.

(** ** The summary of a player, as a whole *)

Lemma length_filter_split {A : Type} (f : A -> bool) (l : list A) :
  (List.length (List.filter f l) + List.length (List.filter (fun x => negb (f x)) l)
   = List.length l)%nat.
Proof. induction l as [|x l IH]; [done|]. simpl. destruct (f x); simpl; lia. Qed.

Lemma length_filter_le {A : Type} (f : A -> bool) (l : list A) :
  (List.length (List.filter f l) <= List.length l)%nat.
Proof. induction l as [|x l IH]; [done|]. simpl. destruct (f x); simpl; lia. Qed.

Lemma shot_distribution_none (db : Database) (q : ObjectId) :
  points_of db q = [] -> shot_distribution_of db q = [].
Proof. intros E. unfold shot_distribution_of, shots_of. by rewrite E. Qed.

(** X16.  With a database, [player_analytics] answers every identifier
    that decodes, and its summary is consistent: the points won and the
    points lost are the points of the player's matches, each counted once;
    the average rally is null exactly when these matches have no point at
    all, as for a player with matches that have not been played yet; a
    shot has at most as many points in the shot distribution as the
    player won, and only the name of a shot has any. *)
Theorem player_analytics_consistent (rt : Runtime) (db : Database)
    (player_id : string) (q : ObjectId) :
  wf_db db -> oid player_id = Ok q ->
  exists t,
    player_analytics rt (Some db) player_id = Ok t /\
    points_won (totals t) + points_lost (totals t)
    = Z.of_nat (List.length (points_of db q)) /\
    0 <= points_won (totals t) /\ 0 <= points_lost (totals t) /\
    matches t = Z.of_nat (List.length (matches_of db q)) /\
    (avg_rally (totals t) = VNull <-> points_of db q = []) /\
    (forall w, 0 <= dist_count (shot_distribution t) w <= points_won (totals t)) /\
    (forall w, 0 < dist_count (shot_distribution t) w -> is_shot_name w = true).
Proof.
  intros Hwf Hq. exists (summary_of db q). split; [by apply analytics_summary|].
  assert (Hcount : forall w, dist_count (shot_distribution_of db q) w = shot_count db q w)
    by (intros w; by apply dist_count_of).
  assert (Hshape :
    points_won (totals (summary_of db q))
      = Z.of_nat (List.length (List.filter (scored_by q) (points_of db q))) /\
    points_lost (totals (summary_of db q))
      = Z.of_nat (List.length (List.filter (fun pt => negb (scored_by q pt)) (points_of db q))) /\
    avg_rally (totals (summary_of db q)) = avg_rally_of (points_of db q) /\
    shot_distribution (summary_of db q) = shot_distribution_of db q /\
    matches (summary_of db q) = Z.of_nat (List.length (matches_of db q))).
  { unfold summary_of. destruct (matches_of db q) as [|m ms] eqn:E; [|done].
    rewrite (shot_distribution_none db q), (points_of_no_match db q E);
      [done | by apply points_of_no_match]. }
  destruct Hshape as (-> & -> & -> & -> & ->).
  pose proof (length_filter_split (scored_by q) (points_of db q)).
  split; [lia|]. split; [lia|]. split; [lia|]. split; [done|]. split; [|split].
  - unfold avg_rally_of. by destruct (points_of db q).
  - intros w. rewrite Hcount. unfold shot_count.
    pose proof (length_filter_le (won_with w) (List.filter (scored_by q) (points_of db q))).
    lia.
  - intros w. rewrite Hcount. unfold shot_count. intros Hpos.
    destruct (List.filter (won_with w) (List.filter (scored_by q) (points_of db q)))
      as [|pt l] eqn:E; [simpl in Hpos; lia|].
    assert (Hin : In pt (List.filter (won_with w) (List.filter (scored_by q) (points_of db q))))
      by (rewrite E; by left).
    apply filter_In in Hin as [Hin Hw]. apply filter_In in Hin as [Hin _].
    apply filter_In in Hin as [Hin _].
    pose proof (wf_points db Hwf) as Hpts. rewrite Forall_forall in Hpts.
    specialize (Hpts pt (proj2 (list_elem_of_In _ _) Hin)).
    unfold wf_point in Hpts. apply andb_prop in Hpts as [_ Hs].
    unfold won_with, shot_of in Hw.
    destruct (doc_lookup "winner_shot" pt) as [[]|]; try done.
    apply String.eqb_eq in Hw. by subst.
Qed.

Lemma player_analytics_consistent_witness :
  exists t,
    player_analytics sample_rt (Some sample_db) (id_text 1) = Ok t /\
    points_won (totals t) + points_lost (totals t) = 8.
Proof.
  destruct (player_analytics_consistent sample_rt sample_db (id_text 1) (id_bytes 1))
    as (t & Ht & Hsum & _).
  - exact sample_db_wf.
  - reflexivity.
  - exists t. split; [exact Ht|]. rewrite Hsum. vm_compute. reflexivity.
Defined.

(** ** The limit of the two rankings *)

(** X17.  [leaderboard] and [recent_matches] hand their [limit] to the
    database as it comes.  With a database, the two handlers return rows
    exactly for the limits from 1 to the largest 8-byte integer.  For any
    other limit the handler ends with an exception, whatever the database
    holds, and the request with status 500: an [OperationFailure] of the
    server for a limit of 0 or below, an [OverflowError] of the driver
    for a limit beyond 8 bytes. *)
Theorem limit_outside_range (rt : Runtime) (db : Database) (limit : Z) :
  wf_db db ->
  (is_Ok (leaderboard rt (Some db) (Some limit)) = true <-> 1 <= limit <= int64_max) /\
  (is_Ok (recent_matches rt (Some db) (Some limit)) = true <-> 1 <= limit <= int64_max) /\
  (~ 1 <= limit <= int64_max ->
     status_of (leaderboard rt (Some db) (Some limit)) = 500 /\
     status_of (recent_matches rt (Some db) (Some limit)) = 500) /\
  (int64_min <= limit <= 0 ->
     exists errmsg,
       leaderboard rt (Some db) (Some limit) = Raise (OperationFailure errmsg) /\
       recent_matches rt (Some db) (Some limit) = Raise (OperationFailure errmsg)) /\
  (limit < int64_min \/ int64_max < limit ->
     leaderboard rt (Some db) (Some limit)
     = Raise (OverflowError "MongoDB can only handle up to 8-byte ints") /\
     recent_matches rt (Some db) (Some limit)
     = Raise (OverflowError "MongoDB can only handle up to 8-byte ints")).
Proof.
  intros Hwf.
  assert (Hlow : int64_min <= limit <= 0 ->
     exists errmsg,
       leaderboard rt (Some db) (Some limit) = Raise (OperationFailure errmsg) /\
       recent_matches rt (Some db) (Some limit) = Raise (OperationFailure errmsg)).
  { intros [H1 H2]. eexists. unfold leaderboard, recent_matches, aggregate,
      leaderboard_pipeline, recent_matches_pipeline. cbn [require_db bind].
    change (default 10 (Some limit)) with limit.
    cbn [forallb stage_encodes stage_parses andb].
    assert (E1 : (int64_min <=? limit) && (limit <=? int64_max) = true)
      by (unfold int64_max, int64_min in *; lia).
    assert (E2 : (0 <? limit) = false) by lia.
    rewrite E1, E2. split; reflexivity. }
  assert (Hout : limit < int64_min \/ int64_max < limit ->
     leaderboard rt (Some db) (Some limit)
     = Raise (OverflowError "MongoDB can only handle up to 8-byte ints") /\
     recent_matches rt (Some db) (Some limit)
     = Raise (OverflowError "MongoDB can only handle up to 8-byte ints")).
  { intros H. unfold leaderboard, recent_matches, aggregate, leaderboard_pipeline,
      recent_matches_pipeline. cbn [require_db bind].
    change (default 10 (Some limit)) with limit.
    cbn [forallb stage_encodes stage_parses andb].
    assert (E1 : (int64_min <=? limit) && (limit <=? int64_max) = false) by lia.
    rewrite E1. done. }
  assert (Hcases : 1 <= limit <= int64_max \/ int64_min <= limit <= 0 \/
                   (limit < int64_min \/ int64_max < limit)) by lia.
  split; [|split; [|split; [|split; [done | done]]]].
  - split.
    + intros Hs. destruct Hcases as [H|[H|H]]; [done| |].
      * destruct (Hlow H) as (m & E & _). by rewrite E in Hs.
      * destruct (Hout H) as [E _]. by rewrite E in Hs.
    + intros H. by rewrite leaderboard_closed.
  - split.
    + intros Hs. destruct Hcases as [H|[H|H]]; [done| |].
      * destruct (Hlow H) as (m & _ & E). by rewrite E in Hs.
      * destruct (Hout H) as [_ E]. by rewrite E in Hs.
    + intros H. by rewrite recent_matches_closed.
  - intros Hno. destruct Hcases as [H|[H|H]]; [done| |].
    + destruct (Hlow H) as (m & -> & ->). by split.
    + destruct (Hout H) as [-> ->]. by split.
Qed.

Lemma limit_outside_range_witness :
  status_of (leaderboard sample_rt (Some sample_db) (Some (-1))) = 500 /\
  status_of (recent_matches sample_rt (Some sample_db) (Some 0)) = 500.
Proof.
  split.
  - destruct (limit_outside_range sample_rt sample_db (-1) sample_db_wf) as (_ & _ & H & _).
    destruct H as [E _]; [vm_compute; intros [H _]; apply H; reflexivity|]. exact E.
  - destruct (limit_outside_range sample_rt sample_db 0 sample_db_wf) as (_ & _ & H & _).
    destruct H as [_ E]; [vm_compute; intros [H _]; apply H; reflexivity|]. exact E.
Defined.

(** ** The bounds of a rating *)

(** X18.  Validation of the body of a player holds a rating to its bounds:
    a number below 0 or above 6, given as a float or as an integer, is
    refused with status 422, [rating] being among the fields reported,
    and so is a [handedness] that is a string other than "left" and
    "right".  What [model_dump] gives for a player validates to that
    player exactly when the player has no rating or a rating from 0 to 6,
    both bounds included. *)
Theorem player_rating_bounds (rt : Runtime) :
  (forall d q,
     doc_lookup "rating" d = Some (VFloat q) \/
     (exists z, doc_lookup "rating" d = Some (VInt z) /\ q = inject_Z z) ->
     (q < 0 \/ 6 < q)%Q ->
     exists fields,
       Player.validate rt (VDoc d) = Raise (RequestValidationError fields) /\
       In "rating" fields /\ status_of (Player.validate rt (VDoc d)) = 422) /\
  (forall d s,
     doc_lookup "handedness" d = Some (VStr s) -> s <> "left" -> s <> "right" ->
     exists fields,
       Player.validate rt (VDoc d) = Raise (RequestValidationError fields) /\
       In "handedness" fields /\ status_of (Player.validate rt (VDoc d)) = 422) /\
  (forall p,
     Player.validate rt (VDoc (Player.model_dump p)) = Ok p <->
     match Player.rating p with
     | Some r => (0 <= r <= 6)%Q
     | None => True
     end).
Proof.
  assert (Hrange : forall q, Qle_both 0 6 q = true <-> (0 <= q <= 6)%Q).
  { intros q. unfold Qle_both. rewrite andb_true_iff, !Qle_bool_iff. done. }
  split; [|split].
  - intros d q Hq Hout.
    assert (E : Player.validate_rating rt d = None).
    { assert (Hb : Qle_both 0 6 q = false).
      { destruct (Qle_both 0 6 q) eqn:E; [|done]. apply Hrange in E as [E1 E2].
        destruct Hout as [Hout|Hout].
        - destruct (Qlt_not_le _ _ Hout E1).
        - destruct (Qlt_not_le _ _ Hout E2). }
      unfold Player.validate_rating.
      destruct Hq as [->|(z & -> & ->)]; by rewrite Hb. }
    unfold Player.validate. rewrite E.
    destruct (Player.validate_name d), (Player.validate_handedness d);
      eexists; (split; [reflexivity|]); split; try done; cbn; tauto.
  - intros d s Hs Hl Hr.
    assert (E : Player.validate_handedness d = None).
    { unfold Player.validate_handedness. rewrite Hs.
      apply String.eqb_neq in Hl, Hr. by rewrite Hl, Hr. }
    unfold Player.validate. rewrite E.
    destruct (Player.validate_name d), (Player.validate_rating rt d);
      eexists; (split; [reflexivity|]); split; try done; cbn; tauto.
  - intros [n r h]. unfold Player.validate, Player.validate_name, Player.validate_rating,
      Player.validate_handedness. cbn.
    assert (Hh : match opt_value (fun h0 => VStr (Handedness_str h0)) h with
                 | VNull => Some None
                 | VStr s => if String.eqb s "left" then Some (Some hand_left)
                             else if String.eqb s "right" then Some (Some hand_right)
                             else None
                 | _ => None
                 end = Some h) by (by destruct h as [[]|]).
    rewrite Hh. destruct r as [q|]; cbn; [|done].
    destruct (Qle_both 0 6 q) eqn:E.
    + split; [intros _; by apply Hrange | done].
    + split; [done|]. intros H. apply Hrange in H. congruence.
Qed.

Lemma player_rating_bounds_witness :
  status_of (Player.validate sample_rt (VDoc [("name", VStr "ann"); ("rating", VInt 7)])) = 422 /\
  Player.validate sample_rt
    (VDoc (Player.model_dump {| Player.name := "ann"; Player.rating := Some 6%Q;
                                Player.handedness := Some hand_left |}))
  = Ok {| Player.name := "ann"; Player.rating := Some 6%Q;
          Player.handedness := Some hand_left |}.
Proof.
  destruct (player_rating_bounds sample_rt) as (H1 & _ & H3). split.
  - destruct (H1 [("name", VStr "ann"); ("rating", VInt 7)] (inject_Z 7))
      as (fields & _ & _ & E).
    + right. exists 7. split; reflexivity.
    + right. reflexivity.
    + exact E.
  - apply H3. cbn. split; discriminate.
Defined.
(** ** A new point on the leaderboard *)

Lemma scorers_snoc (db : Database) (d : document) (x : ObjectId) :
  In x (scorers (<["point" := collection db "point" ++ [d]]> db)) <->
  In x (scorers db) \/ oid_field "scorer_id" d = Some x.
Proof.
  unfold scorers. rewrite collection_insert_eq.
  rewrite !(nub_by_In bytes_eqb bytes_eqb_eq), <- !list_elem_of_In, !list_elem_of_omap.
  split.
  - intros (pt & Hpt & Hx). apply list_elem_of_In, in_app_or in Hpt as [Hpt|[<-|[]]].
    + left. exists pt. split; [by apply list_elem_of_In | done].
    + by right.
  - intros [(pt & Hpt & Hx)|Hx].
    + exists pt. split; [|done]. apply list_elem_of_In, in_or_app. left.
      by apply list_elem_of_In.
    + exists d. split; [|done]. apply list_elem_of_In, in_or_app. right. by left.
Qed.

Lemma points_by_snoc (db : Database) (d : document) (x : ObjectId) :
  points_by (<["point" := collection db "point" ++ [d]]> db) x
  = points_by db x ++ (if scored_by x d then [d] else []).
Proof.
  unfold points_by. rewrite collection_insert_eq, List.filter_app. simpl.
  by destruct (scored_by x d).
Qed.

Lemma board_row_id (db : Database) (x : ObjectId) :
  doc_lookup "_id" (board_row db x) = Some (VOid x).
Proof. done. Qed.

Lemma leaderboard_all (rt : Runtime) (db : Database) (limit : Z) :
  wf_db db -> 1 <= limit <= int64_max -> Z.of_nat (List.length (scorers db)) <= limit ->
  exists rows,
    leaderboard rt (Some db) (Some limit) = Ok rows /\
    Permutation rows (map (board_row db) (scorers db)).
Proof.
  intros Hwf Hlimit Hall. rewrite leaderboard_closed by done.
  eexists. split; [reflexivity|]. rewrite firstn_all2; [apply sort_by_perm|].
  rewrite sort_by_length, length_map. lia.
Qed.

(** X19.  After [create_point], on a leaderboard that leaves nobody out,
    the scorer of the new point has a row with one more point won than the
    scorer had won before, whether or not the point's match is a stored
    match of the scorer; the rows of the other scorers are what they were;
    and the points won of all rows together are one more than before. *)
Theorem create_point_leaderboard (rt : Runtime) (db : Database) (new_id : ObjectId)
    (pt : Point.t) (resp : document) (db' : Database) (limit : Z) :
  wf_db db ->
  create_point (Some db) new_id pt = Ok (resp, db') ->
  1 <= limit <= int64_max -> Z.of_nat (List.length (scorers db')) <= limit ->
  exists s rows rows',
    oid (Point.scorer_id pt) = Ok s /\
    leaderboard rt (Some db) (Some limit) = Ok rows /\
    leaderboard rt (Some db') (Some limit) = Ok rows' /\
    (exists r, In r rows' /\ doc_lookup "_id" r = Some (VOid s) /\
               doc_lookup "player_id" r = Some (VStr (str_ObjectId s)) /\
               won_of r = Z.of_nat (List.length (points_by db s)) + 1) /\
    (forall r, doc_lookup "_id" r <> Some (VOid s) -> In r rows' <-> In r rows) /\
    total_won rows' = total_won rows + 1.
Proof.
  intros Hwf H Hlimit Hall. pose proof (create_point_wf _ _ _ _ _ Hwf H) as Hwf'.
  apply create_point_Ok in H as (m & s & Hm & Hs & _ & -> & _).
  set (d := point_doc new_id m s pt) in *.
  set (db' := <["point" := collection db "point" ++ [d]]> db) in *.
  assert (Hsc : forall x, scored_by x d = true <-> x = s).
  { intros x. unfold scored_by, d.
    rewrite has_oid_true, (proj2 (point_doc_fields new_id m s pt)). split; congruence. }
  assert (Hin' : forall x, In x (scorers db') <-> In x (scorers db) \/ x = s).
  { intros x. unfold db'. rewrite scorers_snoc. unfold d.
    rewrite (proj2 (point_doc_fields new_id m s pt)). split; (intros [?|?]; [by left|right]); congruence. }
  assert (Hlen : (List.length (scorers db) <= List.length (scorers db'))%nat).
  { apply NoDup_incl_length; [apply nub_by_NoDup, bytes_eqb_eq|].
    intros x Hx. apply Hin'. by left. }
  destruct (leaderboard_all rt db limit Hwf Hlimit) as (rows & Hrows & Hperm); [lia|].
  destruct (leaderboard_all rt db' limit Hwf' Hlimit Hall) as (rows' & Hrows' & Hperm').
  assert (Hother : forall x, x <> s -> board_row db' x = board_row db x).
  { intros x Hx. unfold board_row, db'. rewrite points_by_snoc, player_name_insert by done.
    destruct (scored_by x d) eqn:E; [by apply Hsc in E|]. by rewrite app_nil_r. }
  exists s, rows, rows'. split; [done|]. split; [done|]. split; [done|].
  split; [|split].
  - exists (board_row db' s). split; [|split; [done|split; [done|]]].
    + apply (Permutation_in _ (Permutation_sym Hperm')), in_map_iff. exists s.
      split; [done|]. apply Hin'. by right.
    + rewrite (proj2 (board_row_won db' s)). unfold db'. rewrite points_by_snoc.
      rewrite (proj2 (Hsc s) eq_refl), length_app. simpl. lia.
  - intros r Hr. split.
    + intros Hin. apply (Permutation_in _ Hperm'), in_map_iff in Hin as (x & <- & Hx).
      rewrite board_row_id in Hr. assert (Hne : x <> s) by congruence.
      rewrite (Hother x Hne). apply (Permutation_in _ (Permutation_sym Hperm)), in_map_iff.
      exists x. split; [done|]. apply Hin' in Hx as [Hx|Hx]; done.
    + intros Hin. apply (Permutation_in _ Hperm), in_map_iff in Hin as (x & <- & Hx).
      rewrite board_row_id in Hr. assert (Hne : x <> s) by congruence.
      rewrite <- (Hother x Hne). apply (Permutation_in _ (Permutation_sym Hperm')), in_map_iff.
      exists x. split; [done|]. apply Hin'. by left.
  - rewrite (total_won_perm _ _ Hperm), (total_won_perm _ _ Hperm').
    rewrite !total_won_board by done. unfold db'.
    rewrite collection_insert_eq, length_app. simpl. lia.
Qed.

Lemma create_point_leaderboard_witness :
  exists rows rows',
    leaderboard sample_rt (Some sample_db) (Some 5) = Ok rows /\
    leaderboard sample_rt
      (Some (after (create_point (Some sample_db) (id_bytes 31) stray_dink_point)))
      (Some 5) = Ok rows' /\
    total_won rows' = total_won rows + 1.
Proof.
  destruct (create_point_leaderboard sample_rt sample_db (id_bytes 31) stray_dink_point
              [("id", VStr (id_text 31))]
              (after (create_point (Some sample_db) (id_bytes 31) stray_dink_point)) 5)
    as (s & rows & rows' & _ & H & H' & _ & _ & Hsum).
  - exact sample_db_wf.
  - vm_compute. reflexivity.
  - vm_compute. split; discriminate.
  - vm_compute. discriminate.
  - exists rows, rows'. split; [exact H|]. split; [exact H'|]. exact Hsum.
Defined.
